(** * DESIGNER.py: BPMN ingestion, field graph and undo history

    A shallow embedding of the process-ingestion functions
    ([parse_bizagi_group_by_diagram], [build_task_fields_for_diagram]), of
    the data model ([Condition], [Field], [Task], [ProjectModel]) and of the
    editing operations of [App] that mutate it, with the properties the
    design document states about them.

    Python [str] values are [string]s holding the UTF-8 encoding of the
    text: comparing two such strings byte by byte orders them as Python
    orders the texts, by code point. *)

From Stdlib Require Import String Ascii List Bool Arith NArith Lia.
From Stdlib Require Import Sorted Permutation OrderedTypeEx.
From Stdlib Require Import ZArith Decimal DecimalString DecimalNat FinFun.
From stdpp Require Import base list strings gmap.

Import ListNotations.
Local Open Scope string_scope.
Local Open Scope list_scope.
Local Set Warnings "-register-all".

(** ** Python string operations *)

Module PyStr.

(** Number of bytes of the UTF-8 sequence that starts with byte [c]. *)
Definition seq_len (c : ascii) : nat :=
  let n := N_of_ascii c in
  if (n <? 128)%N then 1
  else if (192 <=? n)%N && (n <? 224)%N then 2
  else if (224 <=? n)%N && (n <? 240)%N then 3
  else if (240 <=? n)%N && (n <? 248)%N then 4
  else 1.

Definition emit (cur : string) : list string :=
  match cur with EmptyString => [] | _ => [cur] end.

(** The characters of a text, each as the bytes that encode it. *)
Fixpoint chars_from (pending : nat) (cur s : string) : list string :=
  match s with
  | EmptyString => emit cur
  | String c s' =>
      match pending with
      | O => emit cur ++ chars_from (seq_len c - 1) (String c EmptyString) s'
      | S p => chars_from p (cur +:+ String c EmptyString) s'
      end
  end.

Definition chars (s : string) : list string := chars_from 0 EmptyString s.

Definition join_chars (cs : list string) : string :=
  fold_right String.append EmptyString cs.

Definition cont (c : ascii) : N := (N_of_ascii c - 128)%N.

(** Code point of one character. *)
Definition codepoint (ch : string) : N :=
  match ch with
  | String a EmptyString => N_of_ascii a
  | String a (String b EmptyString) =>
      ((N_of_ascii a - 192) * 64 + cont b)%N
  | String a (String b (String c EmptyString)) =>
      ((N_of_ascii a - 224) * 4096 + cont b * 64 + cont c)%N
  | String a (String b (String c (String d EmptyString))) =>
      ((N_of_ascii a - 240) * 262144 + cont b * 4096 + cont c * 64 + cont d)%N
  | _ => 0%N
  end.

(** Encoding of a code point below U+0800, all that [lower] produces. *)
Definition encode (cp : N) : string :=
  if (cp <? 128)%N then String (ascii_of_N cp) EmptyString
  else String (ascii_of_N (192 + cp / 64))
         (String (ascii_of_N (128 + cp mod 64)) EmptyString).

(** The characters [str.isspace] accepts, which [str.split] and
    [str.strip] without argument treat as separators. *)
Definition whitespace : list N :=
  [9; 10; 11; 12; 13; 28; 29; 30; 31; 32; 133; 160; 5760;
   8192; 8193; 8194; 8195; 8196; 8197; 8198; 8199; 8200; 8201; 8202;
   8232; 8233; 8239; 8287; 12288]%N.

Definition is_space (ch : string) : bool :=
  existsb (N.eqb (codepoint ch)) whitespace.

(** [str.lower] on the Basic Latin and Latin-1 letters (U+0041..U+005A,
    U+00C0..U+00DE without the multiplication sign); the letters of other
    scripts are left as they are. *)
Definition lower_char (ch : string) : string :=
  let cp := codepoint ch in
  if ((65 <=? cp) && (cp <=? 90))%N then encode (cp + 32)
  else if ((192 <=? cp) && (cp <=? 222) && negb (cp =? 215))%N
       then encode (cp + 32)
  else ch.

Definition lower (s : string) : string :=
  join_chars (map lower_char (chars s)).

(** [s.replace(old, new)] for a one-character [old]. *)
Definition replace_char (old new s : string) : string :=
  join_chars (map (fun ch => if String.eqb ch old then new else ch) (chars s)).

(** [s.split()]: the maximal runs of characters that are not whitespace. *)
Fixpoint split_ws (cur : string) (cs : list string) : list string :=
  match cs with
  | [] => emit cur
  | ch :: cs' =>
      if is_space ch then emit cur ++ split_ws EmptyString cs'
      else split_ws (cur +:+ ch) cs'
  end.

Definition split (s : string) : list string := split_ws EmptyString (chars s).

(** [sep.join(parts)]. *)
Definition join (sep : string) (parts : list string) : string :=
  String.concat sep parts.

Fixpoint lstrip_chars (cs : list string) : list string :=
  match cs with
  | ch :: cs' => if is_space ch then lstrip_chars cs' else cs
  | [] => []
  end.

(** [s.strip()]. *)
Definition strip (s : string) : string :=
  join_chars (rev (lstrip_chars (rev (lstrip_chars (chars s))))).

Fixpoint drop_bytes (n : nat) (s : string) : string :=
  match n, s with
  | O, _ => s
  | S n', String _ s' => drop_bytes n' s'
  | S _, EmptyString => EmptyString
  end.

(** [s.endswith(suffix)]. *)
Definition endswith (s suffix : string) : bool :=
  Nat.leb (String.length suffix) (String.length s)
  && String.eqb (drop_bytes (String.length s - String.length suffix) s) suffix.

(** [s.split(sep)[0]] for a one-byte [sep]: the text before its first
    occurrence, the whole text when it does not occur. *)
Fixpoint before_first (sep : ascii) (s : string) : string :=
  match s with
  | EmptyString => EmptyString
  | String c s' =>
      if Ascii.eqb c sep then EmptyString else String c (before_first sep s')
  end.

Fixpoint lstrip_byte (b : ascii) (s : string) : string :=
  match s with
  | String c s' => if Ascii.eqb c b then lstrip_byte b s' else s
  | EmptyString => EmptyString
  end.

Definition rev_string (s : string) : string :=
  string_of_list_ascii (rev (list_ascii_of_string s)).

(** [s.strip(b)] for a one-byte [b]. *)
Definition strip_byte (b : ascii) (s : string) : string :=
  rev_string (lstrip_byte b (rev_string (lstrip_byte b s))).

(** Truth value of a string: empty is false. *)
Definition truthy (s : string) : bool :=
  match s with EmptyString => false | _ => true end.

(** [a or b] on strings. *)
Definition or_else (a b : string) : string := if truthy a then a else b.

End PyStr.

(** [normalize_label]: line breaks become spaces, runs of whitespace
    collapse to one space, and the ends are trimmed. *)
Definition normalize_label (s : string) : string :=
  if negb (PyStr.truthy s) then ""
  else PyStr.join " "
         (PyStr.split
            (PyStr.replace_char (String "010" EmptyString) " "
               (PyStr.replace_char (String "013" EmptyString) " " s))).


(** ** Python dictionaries in insertion order *)

Module PyDict.

(** A [dict] with string keys, as the list of its items in insertion order;
    a key occurs once. *)
Definition t (V : Type) : Type := list (string * V).

Fixpoint get {V} (d : t V) (k : string) : option V :=
  match d with
  | [] => None
  | (k', v) :: d' => if String.eqb k' k then Some v else get d' k
  end.

(** [d.get(k, default)]. *)
Definition get_default {V} (d : t V) (k : string) (default : V) : V :=
  match get d k with Some v => v | None => default end.

(** [d[k] = v]: a present key keeps its place, a new one goes last. *)
Fixpoint set {V} (d : t V) (k : string) (v : V) : t V :=
  match d with
  | [] => [(k, v)]
  | (k', v') :: d' =>
      if String.eqb k' k then (k', v) :: d' else (k', v') :: set d' k v
  end.

(** [d.setdefault(k, []).append(x)]. *)
Fixpoint setdefault_append {V} (d : t (list V)) (k : string) (x : V)
  : t (list V) :=
  match d with
  | [] => [(k, [x])]
  | (k', l) :: d' =>
      if String.eqb k' k then (k', l ++ [x]) :: d'
      else (k', l) :: setdefault_append d' k x
  end.

(** [d[k].append(x)] for a key that is present (nothing is done otherwise;
    the callers below only use keys they have inserted). *)
Fixpoint append_at {V} (d : t (list V)) (k : string) (x : V) : t (list V) :=
  match d with
  | [] => []
  | (k', l) :: d' =>
      if String.eqb k' k then (k', l ++ [x]) :: d'
      else (k', l) :: append_at d' k x
  end.

Definition values {V} (d : t V) : list V := map snd d.

Definition keys {V} (d : t V) : list string := map fst d.

End PyDict.

(** ** The archive and its XML documents *)

(** An [xml.etree] element: its tag (written [{uri}local] when it has a
    namespace), its attributes and its children in document order. *)
Inductive Element : Type :=
| Elem (tag : string) (attrib : list (string * string)) (children : list Element).

Definition tag_of (e : Element) : string :=
  match e with Elem t _ _ => t end.

Definition children_of (e : Element) : list Element :=
  match e with Elem _ _ cs => cs end.

(** [e.get(key, default)]. *)
Definition attr (e : Element) (key default : string) : string :=
  match e with Elem _ a _ => PyDict.get_default a key default end.

(** [e.findall('.//xpdl:Local', ns)] lists the elements below [e], at any
    depth and in document order, whose tag is the qualified name. *)
Fixpoint descendants (e : Element) : list Element :=
  match e with
  | Elem _ _ cs => flat_map (fun c => c :: descendants c) cs
  end.

Definition qualified (ns local : string) : string :=
  "{" +:+ ns +:+ "}" +:+ local.

Definition findall (e : Element) (ns local : string) : list Element :=
  List.filter (fun x => String.eqb (tag_of x) (qualified ns local)) (descendants e).

(** [e.find('xpdl:Local', ns) is not None]: some child has the tag. *)
Definition has_child (e : Element) (ns local : string) : bool :=
  existsb (fun x => String.eqb (tag_of x) (qualified ns local)) (children_of e).

(** What reading and parsing a member of a nested archive gives:
    [ET.fromstring(inner.read(..))] raises, or returns the root. *)
Inductive Payload : Type :=
| Broken
| Parsed (root : Element).

(** An entry of the outer archive, by what the reader can do with it:
    [z.read] raises; the bytes are not a zip file; they pass [is_zipfile]
    but [ZipFile] raises; or they open as an archive with these members. *)
Inductive Blob : Type :=
| Unreadable
| NotZip
| CorruptZip
| InnerZip (members : list (string * Payload)).

Definition Archive : Type := list (string * Blob).

(** [z.namelist()]. *)
Definition namelist {V} (z : list (string * V)) : list string := map fst z.

(** [z.read(name)] serves the last member of that name. *)
Definition zip_read {V} (z : list (string * V)) (name : string) : option V :=
  PyDict.get (rev z) name.

(** The nodes and transitions read from a diagram. *)
Record Node : Type := mkNode {
  node_id : string;
  node_name : string;
  node_type : string;
  node_has_implementation : bool
}.

Record Transition : Type := mkTransition {
  tr_from : string;
  tr_to : string;
  tr_name : string
}.

(** How the body of the [try] ends for one entry: [continue], the
    [except] branch, or a parsed root. *)
Inductive Attempt : Type :=
| Skipped
| Failed
| Root (root : Element).

Definition open_diagram (z : Archive) (d : string) : Attempt :=
  match zip_read z d with
  | None => Failed
  | Some Unreadable => Failed
  | Some NotZip => Skipped
  | Some CorruptZip => Failed
  | Some (InnerZip members) =>
      if negb (existsb (String.eqb "Diagram.xml") (namelist members))
      then Skipped
      else match zip_read members "Diagram.xml" with
           | Some (Parsed root) => Root root
           | _ => Failed
           end
  end.

Definition namespace_of (root : Element) : string :=
  PyStr.strip_byte "{" (PyStr.before_first "}" (tag_of root)).

Definition diagram_label (d : string) (root : Element) : string :=
  let ns := namespace_of root in
  let pool_names :=
    map (fun p => normalize_label (PyStr.or_else (attr p "Name" "") ""))
        (findall root ns "Pool") in
  match pool_names with
  | [] => d
  | first :: _ =>
      let preferred :=
        List.filter
          (fun p => PyStr.truthy p
                    && negb (String.eqb (PyStr.lower p) "processo principal"))
          pool_names in
      match preferred with
      | p :: _ => p
      | [] => PyStr.or_else first d
      end
  end.

Definition activity_node (ns : string) (act : Element) : Node :=
  let route := has_child act ns "Route" in
  let implementation := has_child act ns "Implementation" in
  {| node_id := attr act "Id" "";
     node_name := normalize_label (PyStr.or_else (attr act "Name" "") "");
     node_type := if route then "Route"
                  else if implementation then "Task" else "Activity";
     node_has_implementation := implementation |}.

Definition diagram_nodes (root : Element) : PyDict.t Node :=
  let ns := namespace_of root in
  fold_left (fun nodes act =>
               let n := activity_node ns act in PyDict.set nodes (node_id n) n)
            (findall root ns "Activity") [].

Definition diagram_transitions (root : Element) : list Transition :=
  let ns := namespace_of root in
  map (fun tr => {| tr_from := attr tr "From" "";
                    tr_to := attr tr "To" "";
                    tr_name := normalize_label (attr tr "Name" "") |})
      (findall root ns "Transition").

(** The three values the reader builds up. *)
Record Diagrams : Type := mkDiagrams {
  diagrams_labels : list (string * string);
  nodes_by_diag : PyDict.t (PyDict.t Node);
  transitions_by_diag : PyDict.t (list Transition)
}.

(** One turn of the loop over the [.diag] entries. *)
Definition read_entry (z : Archive) (acc : Diagrams) (d : string) : Diagrams :=
  match open_diagram z d with
  | Skipped => acc
  | Failed =>
      {| diagrams_labels := diagrams_labels acc ++ [(d, d)];
         nodes_by_diag := nodes_by_diag acc;
         transitions_by_diag := transitions_by_diag acc |}
  | Root root =>
      {| diagrams_labels := diagrams_labels acc ++ [(d, diagram_label d root)];
         nodes_by_diag := PyDict.set (nodes_by_diag acc) d (diagram_nodes root);
         transitions_by_diag :=
           PyDict.set (transitions_by_diag acc) d (diagram_transitions root) |}
  end.

(** [list.sort(key=...)] is stable: an item goes before the first one whose
    key is strictly greater than its own, scanning from the right end. *)
Fixpoint insert_by_label (x : string * string) (l : list (string * string))
  : list (string * string) :=
  match l with
  | [] => [x]
  | h :: t =>
      if String.ltb (snd h) (snd x) then h :: insert_by_label x t else x :: l
  end.

Definition sort_by_label (l : list (string * string)) : list (string * string) :=
  fold_right insert_by_label [] l.

Inductive ReadResult : Type :=
| RuntimeError (message : string)
| Returned (result : Diagrams).

Definition diag_entries (z : Archive) : list string :=
  List.filter (fun n => PyStr.endswith (PyStr.lower n) ".diag") (namelist z).

Definition parse_bizagi_group_by_diagram (z : Archive) : ReadResult :=
  let diags := diag_entries z in
  match diags with
  | [] => RuntimeError "Nenhum .diag encontrado dentro do .bpm"
  | _ =>
      let acc := fold_left (read_entry z) diags (mkDiagrams [] [] []) in
      Returned {| diagrams_labels := sort_by_label (diagrams_labels acc);
                  nodes_by_diag := nodes_by_diag acc;
                  transitions_by_diag := transitions_by_diag acc |}
  end.

(** [run_import_flow], up to the point where it accepts or refuses what the
    reader returned. *)
Inductive ImportOutcome : Type :=
| ImportError (message : string)
| ImportWarning (message : string)
| ImportShown (diagram_list : list (string * string)).

Definition run_import_flow (z : Archive) : ImportOutcome :=
  match parse_bizagi_group_by_diagram z with
  | RuntimeError e => ImportError e
  | Returned r =>
      match diagrams_labels r with
      | [] => ImportWarning "Nenhum diagrama válido foi encontrado no ficheiro."
      | diags => ImportShown diags
      end
  end.

(** ** Decision fields of the gateways *)

(** The [field_data] dictionary of a decision field. *)
Record FieldData : Type := mkFieldData {
  fd_id : string;
  fd_campo : string;
  fd_tipo : string;
  fd_opcoes : list string
}.

Definition transition_index (key : Transition -> string) (transitions : list Transition)
  : PyDict.t (list Transition) :=
  fold_left (fun idx t => PyDict.setdefault_append idx (key t) t) transitions [].

Definition is_task (n : Node) : bool :=
  String.eqb (node_type n) "Task" && node_has_implementation n.

Definition is_route (n : Node) : bool := String.eqb (node_type n) "Route".

(** [set(a) == set(b)] on lists of strings. *)
Definition same_set (a b : list string) : bool :=
  forallb (fun x => existsb (String.eqb x) b) a
  && forallb (fun x => existsb (String.eqb x) a) b.

(** [nodes.get(t["to"], {}).get("name", "")]: the name of the node a
    transition leads to, empty when there is none. *)
Definition destination_name (nodes : PyDict.t Node) (t : Transition) : string :=
  match PyDict.get nodes (tr_to t) with
  | Some n => node_name n
  | None => ""
  end.

Definition gateway_options (nodes : PyDict.t Node) (outgoing : list Transition)
  : list string :=
  let opts := List.filter PyStr.truthy (map tr_name outgoing) in
  let opts :=
    match opts, outgoing with
    | [], _ :: _ =>
        List.filter PyStr.truthy (map (destination_name nodes) outgoing)
    | _, _ => opts
    end in
  match opts with
  | [] => if Nat.eqb (length outgoing) 2 then ["Sim"; "Não"] else opts
  | _ => opts
  end.

Definition gateway_tipo (opts : list string) : string :=
  let lowered := map PyStr.lower opts in
  if same_set lowered ["sim"; "não"] || same_set lowered ["sim"; "nao"]
  then "Lista (Sim/Não)" else "Lista".

(** The fields one gateway gives: one per incoming transition that leaves
    an implemented task, each with the key of [task_fields] it goes to. *)
Definition gateway_fields (nodes : PyDict.t Node) (incoming outgoing : list Transition)
  (gw : Node) : list (string * FieldData) :=
  let opts := gateway_options nodes outgoing in
  let tipo := gateway_tipo opts in
  let campo_nome := normalize_label (node_name gw) in
  flat_map
    (fun inc =>
       match PyDict.get nodes (tr_from inc) with
       | Some src =>
           if is_task src
           then [(node_id src,
                  {| fd_id := node_id src +:+ "_" +:+ node_id gw;
                     fd_campo := campo_nome;
                     fd_tipo := tipo;
                     fd_opcoes := opts |})]
           else []
       | None => []
       end)
    incoming.

Definition build_task_fields_for_diagram
  (nodes : PyDict.t Node) (transitions : list Transition)
  : list Node * PyDict.t (list FieldData) :=
  let out_by := transition_index tr_from transitions in
  let in_by := transition_index tr_to transitions in
  let tasks := List.filter is_task (PyDict.values nodes) in
  let task_fields :=
    fold_left (fun tf t => PyDict.set tf (node_id t) []) tasks [] in
  let task_fields :=
    fold_left
      (fun tf gw =>
         let incoming := PyDict.get_default in_by (node_id gw) [] in
         let outgoing := PyDict.get_default out_by (node_id gw) [] in
         fold_left (fun tf' kv => PyDict.append_at tf' (fst kv) (snd kv))
                   (gateway_fields nodes incoming outgoing gw) tf)
      (List.filter is_route (PyDict.values nodes)) task_fields in
  (tasks, task_fields).

(** ** The data model *)

Module Condition.

Record t : Type := mk {
  src_field : string;
  op : string;
  value : string
}.

End Condition.

Module ObjectFieldDef.

Record t : Type := mk {
  name : string;
  ftype : string;
  options : string;
  required : bool;
  readonly : bool;
  group : string;
  order : nat;
  note : string
}.

End ObjectFieldDef.

Module Field.

(** [origin_task] and [origin_field] are [None] or a string;
    [name_lock_reason] is the empty string, "objeto" or "origem". *)
Record t : Type := mk {
  id : string;
  name : string;
  ftype : string;
  required : bool;
  readonly : bool;
  info : string;
  options : string;
  note : string;
  origin_task : option string;
  origin_field : option string;
  name_locked : bool;
  name_lock_reason : string;
  name_before_obj : string;
  name_before_origin : string;
  obj_type : string;
  cond : list Condition.t
}.

(** Assignment to one attribute. *)
Definition set_name (v : string) (f : t) : t :=
  {| id := id f; name := v; ftype := ftype f; required := required f;
     readonly := readonly f; info := info f; options := options f;
     note := note f; origin_task := origin_task f;
     origin_field := origin_field f; name_locked := name_locked f;
     name_lock_reason := name_lock_reason f;
     name_before_obj := name_before_obj f;
     name_before_origin := name_before_origin f; obj_type := obj_type f;
     cond := cond f |}.

Definition set_ftype (v : string) (f : t) : t :=
  {| id := id f; name := name f; ftype := v; required := required f;
     readonly := readonly f; info := info f; options := options f;
     note := note f; origin_task := origin_task f;
     origin_field := origin_field f; name_locked := name_locked f;
     name_lock_reason := name_lock_reason f;
     name_before_obj := name_before_obj f;
     name_before_origin := name_before_origin f; obj_type := obj_type f;
     cond := cond f |}.

Definition set_required (v : bool) (f : t) : t :=
  {| id := id f; name := name f; ftype := ftype f; required := v;
     readonly := readonly f; info := info f; options := options f;
     note := note f; origin_task := origin_task f;
     origin_field := origin_field f; name_locked := name_locked f;
     name_lock_reason := name_lock_reason f;
     name_before_obj := name_before_obj f;
     name_before_origin := name_before_origin f; obj_type := obj_type f;
     cond := cond f |}.

Definition set_readonly (v : bool) (f : t) : t :=
  {| id := id f; name := name f; ftype := ftype f; required := required f;
     readonly := v; info := info f; options := options f; note := note f;
     origin_task := origin_task f; origin_field := origin_field f;
     name_locked := name_locked f; name_lock_reason := name_lock_reason f;
     name_before_obj := name_before_obj f;
     name_before_origin := name_before_origin f; obj_type := obj_type f;
     cond := cond f |}.

Definition set_options (v : string) (f : t) : t :=
  {| id := id f; name := name f; ftype := ftype f; required := required f;
     readonly := readonly f; info := info f; options := v; note := note f;
     origin_task := origin_task f; origin_field := origin_field f;
     name_locked := name_locked f; name_lock_reason := name_lock_reason f;
     name_before_obj := name_before_obj f;
     name_before_origin := name_before_origin f; obj_type := obj_type f;
     cond := cond f |}.

Definition set_note (v : string) (f : t) : t :=
  {| id := id f; name := name f; ftype := ftype f; required := required f;
     readonly := readonly f; info := info f; options := options f; note := v;
     origin_task := origin_task f; origin_field := origin_field f;
     name_locked := name_locked f; name_lock_reason := name_lock_reason f;
     name_before_obj := name_before_obj f;
     name_before_origin := name_before_origin f; obj_type := obj_type f;
     cond := cond f |}.

Definition set_origin_task (v : option string) (f : t) : t :=
  {| id := id f; name := name f; ftype := ftype f; required := required f;
     readonly := readonly f; info := info f; options := options f;
     note := note f; origin_task := v; origin_field := origin_field f;
     name_locked := name_locked f; name_lock_reason := name_lock_reason f;
     name_before_obj := name_before_obj f;
     name_before_origin := name_before_origin f; obj_type := obj_type f;
     cond := cond f |}.

Definition set_origin_field (v : option string) (f : t) : t :=
  {| id := id f; name := name f; ftype := ftype f; required := required f;
     readonly := readonly f; info := info f; options := options f;
     note := note f; origin_task := origin_task f; origin_field := v;
     name_locked := name_locked f; name_lock_reason := name_lock_reason f;
     name_before_obj := name_before_obj f;
     name_before_origin := name_before_origin f; obj_type := obj_type f;
     cond := cond f |}.

Definition set_name_locked (v : bool) (f : t) : t :=
  {| id := id f; name := name f; ftype := ftype f; required := required f;
     readonly := readonly f; info := info f; options := options f;
     note := note f; origin_task := origin_task f;
     origin_field := origin_field f; name_locked := v;
     name_lock_reason := name_lock_reason f;
     name_before_obj := name_before_obj f;
     name_before_origin := name_before_origin f; obj_type := obj_type f;
     cond := cond f |}.

Definition set_name_lock_reason (v : string) (f : t) : t :=
  {| id := id f; name := name f; ftype := ftype f; required := required f;
     readonly := readonly f; info := info f; options := options f;
     note := note f; origin_task := origin_task f;
     origin_field := origin_field f; name_locked := name_locked f;
     name_lock_reason := v; name_before_obj := name_before_obj f;
     name_before_origin := name_before_origin f; obj_type := obj_type f;
     cond := cond f |}.

Definition set_name_before_obj (v : string) (f : t) : t :=
  {| id := id f; name := name f; ftype := ftype f; required := required f;
     readonly := readonly f; info := info f; options := options f;
     note := note f; origin_task := origin_task f;
     origin_field := origin_field f; name_locked := name_locked f;
     name_lock_reason := name_lock_reason f; name_before_obj := v;
     name_before_origin := name_before_origin f; obj_type := obj_type f;
     cond := cond f |}.

Definition set_name_before_origin (v : string) (f : t) : t :=
  {| id := id f; name := name f; ftype := ftype f; required := required f;
     readonly := readonly f; info := info f; options := options f;
     note := note f; origin_task := origin_task f;
     origin_field := origin_field f; name_locked := name_locked f;
     name_lock_reason := name_lock_reason f;
     name_before_obj := name_before_obj f; name_before_origin := v;
     obj_type := obj_type f; cond := cond f |}.

Definition set_obj_type (v : string) (f : t) : t :=
  {| id := id f; name := name f; ftype := ftype f; required := required f;
     readonly := readonly f; info := info f; options := options f;
     note := note f; origin_task := origin_task f;
     origin_field := origin_field f; name_locked := name_locked f;
     name_lock_reason := name_lock_reason f;
     name_before_obj := name_before_obj f;
     name_before_origin := name_before_origin f; obj_type := v;
     cond := cond f |}.

Definition set_cond (v : list Condition.t) (f : t) : t :=
  {| id := id f; name := name f; ftype := ftype f; required := required f;
     readonly := readonly f; info := info f; options := options f;
     note := note f; origin_task := origin_task f;
     origin_field := origin_field f; name_locked := name_locked f;
     name_lock_reason := name_lock_reason f;
     name_before_obj := name_before_obj f;
     name_before_origin := name_before_origin f; obj_type := obj_type f;
     cond := v |}.

(** [Field(id=...)] with the defaults of the dataclass. *)
Definition new (uid : string) : t :=
  {| id := uid; name := "Novo campo"; ftype := "Texto"; required := false;
     readonly := false; info := ""; options := ""; note := "";
     origin_task := None; origin_field := None; name_locked := false;
     name_lock_reason := ""; name_before_obj := ""; name_before_origin := "";
     obj_type := ""; cond := [] |}.

End Field.

Module Task.

Record t : Type := mk {
  id : string;
  name : string;
  fields : list Field.t
}.

Definition set_fields (v : list Field.t) (x : t) : t :=
  {| id := id x; name := name x; fields := v |}.

Definition set_name (v : string) (x : t) : t :=
  {| id := id x; name := v; fields := fields x |}.

End Task.

Module ProjectModel.

(** [object_schema] lists the [ObjectFieldDef] objects by their address in
    the object store of the application state: they are edited in place and
    [to_dict] hands out their own dictionaries ([vars]). *)
Record t : Type := mk {
  flow_name : string;
  tasks : list Task.t;
  object_type : string;
  object_schema : list nat
}.

Definition set_tasks (v : list Task.t) (p : t) : t :=
  {| flow_name := flow_name p; tasks := v; object_type := object_type p;
     object_schema := object_schema p |}.

Definition set_object_type (v : string) (p : t) : t :=
  {| flow_name := flow_name p; tasks := tasks p; object_type := v;
     object_schema := object_schema p |}.

Definition set_object_schema (v : list nat) (p : t) : t :=
  {| flow_name := flow_name p; tasks := tasks p; object_type := object_type p;
     object_schema := v |}.


(** [ProjectModel()] as [new_flow_blank] builds it. *)
Definition blank : t :=
  {| flow_name := "Novo fluxo"; tasks := []; object_type := "";
     object_schema := [] |}.

(** All the fields of the project, task after task. *)
Definition all_fields (p : t) : list Field.t := flat_map Task.fields (tasks p).

End ProjectModel.

(** ** Application state and history *)

(** The dictionary [_serialize_project] builds. *)
Record StateDict : Type := mkStateDict {
  sd_project : ProjectModel.t;
  sd_current_task_id : option string;
  sd_selected_field_ids : list string
}.

(** What [_apply_project_dict] may be given: something that is not a
    dictionary, a dictionary with a "project" entry, or the dictionary of a
    project alone (a saved file). *)
Inductive SavedDict : Type :=
| NotADict
| Wrapped (state : StateDict)
| Bare (project_dict : ProjectModel.t).

(** The part of [App] the editing operations read and write. [objects] is
    the store of the [ObjectFieldDef] objects, addressed by position. *)
Record App : Type := mkApp {
  project : ProjectModel.t;
  current_task_id : option string;
  selected_field_ids : gset string;
  objects : list ObjectFieldDef.t;
  undo_stack : list StateDict;
  redo_stack : list StateDict
}.

Definition _UNDO_MAX : nat := 50.

Definition set_project (v : ProjectModel.t) (s : App) : App :=
  {| project := v; current_task_id := current_task_id s;
     selected_field_ids := selected_field_ids s; objects := objects s;
     undo_stack := undo_stack s; redo_stack := redo_stack s |}.

Definition set_current_task_id (v : option string) (s : App) : App :=
  {| project := project s; current_task_id := v;
     selected_field_ids := selected_field_ids s; objects := objects s;
     undo_stack := undo_stack s; redo_stack := redo_stack s |}.

Definition set_selected_field_ids (v : gset string) (s : App) : App :=
  {| project := project s; current_task_id := current_task_id s;
     selected_field_ids := v; objects := objects s;
     undo_stack := undo_stack s; redo_stack := redo_stack s |}.

Definition set_objects (v : list ObjectFieldDef.t) (s : App) : App :=
  {| project := project s; current_task_id := current_task_id s;
     selected_field_ids := selected_field_ids s; objects := v;
     undo_stack := undo_stack s; redo_stack := redo_stack s |}.

Definition set_undo_stack (v : list StateDict) (s : App) : App :=
  {| project := project s; current_task_id := current_task_id s;
     selected_field_ids := selected_field_ids s; objects := objects s;
     undo_stack := v; redo_stack := redo_stack s |}.

Definition set_redo_stack (v : list StateDict) (s : App) : App :=
  {| project := project s; current_task_id := current_task_id s;
     selected_field_ids := selected_field_ids s; objects := objects s;
     undo_stack := undo_stack s; redo_stack := v |}.

Definition set_tasks (v : list Task.t) (s : App) : App :=
  set_project (ProjectModel.set_tasks v (project s)) s.

(** The state [App.__init__] leaves. *)
Definition initial : App :=
  {| project := ProjectModel.blank; current_task_id := None;
     selected_field_ids := ∅; objects := [];
     undo_stack := []; redo_stack := [] |}.

(** Truth value of an optional string: [None] and the empty string are
    false. *)
Definition opt_truthy (o : option string) : bool :=
  match o with Some x => PyStr.truthy x | None => false end.

Definition opt_eqb (o : option string) (x : string) : bool :=
  match o with Some y => String.eqb y x | None => false end.

(** Position of the first item that satisfies [p]. *)
Fixpoint index_where {A} (p : A -> bool) (l : list A) : option nat :=
  match l with
  | [] => None
  | x :: l' => if p x then Some 0 else option_map S (index_where p l')
  end.

(** [ProjectModel.to_dict]: a new dictionary for every task, field and
    condition, each attribute under its own key; the object definitions are
    given as their own attribute dictionaries. *)
Definition condition_to_dict (c : Condition.t) : Condition.t :=
  Condition.mk (Condition.src_field c) (Condition.op c) (Condition.value c).

Definition field_to_dict (f : Field.t) : Field.t :=
  Field.mk (Field.id f) (Field.name f) (Field.ftype f) (Field.required f)
    (Field.readonly f) (Field.info f) (Field.options f) (Field.note f)
    (Field.origin_task f) (Field.origin_field f) (Field.name_locked f)
    (Field.name_lock_reason f) (Field.name_before_obj f)
    (Field.name_before_origin f) (Field.obj_type f)
    (map condition_to_dict (Field.cond f)).

Definition task_to_dict (x : Task.t) : Task.t :=
  Task.mk (Task.id x) (Task.name x) (map field_to_dict (Task.fields x)).

Definition to_dict (p : ProjectModel.t) : ProjectModel.t :=
  ProjectModel.mk (ProjectModel.flow_name p)
    (map task_to_dict (ProjectModel.tasks p))
    (ProjectModel.object_type p) (ProjectModel.object_schema p).

(** [ProjectModel.from_dict] on a dictionary that has every key: new tasks,
    fields and conditions with the values read back, and a new
    [ObjectFieldDef] for every dictionary of the schema that builds one. *)
Definition from_dict (store : list ObjectFieldDef.t) (d : ProjectModel.t)
  : list ObjectFieldDef.t * ProjectModel.t :=
  let built := omap (fun a => store !! a) (ProjectModel.object_schema d) in
  (store ++ built,
   ProjectModel.mk (ProjectModel.flow_name d)
     (map task_to_dict (ProjectModel.tasks d))
     (ProjectModel.object_type d)
     (seq (length store) (length built))).

(** [_get_task(task_id)]: the position of the task found, and the state,
    whose [current_task_id] is set when it was [None]. *)
Definition _get_task (task_id : option string) (s : App) : option nat * App :=
  let tid := if opt_truthy task_id then task_id else current_task_id s in
  match tid, ProjectModel.tasks (project s) with
  | None, t0 :: _ => (Some 0, set_current_task_id (Some (Task.id t0)) s)
  | None, [] => (None, s)
  | Some wanted, tasks =>
      (index_where (fun t => String.eqb (Task.id t) wanted) tasks, s)
  end.

(** [_refresh_task_combo], for what it does to the state: when no task is
    found to be the one shown, the first task, if any, becomes it. *)
Definition _refresh_task_combo (s : App) : App :=
  let '(current_task, s) := _get_task None s in
  match current_task with
  | Some _ => s
  | None =>
      set_current_task_id
        (option_map Task.id (head (ProjectModel.tasks (project s)))) s
  end.

Definition _serialize_project (s : App) : StateDict * App :=
  let '(current_task, s1) := _get_task None s in
  let current_task_id :=
    match current_task with
    | Some i => option_map Task.id (ProjectModel.tasks (project s1) !! i)
    | None => None
    end in
  ({| sd_project := to_dict (project s1);
      sd_current_task_id := current_task_id;
      sd_selected_field_ids := elements (selected_field_ids s1) |}, s1).

(** The adjustment of the "Objeto" fields at the end of a restore, in the
    order of the loops: the name the project has so far is threaded through
    the fields. *)
Definition force_object_name (object_type : string) (f : Field.t) : Field.t :=
  Field.set_name_locked true
    (Field.set_name_lock_reason "objeto"
       (Field.set_name object_type (Field.set_obj_type object_type f))).

Definition adjust_field (object_type : string) (f : Field.t) : string * Field.t :=
  if String.eqb (Field.ftype f) "Objeto" then
    let object_type :=
      if PyStr.truthy object_type then object_type
      else PyStr.or_else (Field.obj_type f) (Field.name f) in
    (object_type, force_object_name object_type f)
  else (object_type, f).

Fixpoint adjust_fields (object_type : string) (fs : list Field.t)
  : string * list Field.t :=
  match fs with
  | [] => (object_type, [])
  | f :: rest =>
      let '(ot1, f') := adjust_field object_type f in
      let '(ot2, rest') := adjust_fields ot1 rest in
      (ot2, f' :: rest')
  end.

Fixpoint adjust_tasks (object_type : string) (ts : list Task.t)
  : string * list Task.t :=
  match ts with
  | [] => (object_type, [])
  | t :: rest =>
      let '(ot1, fs') := adjust_fields object_type (Task.fields t) in
      let '(ot2, rest') := adjust_tasks ot1 rest in
      (ot2, Task.set_fields fs' t :: rest')
  end.

Definition adjust_project (p : ProjectModel.t) : ProjectModel.t :=
  let '(ot, ts) := adjust_tasks (ProjectModel.object_type p) (ProjectModel.tasks p) in
  ProjectModel.set_object_type ot (ProjectModel.set_tasks ts p).

Definition mem (x : string) (l : list string) : bool := existsb (String.eqb x) l.

Definition _apply_project_dict (d : SavedDict) (s : App) : bool * App :=
  match d with
  | NotADict => (false, s)
  | _ =>
      let '(project_dict, state_current_task, state_selection) :=
        match d with
        | Wrapped st =>
            (sd_project st,
             (if opt_truthy (sd_current_task_id st)
              then sd_current_task_id st else None),
             list_to_set (C := gset string) (sd_selected_field_ids st))
        | Bare p => (p, None, ∅)
        | NotADict => (ProjectModel.blank, None, ∅)
        end in
      let '(store, new_project) := from_dict (objects s) project_dict in
      let valid_ids := map Task.id (ProjectModel.tasks new_project) in
      let valid_field_ids :=
        list_to_set (C := gset string)
          (map Field.id (ProjectModel.all_fields new_project)) in
      let desired_task_id :=
        if opt_truthy state_current_task
           && match state_current_task with
              | Some x => mem x valid_ids | None => false end
        then state_current_task
        else if opt_truthy (current_task_id s)
                && match current_task_id s with
                   | Some x => mem x valid_ids | None => false end
        then current_task_id s
        else None in
      let current :=
        match desired_task_id with
        | Some x => Some x
        | None => option_map Task.id (head (ProjectModel.tasks new_project))
        end in
      (true,
       _refresh_task_combo
         {| project := adjust_project new_project;
            current_task_id := current;
            selected_field_ids :=
              filter (fun fid => fid ∈ valid_field_ids) state_selection;
            objects := store;
            undo_stack := undo_stack s;
            redo_stack := redo_stack s |})
  end.

(** [l.pop()]: the last item and the rest. *)
Definition pop {A} (l : list A) : option (A * list A) :=
  match rev l with
  | [] => None
  | x :: r => Some (x, rev r)
  end.

Definition _push_undo (s : App) : App :=
  let '(snapshot, s1) := _serialize_project s in
  let stack := undo_stack s1 ++ [snapshot] in
  let stack := if Nat.ltb _UNDO_MAX (length stack) then tail stack else stack in
  set_redo_stack [] (set_undo_stack stack s1).

Definition undo_action (s : App) : App :=
  match undo_stack s with
  | [] => s
  | _ =>
      let '(snapshot, s1) := _serialize_project s in
      let s2 := set_redo_stack (redo_stack s1 ++ [snapshot]) s1 in
      match pop (undo_stack s2) with
      | Some (state, rest) =>
          snd (_apply_project_dict (Wrapped state) (set_undo_stack rest s2))
      | None => s2
      end
  end.

Definition redo_action (s : App) : App :=
  match redo_stack s with
  | [] => s
  | _ =>
      let '(snapshot, s1) := _serialize_project s in
      let s2 := set_undo_stack (undo_stack s1 ++ [snapshot]) s1 in
      match pop (redo_stack s2) with
      | Some (state, rest) =>
          snd (_apply_project_dict (Wrapped state) (set_redo_stack rest s2))
      | None => s2
      end
  end.

(** ** Editing operations *)

(** How a handler ends: silently, after a message box, or with an exception
    that leaves the handler. *)
Inductive Outcome : Type :=
| Quiet
| Warned (title message : string)
| Raised (exception : string).

(** A [Field] object of the project is referred to by the position of its
    task and its position among the fields of that task. *)
Definition field_at (s : App) (ti fi : nat) : option Field.t :=
  match ProjectModel.tasks (project s) !! ti with
  | Some t => Task.fields t !! fi
  | None => None
  end.

Definition update_field (g : Field.t -> Field.t) (ti fi : nat) (s : App) : App :=
  set_tasks
    (alter (fun t => Task.set_fields (alter g fi (Task.fields t)) t) ti
       (ProjectModel.tasks (project s))) s.

(** The same assignment to every field of every task. *)
Definition map_fields (g : Field.t -> Field.t) (ts : list Task.t) : list Task.t :=
  map (fun t => Task.set_fields (map g (Task.fields t)) t) ts.

(** The four assignments that take the origin off a field: the name goes
    back to [name_before_origin] when the lock came from the origin and that
    name is not empty. *)
Definition clear_origin (f : Field.t) : Field.t :=
  let f :=
    if String.eqb (Field.name_lock_reason f) "origem"
       && PyStr.truthy (Field.name_before_origin f)
    then Field.set_name (Field.name_before_origin f) f else f in
  let f := Field.set_origin_field None (Field.set_origin_task None f) in
  let f :=
    Field.set_name_lock_reason
      (if String.eqb (Field.name_lock_reason f) "origem" then ""
       else Field.name_lock_reason f) f in
  Field.set_name_locked (negb (String.eqb (Field.name_lock_reason f) "")) f.

(** The body of the clean-up loops of [_delete_field] and [cleanup_refs]. *)
Definition unlink_deleted (deleted : string -> bool) (f : Field.t) : Field.t :=
  let f :=
    Field.set_cond
      (List.filter (fun c => negb (deleted (Condition.src_field c))) (Field.cond f))
      f in
  match Field.origin_field f with
  | Some o => if deleted o then clear_origin f else f
  | None => f
  end.

Definition _delete_field (field_id : string) (s : App) : Outcome * App :=
  match ProjectModel.tasks (project s) with
  | [] => (Quiet, s)
  | _ =>
      let s := _push_undo s in
      let '(current_task, s) := _get_task None s in
      let s :=
        set_tasks
          (map_fields (unlink_deleted (String.eqb field_id))
             (ProjectModel.tasks (project s))) s in
      match current_task with
      | None => (Raised "AttributeError", s)
      | Some i =>
          (Quiet,
           set_tasks
             (alter
                (fun t =>
                   Task.set_fields
                     (List.filter
                        (fun f => negb (String.eqb (Field.id f) field_id))
                        (Task.fields t)) t)
                i (ProjectModel.tasks (project s))) s)
      end
  end.

(** [cleanup_refs] of the task dialog. *)
Definition cleanup_refs (deleted_field_ids : gset string) (s : App) : App :=
  if bool_decide (deleted_field_ids = ∅) then s
  else
    set_tasks
      (map_fields (unlink_deleted (fun x => bool_decide (x ∈ deleted_field_ids)))
         (ProjectModel.tasks (project s))) s.

(** [delete_task] of the task dialog, for the task at position [ti];
    [confirmed] is the answer to the question it asks. *)
Definition delete_task (ti : nat) (confirmed : bool) (s : App) : App :=
  if negb confirmed then s
  else
    match ProjectModel.tasks (project s) !! ti with
    | None => s
    | Some t =>
        let s := _push_undo s in
        let deleted_ids :=
          list_to_set (C := gset string) (map Field.id (Task.fields t)) in
        let s := cleanup_refs deleted_ids s in
        let s :=
          set_tasks
            (List.filter (fun x => negb (String.eqb (Task.id x) (Task.id t)))
               (ProjectModel.tasks (project s))) s in
        _refresh_task_combo
          (if opt_eqb (current_task_id s) (Task.id t)
           then set_current_task_id
                  (option_map Task.id (head (ProjectModel.tasks (project s)))) s
           else s)
    end.

(** The assignments [ok] of the object type dialog makes. *)
Definition name_object_fields (name : string) (f : Field.t) : Field.t :=
  if String.eqb (Field.ftype f) "Objeto" then force_object_name name f else f.

(** [open_flow_object_type_dialog]: [attempts] are the texts in the entry
    each time OK is pressed; the window is closed after the last one. An
    empty name is refused and leaves the window open. *)
Fixpoint open_flow_object_type_dialog (attempts : list string) (s : App)
  : bool * App :=
  match attempts with
  | [] => (false, s)
  | text :: later =>
      let name := PyStr.strip text in
      if negb (PyStr.truthy name) then open_flow_object_type_dialog later s
      else
        let s := _push_undo s in
        let s := set_project (ProjectModel.set_object_type name (project s)) s in
        (true,
         set_tasks
           (map_fields (name_object_fields name) (ProjectModel.tasks (project s)))
           s)
  end.

Definition LIST_FIELD_TYPES : list string := ["Lista"; "Lista Vários"].

(** The three branches of [_on_change_type] that assign the type. *)
Definition become_object (object_type : string) (f : Field.t) : Field.t :=
  let f := Field.set_ftype "Objeto" f in
  let f :=
    if negb (String.eqb (Field.name_lock_reason f) "objeto")
    then Field.set_name_before_obj (Field.name f) f else f in
  let f := Field.set_name (PyStr.or_else object_type "Objeto") f in
  Field.set_obj_type object_type
    (Field.set_name_locked true (Field.set_name_lock_reason "objeto" f)).

Definition leave_object (new_type : string) (f : Field.t) : Field.t :=
  let f :=
    if String.eqb (Field.name_lock_reason f) "objeto"
       && PyStr.truthy (Field.name_before_obj f)
    then Field.set_name (Field.name_before_obj f) f else f in
  let f :=
    Field.set_name_lock_reason
      (if String.eqb (Field.name_lock_reason f) "objeto" then ""
       else Field.name_lock_reason f) f in
  let f :=
    Field.set_name_locked (negb (String.eqb (Field.name_lock_reason f) "")) f in
  Field.set_ftype new_type (Field.set_obj_type "" f).

(** The assignments after the branches. *)
Definition settle_type (new_type : string) (f : Field.t) : Field.t :=
  let f :=
    if String.eqb new_type "Informativo" then Field.set_readonly true f else f in
  if negb (mem new_type LIST_FIELD_TYPES) && negb (String.eqb new_type "Informativo")
  then Field.set_options "" f else f.

(** [_open_attachment_type_editor]: [edited] is the note the editor writes,
    [None] when it is cancelled. *)
Definition _open_attachment_type_editor (ti fi : nat) (edited : option string)
  (s : App) : App :=
  match edited with
  | None => s
  | Some note => update_field (Field.set_note note) ti fi (_push_undo s)
  end.

Definition finish_change_type (ti fi : nat) (prev new_type : string)
  (edited : option string) (s : App) : Outcome * App :=
  let s := update_field (settle_type new_type) ti fi s in
  let s :=
    if String.eqb new_type "Anexo" && negb (String.eqb prev "Anexo")
    then _open_attachment_type_editor ti fi edited s else s in
  (Quiet, s).

(** [f.origin_task or f.origin_field]. *)
Definition has_origin (f : Field.t) : bool :=
  opt_truthy (Field.origin_task f) || opt_truthy (Field.origin_field f).

(** [any(x.ftype == "Objeto" and x.id != f.id for x in t.fields)]. *)
Definition other_object_field (f : Field.t) (fields : list Field.t) : bool :=
  existsb
    (fun x => String.eqb (Field.ftype x) "Objeto"
              && negb (String.eqb (Field.id x) (Field.id f)))
    fields.

(** [_on_change_type(f, new_type)] for the field at [ti], [fi], with no
    edit pending in the row. [attempts] is what the user does in the object
    type dialog, [edited] in the attachment editor, should they open. *)
Definition _on_change_type (ti fi : nat) (new_type : string)
  (attempts : list string) (edited : option string) (s : App) : Outcome * App :=
  match field_at s ti fi with
  | None => (Quiet, s)
  | Some f =>
      let prev := Field.ftype f in
      if String.eqb new_type prev then (Quiet, s)
      else
        let s := _push_undo s in
        if String.eqb new_type "Objeto" then
          if has_origin f
          then (Warned "Objeto" "Campo Objeto não pode ter origem.", s)
          else
            let '(t, s) := _get_task None s in
            match t with
            | None => (Raised "AttributeError", s)
            | Some ci =>
                let shown :=
                  match ProjectModel.tasks (project s) !! ci with
                  | Some t => Task.fields t
                  | None => []
                  end in
                if other_object_field f shown
                then (Warned "Objeto" "Só 1 Objeto por tarefa.", s)
                else
                  let '(named, s) :=
                    if PyStr.truthy (ProjectModel.object_type (project s))
                    then (true, s)
                    else open_flow_object_type_dialog attempts s in
                  if negb named then (Quiet, s)
                  else
                    finish_change_type ti fi prev new_type edited
                      (update_field
                         (become_object (ProjectModel.object_type (project s)))
                         ti fi s)
            end
        else if String.eqb prev "Objeto" then
          finish_change_type ti fi prev new_type edited
            (update_field (leave_object new_type) ti fi s)
        else
          finish_change_type ti fi prev new_type edited
            (update_field (Field.set_ftype new_type) ti fi s)
  end.

(** What the user does in the origin dialog: OK with the task and field
    names picked and the two check boxes, the clear button, or closing. *)
Inductive PickerAction : Type :=
| PickOk (sel_t sel_f : string) (force_ro force_req : bool)
| PickClear
| PickClose.

Definition picker_clear (ti fi : nat) (s : App) : App :=
  update_field clear_origin ti fi (_push_undo s).

(** The assignments of [ok] once the origin field is found. *)
Definition link_origin (target_tid : string) (origin_field : Field.t)
  (force_ro force_req : bool) (f : Field.t) : Field.t :=
  let f := Field.set_origin_task (Some target_tid) f in
  let f := Field.set_origin_field (Some (Field.id origin_field)) f in
  let f :=
    if negb (String.eqb (Field.name_lock_reason f) "origem")
    then Field.set_name_before_origin (Field.name f) f else f in
  let f := Field.set_name (Field.name origin_field) f in
  let f := Field.set_ftype (Field.ftype origin_field) f in
  let f := Field.set_options (Field.options origin_field) f in
  let f := Field.set_name_locked true (Field.set_name_lock_reason "origem" f) in
  Field.set_required force_req (Field.set_readonly force_ro f).

(** [open_origin_picker(f)] for the field at [ti], [fi], followed by what
    the user does in the dialog. *)
Definition open_origin_picker (ti fi : nat) (action : PickerAction) (s : App)
  : Outcome * App :=
  match field_at s ti fi with
  | None => (Quiet, s)
  | Some f =>
      if String.eqb (Field.ftype f) "Objeto"
      then (Warned "Origem" "Campos do tipo Objeto não suportam origem.", s)
      else
        match action with
        | PickClose => (Quiet, s)
        | PickClear => (Quiet, picker_clear ti fi s)
        | PickOk sel_t sel_f force_ro force_req =>
            let target_tid :=
              option_map Task.id
                (find (fun t => String.eqb (Task.name t) sel_t)
                   (ProjectModel.tasks (project s))) in
            if negb (opt_truthy target_tid) || negb (PyStr.truthy sel_f)
               || String.eqb sel_f "-"
            then (Quiet, picker_clear ti fi s)
            else
              let '(t, s) := _get_task target_tid s in
              match t, target_tid with
              | Some oi, Some tid =>
                  let candidates :=
                    match ProjectModel.tasks (project s) !! oi with
                    | Some t => Task.fields t
                    | None => []
                    end in
                  match find (fun fld => String.eqb (Field.name fld) sel_f)
                             candidates with
                  | None => (Warned "Origem" "Campo de origem não encontrado.", s)
                  | Some origin_field =>
                      (Quiet,
                       update_field
                         (link_origin tid origin_field force_ro force_req)
                         ti fi (_push_undo s))
                  end
              | _, _ => (Quiet, s)
              end
        end
  end.

Definition _add_field (uid : string) (s : App) : Outcome * App :=
  match ProjectModel.tasks (project s) with
  | [] => (Quiet, s)
  | _ =>
      let s := _push_undo s in
      let '(t, s) := _get_task None s in
      match t with
      | None => (Raised "AttributeError", s)
      | Some i =>
          (Quiet,
           set_tasks
             (alter (fun t => Task.set_fields (Task.fields t ++ [Field.new uid]) t)
                i (ProjectModel.tasks (project s))) s)
      end
  end.

(** [add_task_from_entry] of the task dialog: [text] is what the entry
    holds, [uid] the identifier drawn for the task. *)
Definition add_task_from_entry (text uid : string) (s : App) : Outcome * App :=
  let name := PyStr.strip text in
  if negb (PyStr.truthy name)
  then (Warned "Nova Tarefa" "O nome da tarefa não pode ser vazio.", s)
  else
    let s := _push_undo s in
    let s :=
      set_tasks (ProjectModel.tasks (project s) ++ [Task.mk uid name []]) s in
    (Quiet,
     _refresh_task_combo
       (if opt_truthy (current_task_id s) then s
        else set_current_task_id (Some uid) s)).

#[global] Instance condition_eq_dec : EqDecision Condition.t.
Proof. solve_decision. Defined.

#[global] Instance field_eq_dec : EqDecision Field.t.
Proof. solve_decision. Defined.

(** [l.insert(i, x)]. *)
Definition list_insert_at {A} (i : nat) (x : A) (l : list A) : list A :=
  firstn i l ++ x :: skipn i l.

(** [_duplicate_field(field)] for the field at [ti], [fi]; [uid] is the
    identifier drawn for the copy. [list.index] finds the first field equal
    to it by value; were there none, the copy would go last. *)
Definition _duplicate_field (ti fi : nat) (uid : string) (s : App)
  : Outcome * App :=
  match field_at s ti fi with
  | None => (Quiet, s)
  | Some field =>
      let s := _push_undo s in
      let '(task, s) := _get_task None s in
      match task with
      | None => (Quiet, s)
      | Some ci =>
          let new_field :=
            {| Field.id := uid;
               Field.name := Field.name field +:+ " (Cópia)";
               Field.ftype := Field.ftype field;
               Field.required := Field.required field;
               Field.readonly := Field.readonly field;
               Field.info := Field.info field;
               Field.options := Field.options field;
               Field.note := Field.note field;
               Field.origin_task := None;
               Field.origin_field := None;
               Field.name_locked := Field.name_locked field;
               Field.name_lock_reason := Field.name_lock_reason field;
               Field.name_before_obj := "";
               Field.name_before_origin := "";
               Field.obj_type := Field.obj_type field;
               Field.cond := map condition_to_dict (Field.cond field) |} in
          (Quiet,
           set_tasks
             (alter
                (fun t =>
                   let original_index :=
                     match index_where (fun x => bool_decide (x = field))
                             (Task.fields t) with
                     | Some i => i
                     | None => length (Task.fields t) - 1
                     end in
                   Task.set_fields
                     (list_insert_at (original_index + 1) new_field (Task.fields t))
                     t)
                ci (ProjectModel.tasks (project s))) s)
      end
  end.

(** ** Statements about the reader *)

(** What one [.diag] entry adds to [diagrams_labels], from its own bytes
    alone. *)
Definition blob_labels (d : string) (b : option Blob) : list (string * string) :=
  match b with
  | Some NotZip => []
  | Some (InnerZip members) =>
      if negb (existsb (String.eqb "Diagram.xml") (namelist members)) then []
      else match zip_read members "Diagram.xml" with
           | Some (Parsed root) => [(d, diagram_label d root)]
           | _ => [(d, d)]
           end
  | _ => [(d, d)]
  end.

(** The entries in the order the loop meets them, before the sort. *)
Definition collected (z : Archive) : list (string * string) :=
  flat_map (fun d => blob_labels d (zip_read z d)) (diag_entries z).

(** An entry yields a usable diagram when its [Diagram.xml] parses. *)
Definition usable (z : Archive) (d : string) : Prop :=
  In d (diag_entries z) /\ exists root, open_diagram z d = Root root.

Definition label_le (a b : string * string) : Prop :=
  String.leb (snd a) (snd b) = true.

(** Sorted by label with ties put in the order of the entry names. *)
Definition label_then_name_le (a b : string * string) : Prop :=
  String.ltb (snd a) (snd b) = true
  \/ (snd a = snd b /\ String.leb (fst a) (fst b) = true).

Definition with_label (k : string) (e : string * string) : bool :=
  String.eqb (snd e) k.

(** Two archives used below. *)
Definition pool_doc (name : string) : Element :=
  Elem "{http://www.wfmc.org/2009/XPDL2.2}Package" []
    [Elem "{http://www.wfmc.org/2009/XPDL2.2}Pools" []
       [Elem "{http://www.wfmc.org/2009/XPDL2.2}Pool" [("Name", name)] []]].

(** A diagram with two pools, a task, a gateway and an end, and an archive
    that holds it beside a file that is no diagram. *)
Definition sample_doc : Element :=
  Elem "{http://www.wfmc.org/2009/XPDL2.2}Package" []
    [Elem "{http://www.wfmc.org/2009/XPDL2.2}Pools" []
       [Elem "{http://www.wfmc.org/2009/XPDL2.2}Pool"
          [("Name", "Processo  Principal")] [];
        Elem "{http://www.wfmc.org/2009/XPDL2.2}Pool" [("Name", " Compras ")] []];
     Elem "{http://www.wfmc.org/2009/XPDL2.2}Activities" []
       [Elem "{http://www.wfmc.org/2009/XPDL2.2}Activity"
          [("Id", "A"); ("Name", "Analisar")]
          [Elem "{http://www.wfmc.org/2009/XPDL2.2}Implementation" [] []];
        Elem "{http://www.wfmc.org/2009/XPDL2.2}Activity"
          [("Id", "G"); ("Name", "Aprovado?")]
          [Elem "{http://www.wfmc.org/2009/XPDL2.2}Route" [] []];
        Elem "{http://www.wfmc.org/2009/XPDL2.2}Activity" [("Id", "E")] []];
     Elem "{http://www.wfmc.org/2009/XPDL2.2}Transitions" []
       [Elem "{http://www.wfmc.org/2009/XPDL2.2}Transition"
          [("From", "A"); ("To", "G")] [];
        Elem "{http://www.wfmc.org/2009/XPDL2.2}Transition"
          [("From", "G"); ("To", "E"); ("Name", "Sim")] []]].

Definition sample_archive : Archive :=
  [("Compras.DIAG", InnerZip [("Diagram.xml", Parsed sample_doc)]);
   ("leiame.txt", NotZip)].

Definition tie_archive : Archive :=
  [("b.diag", InnerZip [("Diagram.xml", Parsed (pool_doc "Compras"))]);
   ("a.diag", InnerZip [("Diagram.xml", Parsed (pool_doc "Compras"))])].

Definition damaged_archive : Archive :=
  [("a.diag", NotZip);
   ("b.diag", InnerZip [("Leiame.txt", Broken)]);
   ("c.diag", InnerZip [("Diagram.xml", Parsed (pool_doc "Vendas"))])].

Definition unparsable_archive : Archive :=
  [("a.diag", InnerZip [("Diagram.xml", Broken)])].

Definition not_zip_archive : Archive := [("a.diag", NotZip)].

(** ** Statements about the decision fields *)






(** The diagram of the design note: tasks A and B, both implemented, lead
    to gateway G, which leaves by "Aprovado" and "Reprovado". *)
Definition approval_nodes : PyDict.t Node :=
  [("A", mkNode "A" "Analisar" "Task" true);
   ("B", mkNode "B" "Revisar" "Task" true);
   ("G", mkNode "G" "Pedido  aprovado?" "Route" false);
   ("X", mkNode "X" "Arquivar" "Task" true);
   ("Y", mkNode "Y" "Devolver" "Task" true)].

Definition approval_transitions : list Transition :=
  [mkTransition "A" "G" ""; mkTransition "B" "G" "";
   mkTransition "G" "X" "Aprovado"; mkTransition "G" "Y" "Reprovado"].



(** ** Statements about the history *)




(** States reached from the initial one: a task with one field; the field
    made the object "Contrato"; that field duplicated. *)
Definition one_field_state : App :=
  snd (_add_field "f1" (snd (add_task_from_entry "Cadastro" "t1" initial))).

Definition object_state : App :=
  snd (_on_change_type 0 0 "Objeto" ["Contrato"] None one_field_state).

Definition duplicated_state : App :=
  snd (_duplicate_field 0 0 "f2" object_state).

Definition names_and_types (s : App) : list (string * string) :=
  map (fun f => (Field.name f, Field.ftype f)) (ProjectModel.all_fields (project s)).


(** The project a dictionary holds. *)
Definition dict_project (d : SavedDict) : option ProjectModel.t :=
  match d with
  | NotADict => None
  | Wrapped st => Some (sd_project st)
  | Bare p => Some p
  end.


(** [s'] is a state whose undo stack has, on top, a snapshot taken of the
    project of [s]: what an operation leaves that calls [_push_undo] on [s]
    and then changes the model. *)
Definition recorded (s s' : App) : Prop :=
  exists snapshot rest,
    pop (undo_stack s') = Some (snapshot, rest)
    /\ sd_project snapshot = to_dict (project s).

(** [ok] of the editor of an object definition: [ref] is the address of the
    definition edited in place, [None] for a new one. *)
Definition edit_object_field (ref : option nat) (name ftype options : string)
  (required readonly : bool) (note : string) (s : App) : Outcome * App :=
  let s := _push_undo s in
  let name := PyStr.strip name in
  if negb (PyStr.truthy name)
  then (Warned "Objeto" "Informe o nome do campo.", s)
  else
    match ref with
    | None =>
        let schema := ProjectModel.object_schema (project s) in
        let made :=
          ObjectFieldDef.mk name (PyStr.strip ftype) (PyStr.strip options)
            required readonly "" (length schema) (PyStr.strip note) in
        (Quiet,
         set_project
           (ProjectModel.set_object_schema (schema ++ [length (objects s)])
              (project s))
           (set_objects (objects s ++ [made]) s))
    | Some a =>
        (Quiet,
         set_objects
           (alter
              (fun o =>
                 ObjectFieldDef.mk name (PyStr.strip ftype) (PyStr.strip options)
                   required readonly (ObjectFieldDef.group o)
                   (ObjectFieldDef.order o) (PyStr.strip note))
              a (objects s)) s)
    end.

(** The names of the object definitions of the project. *)
Definition schema_names (s : App) : list string :=
  omap (fun a => option_map ObjectFieldDef.name (objects s !! a))
    (ProjectModel.object_schema (project s)).

Definition schema_state : App :=
  snd (edit_object_field None "Valor" "Numérico" "" false true "" object_state).

Definition schema_edited_state : App :=
  snd (edit_object_field (Some 0) "Montante" "Numérico" "" false true "" schema_state).

(** The part of [_commit_row_data] that commits the name entry of the row
    of the field at [ti], [fi]: [typed] is the text of the entry,
    [ensure_undo] tells whether the caller passed the callback that records
    the state. *)
Definition _commit_row_data (ti fi : nat) (typed : string) (ensure_undo : bool)
  (s : App) : App :=
  match field_at s ti fi with
  | None => s
  | Some f =>
      let '(t, s) := _get_task None s in
      match t with
      | None => s
      | Some ci =>
          let shown :=
            match ProjectModel.tasks (project s) !! ci with
            | Some t => Task.fields t
            | None => []
            end in
          match index_where (fun x => String.eqb (Field.id x) (Field.id f)) shown with
          | None => s
          | Some _ =>
              if Field.name_locked f || String.eqb typed (Field.name f) then s
              else
                let s := if ensure_undo then _push_undo s else s in
                let s := update_field (Field.set_name typed) ti fi s in
                set_tasks
                  (map_fields
                     (fun fld =>
                        if opt_eqb (Field.origin_field fld) (Field.id f)
                           && String.eqb (Field.name_lock_reason fld) "origem"
                        then Field.set_name typed fld else fld)
                     (ProjectModel.tasks (project s))) s
          end
      end
  end.

(** ** Statements about deleting *)

(** What deleting the field [fid] makes of a field [f] that stays, [f']
    being the field afterwards. No rule of [f'] has [fid] as its source and
    the origin of [f'] is not [fid]. If the origin of [f] was [fid], the
    link is gone; a name locked for the origin is unlocked and goes back to
    [name_before_origin] when that is not empty; a name locked for another
    reason stays as it is. *)
Definition after_delete (fid : string) (f f' : Field.t) : Prop :=
  Field.id f' = Field.id f
  /\ Field.ftype f' = Field.ftype f
  /\ (forall c, In c (Field.cond f') ->
                In c (Field.cond f) /\ Condition.src_field c <> fid)
  /\ Field.origin_field f' <> Some fid
  /\ (Field.origin_field f = Some fid ->
      Field.origin_task f' = None /\ Field.origin_field f' = None
      /\ if String.eqb (Field.name_lock_reason f) "origem"
         then Field.name_lock_reason f' = "" /\ Field.name_locked f' = false
              /\ Field.name f'
                 = (if PyStr.truthy (Field.name_before_origin f)
                    then Field.name_before_origin f else Field.name f)
         else Field.name_lock_reason f' = Field.name_lock_reason f
              /\ Field.name_locked f'
                 = negb (String.eqb (Field.name_lock_reason f) "")
              /\ Field.name f' = Field.name f).

(** The project after the deletion of [fid]: every field that is left
    comes from a field of the project before, as [after_delete] says. *)
Definition references_cleared (fid : string) (before after : ProjectModel.t) : Prop :=
  forall f', In f' (ProjectModel.all_fields after) ->
    exists f, In f (ProjectModel.all_fields before) /\ after_delete fid f f'.

(** States reached from the initial one: a task with the fields "a" and
    "b"; the name of "b" changed in its row; "b" given "a" as origin. *)
Definition two_fields_state : App :=
  snd (_add_field "b" (snd (_add_field "a"
         (snd (add_task_from_entry "Cadastro" "t1" initial))))).

Definition linked_state (typed : string) : App :=
  snd (open_origin_picker 0 1 (PickOk "Cadastro" "Novo campo" true false)
         (_commit_row_data 0 1 typed true two_fields_state)).

Definition names_and_locks (s : App)
  : list (string * string * option string * string * bool) :=
  map (fun f => (Field.id f, Field.name f, Field.origin_field f,
                 Field.name_lock_reason f, Field.name_locked f))
    (ProjectModel.all_fields (project s)).

(** ** Statements about the type and the origin of a field *)



(** The refusals of [open_origin_picker]. *)
Definition TargetIsObject : Outcome :=
  Warned "Origem" "Campos do tipo Objeto não suportam origem.".

Definition OriginNotFound : Outcome :=
  Warned "Origem" "Campo de origem não encontrado.".






(** A task with the object "Contrato" and a plain field, and the plain
    field given the object as its origin. *)
Definition object_and_field_state : App :=
  snd (_on_change_type 0 0 "Objeto" ["Contrato"] None two_fields_state).

Definition object_as_origin_state : App :=
  snd (open_origin_picker 0 1 (PickOk "Cadastro" "Contrato" true false)
         object_and_field_state).

Definition types_and_origins (s : App)
  : list (string * string * string * option string * string) :=
  map (fun f => (Field.id f, Field.name f, Field.ftype f, Field.origin_field f,
                 Field.name_lock_reason f))
    (ProjectModel.all_fields (project s)).


(** * Further operations of the designer *)

(** ** The bound of the history *)

(** The two history stacks hold no more snapshots than [_UNDO_MAX]. *)
Definition history_bounded (s : App) : Prop :=
  length (undo_stack s) + length (redo_stack s) <= _UNDO_MAX.

(** ** Reordering fields and tasks *)

(** What a handler shows or lets escape: a message box of one of the three
    kinds, or an exception that leaves the handler. *)
Inductive Report : Type :=
| Info (title message : string)
| Warning (title message : string)
| Error (title message : string)
| Exception (name : string).

(** [l[i], l[j] = l[j], l[i]] for two positions of the list. *)
Definition swap {A} (i j : nat) (l : list A) : list A :=
  match l !! i, l !! j with
  | Some x, Some y => <[j := x]> (<[i := y]> l)
  | _, _ => l
  end.

(** The fields of the task [_get_task()] finds in [s]. *)
Definition shown_fields (s : App) : list Field.t :=
  match fst (_get_task None s) with
  | Some ci =>
      match ProjectModel.tasks (project s) !! ci with
      | Some t => Task.fields t
      | None => []
      end
  | None => []
  end.

(** [_move_field(field_id, delta)]. *)
Definition _move_field (field_id : string) (delta : Z) (s : App) : App :=
  let '(task, s) := _get_task None s in
  match task with
  | None => s
  | Some ci =>
      let fields :=
        match ProjectModel.tasks (project s) !! ci with
        | Some t => Task.fields t
        | None => []
        end in
      match index_where (fun f => String.eqb (Field.id f) field_id) fields with
      | None => s
      | Some idx =>
          let new_idx := (Z.of_nat idx + delta)%Z in
          if ((0 <=? new_idx) && (new_idx <? Z.of_nat (length fields)))%Z then
            let s := _push_undo s in
            set_tasks
              (alter
                 (fun t =>
                    Task.set_fields (swap idx (Z.to_nat new_idx) (Task.fields t)) t)
                 ci (ProjectModel.tasks (project s))) s
          else s
      end
  end.





(** [rename_task(t)] of the task dialog: [answer] is the text the prompt
    returns, [None] when it is cancelled. *)
Definition rename_task (ti : nat) (answer : option string) (s : App) : App :=
  match answer with
  | None => s
  | Some new =>
      let s := _push_undo s in
      _refresh_task_combo
        (set_tasks
           (alter (Task.set_name new) ti (ProjectModel.tasks (project s))) s)
  end.



(** [delete_selected_fields], with no edit pending in a row; [confirmed] is
    the answer to the question it asks. *)
Definition delete_selected_fields (confirmed : bool) (s : App)
  : option Report * App :=
  if bool_decide (selected_field_ids s = ∅)
  then (Some (Info "Excluir" "Nenhum campo selecionado."), s)
  else if negb confirmed then (None, s)
  else
    let s := _push_undo s in
    let '(t, s) := _get_task None s in
    let to_del := selected_field_ids s in
    let s :=
      set_tasks
        (map_fields (unlink_deleted (fun x => bool_decide (x ∈ to_del)))
           (ProjectModel.tasks (project s))) s in
    match t with
    | None => (Some (Exception "AttributeError"), s)
    | Some i =>
        (None,
         set_selected_field_ids ∅
           (set_tasks
              (alter
                 (fun t =>
                    Task.set_fields
                      (List.filter
                         (fun f => negb (bool_decide (Field.id f ∈ to_del)))
                         (Task.fields t)) t)
                 i (ProjectModel.tasks (project s))) s))
    end.

(** ** Geometry of windows and of the table *)

(** [_clamp_to_bounds(x, y, width, height, bounds)], [bounds] being
    [(left, top, right, bottom)]. *)
Definition _clamp_to_bounds (x y width height : Z) (bounds : Z * Z * Z * Z)
  : Z * Z :=
  let '(left', top', right', bottom') := bounds in
  let max_x := Z.max left' (right' - width) in
  let max_y := Z.max top' (bottom' - height) in
  let clamped_x := Z.min (Z.max x left') max_x in
  let clamped_y := Z.min (Z.max y top') max_y in
  (clamped_x, clamped_y).

(** A column of the table: its key, its label and its width. *)
Definition Column : Type := string * string * Z.

Definition DEFAULT_COLS : list Column :=
  [("move", " ", 60); ("sel", "Sel.", 48); ("campo", "Campo", 260);
   ("tipo", "Tipo", 160); ("origem", "Origem", 240);
   ("regras", "Regras (quando aparece)", 300); ("obrig", "Obrigatório", 120);
   ("soleit", "Só leitura", 120); ("opts", "Subtipo/Opções", 260);
   ("obs", "Observações", 260); ("del", "x", 44)]%Z.

Definition MIN_W : PyDict.t Z :=
  [("move", 60); ("sel", 44); ("campo", 160); ("tipo", 120); ("origem", 160);
   ("regras", 180); ("obrig", 90); ("soleit", 90); ("opts", 180);
   ("obs", 160); ("del", 40)]%Z.

(** [max(MIN_W.get(key, 60), int(w))]. *)
Definition col_width (key : string) (w : Z) : Z :=
  Z.max (PyDict.get_default MIN_W key 60%Z) w.

(** [cols_override or self.cols]: an override that is [None] or empty
    gives way to the columns of the window. *)
Definition cols_or (cols_override : option (list Column)) (cols : list Column)
  : list Column :=
  match cols_override with
  | Some (c :: l) => c :: l
  | _ => cols
  end.

(** The loop of [_col_positions], from the abscissa [x]. *)
Fixpoint positions_from (x gap : Z) (cols : list Column)
  : list (string * Z * Z) :=
  match cols with
  | [] => []
  | (key, _, w) :: rest =>
      let w := col_width key w in
      (key, x, w) :: positions_from (x + w + gap) gap rest
  end.

Definition _col_positions (cols_override : option (list Column))
  (cols : list Column) (col_gap : Z) : list (string * Z * Z) :=
  positions_from 0 col_gap (cols_or cols_override cols).

Definition _total_table_width (cols_override : option (list Column))
  (cols : list Column) (col_gap : Z) : Z :=
  let cols := cols_or cols_override cols in
  (fold_left Z.add (map (fun c => col_width (fst (fst c)) (snd c)) cols) 0
   + Z.max 0 (Z.of_nat (length cols) - 1) * col_gap)%Z.

(** ** Sorting with a key *)

Section SortBy.

Context {A K : Type}.
Variable key : A -> K.
Variable before : K -> K -> bool.

(** [list.sort(key=key)], which is stable: scanning from the right end, an
    item goes after the items whose key is strictly [before] its own and in
    front of the others. With [before] the reverse of the order this is
    [list.sort(key=key, reverse=True)], which keeps the items of equal key
    in their order too. *)
Fixpoint insert_by (x : A) (l : list A) : list A :=
  match l with
  | [] => [x]
  | h :: t => if before (key h) (key x) then h :: insert_by x t else x :: l
  end.

Definition sort_by (l : list A) : list A := fold_right insert_by [] l.

(** [a] may stand in front of [b] in the sorted list: [b] is not strictly
    before [a]. *)
Definition not_after (a b : A) : Prop := before (key b) (key a) = false.

End SortBy.

(** [str(n)] and [f"{n}"] for a natural number. *)
Definition str_of_nat (n : nat) : string :=
  NilEmpty.string_of_uint (Nat.to_uint n).

(** ** The library of templates *)

Module TemplateStore.

Section Store.

(** The dictionary [ProjectModel.to_dict] makes of a project, which the
    library stores without looking into it. *)
Variable P : Type.

(** An entry of the library, with the keys [save_template] writes. *)
Record Template : Type := mkTemplate {
  tpl_id : string;
  tpl_name : string;
  tpl_created_at : string;
  tpl_updated_at : string;
  tpl_project : P
}.

(** The file of the library: absent, not readable as JSON, or holding the
    list "templates". *)
Inductive TemplateFile : Type :=
| NoFile
| BadFile
| Holding (templates : list Template).

Definition _ensure_file (file : TemplateFile) : TemplateFile :=
  match file with
  | NoFile => Holding []
  | _ => file
  end.

(** [_read()] followed by [data.get("templates", [])]. *)
Definition _read (file : TemplateFile) : list Template :=
  match file with
  | Holding items => items
  | _ => []
  end.

Definition _write (items : list Template) : TemplateFile := Holding items.

Definition list_all (file : TemplateFile) : list Template :=
  sort_by tpl_updated_at (fun a b => String.ltb b a) (_read file).

(** The loop of [save_template] that looks for a free name
    ["base (n)"]; it is entered with [n = 2], and [fuel] bounds the number
    of names it tries after the first. *)
Fixpoint copy_name (fuel : nat) (base : string) (n : nat)
  (items : list Template) : string :=
  let new_name := base +:+ " (" +:+ str_of_nat n +:+ ")" in
  match fuel with
  | O => new_name
  | S fuel' =>
      if existsb (fun t => String.eqb (tpl_name t) new_name) items
      then copy_name fuel' base (S n) items
      else new_name
  end.

Fixpoint replace_first (name : string) (project : P) (now : string)
  (items : list Template) : list Template :=
  match items with
  | [] => []
  | t :: rest =>
      if String.eqb (tpl_name t) name
      then mkTemplate (tpl_id t) (tpl_name t) (tpl_created_at t) now project
           :: rest
      else t :: replace_first name project now rest
  end.

(** [save_template(name, project, replace, create_copy_if_exists)]; [now]
    is what [_now_iso()] returns and [uid] what [_uid()] draws. *)
Definition save_template (name : string) (project : P)
  (replace create_copy_if_exists : bool) (now uid : string)
  (file : TemplateFile) : Template * TemplateFile :=
  let items := _read file in
  match find (fun t => String.eqb (tpl_name t) name) items with
  | Some existing =>
      if replace
      then (mkTemplate (tpl_id existing) (tpl_name existing)
              (tpl_created_at existing) now project,
            _write (replace_first name project now items))
      else
        let name :=
          if create_copy_if_exists
          then copy_name (length items) name 2 items
          else name in
        let entry := mkTemplate uid name now now project in
        (entry, _write (items ++ [entry]))
  | None =>
      let entry := mkTemplate uid name now now project in
      (entry, _write (items ++ [entry]))
  end.

Fixpoint rename_first (tmpl_id new_name now : string) (items : list Template)
  : option (list Template) :=
  match items with
  | [] => None
  | t :: rest =>
      if String.eqb (tpl_id t) tmpl_id
      then Some (mkTemplate (tpl_id t) new_name (tpl_created_at t) now
                   (tpl_project t) :: rest)
      else option_map (cons t) (rename_first tmpl_id new_name now rest)
  end.

(** [rename(tmpl_id, new_name)]. *)
Definition rename (tmpl_id new_name now : string) (file : TemplateFile)
  : bool * TemplateFile :=
  let items := _read file in
  if existsb
       (fun t => String.eqb (tpl_name t) new_name
                 && negb (String.eqb (tpl_id t) tmpl_id)) items
  then (false, file)
  else
    match rename_first tmpl_id new_name now items with
    | Some items' => (true, _write items')
    | None => (false, file)
    end.

(** [delete(tmpl_id)]. *)
Definition delete (tmpl_id : string) (file : TemplateFile)
  : bool * TemplateFile :=
  let items := _read file in
  let n := length items in
  let items :=
    List.filter (fun t => negb (String.eqb (tpl_id t) tmpl_id)) items in
  if Nat.eqb (length items) n then (false, file)
  else (true, _write items).

(** [get(tmpl_id)]. *)
Definition get (tmpl_id : string) (file : TemplateFile) : option Template :=
  find (fun t => String.eqb (tpl_id t) tmpl_id) (_read file).

(** [save_flow_as_template]: [answer] is the name the prompt returns,
    [rep] the answer to the question whether to replace, [project] the
    dictionary of the project of the window. *)
Definition save_flow_as_template (answer : option string) (rep : bool)
  (project : P) (now uid : string) (file : TemplateFile)
  : option Report * TemplateFile :=
  match answer with
  | None => (None, file)
  | Some name =>
      let file :=
        match find (fun x => String.eqb (tpl_name x) name) (list_all file) with
        | Some _ =>
            if rep then snd (save_template name project true false now uid file)
            else snd (save_template name project false true now uid file)
        | None => snd (save_template name project false false now uid file)
        end in
      (Some (Info "Templates" "Template salvo."), file)
  end.

End Store.

Arguments NoFile {P}.
Arguments BadFile {P}.
Arguments Holding {P} templates.
Arguments mkTemplate {P}.
Arguments tpl_id {P}.
Arguments tpl_name {P}.
Arguments tpl_created_at {P}.
Arguments tpl_updated_at {P}.
Arguments tpl_project {P}.
Arguments _ensure_file {P}.
Arguments _read {P}.
Arguments _write {P}.
Arguments list_all {P}.
Arguments copy_name {P}.
Arguments replace_first {P}.
Arguments save_template {P}.
Arguments rename_first {P}.
Arguments rename {P}.
Arguments delete {P}.
Arguments get {P}.
Arguments save_flow_as_template {P}.

End TemplateStore.

(** The library is well kept when no two entries share a name and no two
    share an identifier. *)
Definition well_kept {P} (file : TemplateStore.TemplateFile P) : Prop :=
  List.NoDup (map TemplateStore.tpl_name (TemplateStore._read file))
  /\ List.NoDup (map TemplateStore.tpl_id (TemplateStore._read file)).

Definition template_ids {P} (file : TemplateStore.TemplateFile P) : list string :=
  map TemplateStore.tpl_id (TemplateStore._read file).

(** A library of two entries, the projects being their names. *)
Definition two_templates : TemplateStore.TemplateFile string :=
  TemplateStore.Holding
    [TemplateStore.mkTemplate "u1" "Cadastro" "2024-01-01T00:00:00Z"
       "2024-01-01T00:00:00Z" "p1";
     TemplateStore.mkTemplate "u2" "Cadastro (2)" "2024-01-02T00:00:00Z"
       "2024-03-01T00:00:00Z" "p2"].

(** ** The validator *)

(** [sub in s] for two texts. *)
Fixpoint str_contains (sub s : string) : bool :=
  String.prefix sub s
  || match s with
     | EmptyString => false
     | String _ s' => str_contains sub s'
     end.

(** An entry of the list [_run_validation] returns. *)
Record Issue : Type := mkIssue {
  issue_task : Task.t;
  issue_field : Field.t;
  issue_code : string;
  issue_message : string
}.

(** The checks of one field, in the order of the loop body; [all_fields]
    holds the identifiers of the fields of the project and
    [field_names_in_task] the names of the fields of the task met so
    far. *)
Definition field_issues (all_fields : list string) (task : Task.t)
  (field_names_in_task : list string) (field : Field.t) : list Issue :=
  let issue := mkIssue task field in
  let no_origin := negb (opt_truthy (Field.origin_field field)) in
  (if negb (Field.required field) && negb (Field.readonly field)
   then [issue "OPT_EDIT"
           "O campo é opcional e editável. É a configuração desejada?"]
   else [])
  ++ (if Field.required field && Field.readonly field && no_origin
      then [issue "REQ_RO"
              "O campo é obrigatório e 'Só Leitura', mas não tem origem. O usuário não poderá preenchê-lo."]
      else [])
  ++ (if mem (Field.ftype field) LIST_FIELD_TYPES
         && negb (PyStr.truthy (PyStr.strip (Field.options field)))
         && no_origin
      then [issue "LIST_NO_OPTS"
              ("O campo é do tipo '" +:+ Field.ftype field
               +:+ "', mas não tem opções definidas.")]
      else [])
  ++ (if String.eqb (Field.ftype field) "Informativo"
         && negb (PyStr.truthy (PyStr.strip (Field.options field)))
      then [issue "INFO_NO_TEXT"
              "O campo é 'Informativo', mas não tem texto para exibir."]
      else [])
  ++ (if String.eqb (Field.ftype field) "Anexo"
         && negb (str_contains "[Tipo de Doc.:" (Field.note field))
      then [issue "ANX_NO_TYPE"
              "Sugestão: defina os tipos de documento para este anexo."]
      else [])
  ++ (if String.eqb (PyStr.lower (PyStr.strip (Field.name field))) "novo campo"
         || negb (PyStr.truthy (PyStr.strip (Field.name field)))
      then [issue "NO_NAME" "O campo não tem um nome definido."]
      else [])
  ++ (if mem (Field.name field) field_names_in_task
      then [issue "DUP_NAME"
              "Existe mais de um campo com este nome na mesma tarefa."]
      else [])
  ++ (match Field.origin_field field with
      | Some o =>
          if PyStr.truthy o && negb (mem o all_fields)
          then [issue "BAD_ORIGIN"
                  "A origem deste campo aponta para um campo que foi excluído."]
          else []
      | None => []
      end)
  ++ (if existsb (fun cond => negb (mem (Condition.src_field cond) all_fields))
           (Field.cond field)
      then [issue "BAD_RULE"
              "Uma regra de visibilidade depende de um campo que foi excluído."]
      else []).

(** The loop over the fields of a task. *)
Fixpoint task_issues (all_fields : list string) (task : Task.t)
  (field_names_in_task : list string) (fields : list Field.t) : list Issue :=
  match fields with
  | [] => []
  | field :: rest =>
      field_issues all_fields task field_names_in_task field
      ++ task_issues all_fields task (Field.name field :: field_names_in_task)
           rest
  end.

(** [_run_validation], on the project of the window. *)
Definition _run_validation (p : ProjectModel.t) : list Issue :=
  let all_fields := map Field.id (ProjectModel.all_fields p) in
  let issues :=
    flat_map (fun task => task_issues all_fields task [] (Task.fields task))
      (ProjectModel.tasks p) in
  let has_obj_field :=
    existsb (fun f => String.eqb (Field.ftype f) "Objeto")
      (ProjectModel.all_fields p) in
  if has_obj_field && negb (PyStr.truthy (ProjectModel.object_type p))
  then
    let pseudo_task :=
      match ProjectModel.tasks p with
      | t0 :: _ => t0
      | [] => Task.mk "" "N/A" []
      end in
    issues
    ++ [mkIssue pseudo_task (Field.new "") "OBJ_NO_TYPE"
          "Existem campos 'Objeto', mas o tipo de objeto do fluxo não foi definido."]
  else issues.

(** The codes of the issues found. *)
Definition issue_codes (p : ProjectModel.t) : list string :=
  map issue_code (_run_validation p).

(** Every origin that is not empty and every source of a rule is the
    identifier of a field of the project. *)
Definition references_resolve (p : ProjectModel.t) : Prop :=
  forall f, In f (ProjectModel.all_fields p) ->
    (forall o, Field.origin_field f = Some o -> o <> "" ->
               In o (map Field.id (ProjectModel.all_fields p)))
    /\ (forall c, In c (Field.cond f) ->
                  In (Condition.src_field c)
                     (map Field.id (ProjectModel.all_fields p))).

(** The validator finds no lost origin and no lost rule source. *)
Definition no_dangling (p : ProjectModel.t) : Prop :=
  ~ In "BAD_ORIGIN" (issue_codes p) /\ ~ In "BAD_RULE" (issue_codes p).

(** ** The simulator *)

(** An answer given in the simulator: the option chosen in a list, or the
    options chosen in a list of several. *)
Inductive Answer : Type :=
| One (value : string)
| Several (values : list string).

(** Whether the answer [val] meets the value of a rule. *)
Definition answer_matches (val : Answer) (value : string) : bool :=
  match val with
  | One v => String.eqb v value
  | Several vs => mem value vs
  end.

(** The loop of [_is_visible] over the rules. *)
Fixpoint some_rule_met (answers : PyDict.t Answer) (conds : list Condition.t)
  : bool :=
  match conds with
  | [] => false
  | c :: rest =>
      match PyDict.get answers (Condition.src_field c) with
      | Some val =>
          if String.eqb (Condition.op c) "==" && answer_matches val (Condition.value c)
          then true
          else some_rule_met answers rest
      | None => some_rule_met answers rest
      end
  end.

(** [SimWindow._is_visible(f)]. *)
Definition _is_visible (answers : PyDict.t Answer) (f : Field.t) : bool :=
  match Field.cond f with
  | [] => true
  | conds => some_rule_met answers conds
  end.

(** [SimWindow._collect_controller_fields()]. *)
Definition _collect_controller_fields (p : ProjectModel.t) : gset string :=
  list_to_set
    (List.filter PyStr.truthy
       (map Condition.src_field
          (flat_map Field.cond (ProjectModel.all_fields p)))).

(** [SimWindow._maybe_rerender(field_id)]: whether the task is drawn
    again. *)
Definition _maybe_rerender (p : ProjectModel.t) (field_id : option string) : bool :=
  match field_id with
  | Some k => PyStr.truthy k && bool_decide (k ∈ _collect_controller_fields p)
  | None => false
  end.

(** The fields of the task at [task_idx] that [_render] shows. *)
Definition visible_fields (p : ProjectModel.t) (answers : PyDict.t Answer)
  (task_idx : nat) : list Field.t :=
  match ProjectModel.tasks p !! task_idx with
  | Some task => List.filter (_is_visible answers) (Task.fields task)
  | None => []
  end.

(** A project of one task in which the field "b" is shown when "a" is
    answered "Sim", and "c" always. *)
Definition ruled_project : ProjectModel.t :=
  ProjectModel.set_tasks
    [Task.mk "t1" "Cadastro"
       [Field.new "a";
        Field.set_cond [Condition.mk "a" "==" "Sim"] (Field.new "b");
        Field.new "c"]]
    ProjectModel.blank.

(** ** The window of the importer *)

Module Importer.

(** The dictionary [confirm_selection] leaves in [result]. *)
Record Result : Type := mkResult {
  res_tasks : list Node;
  res_fields_by_task : PyDict.t (list FieldData);
  res_diagram_id : option string;
  res_diagram_label : string
}.

(** The attributes of [BPMNImporterWindow] the handlers below read and
    write; [diag_combobox] is the text the combo box shows. The task
    dictionaries of [current_tasks] are those of the nodes of the diagram;
    no handler below changes one. *)
Record t : Type := mk {
  diagram_list : list (string * string);
  diagrams_data : PyDict.t (PyDict.t Node * list Transition);
  diag_combobox : string;
  current_diagram_id : option string;
  current_diagram_label : string;
  current_tasks : list Node;
  current_fields_by_task : PyDict.t (list FieldData);
  original_task_order : list string;
  selected_task_ids : gset string;
  selected_field_ids : gset string;
  result : option Result
}.

(** The window [__init__] leaves. *)
Definition new : t :=
  {| diagram_list := []; diagrams_data := []; diag_combobox := "";
     current_diagram_id := None; current_diagram_label := "";
     current_tasks := []; current_fields_by_task := [];
     original_task_order := []; selected_task_ids := ∅;
     selected_field_ids := ∅; result := None |}.

Definition set_current_tasks (v : list Node) (w : t) : t :=
  {| diagram_list := diagram_list w; diagrams_data := diagrams_data w;
     diag_combobox := diag_combobox w;
     current_diagram_id := current_diagram_id w;
     current_diagram_label := current_diagram_label w;
     current_tasks := v;
     current_fields_by_task := current_fields_by_task w;
     original_task_order := original_task_order w;
     selected_task_ids := selected_task_ids w;
     selected_field_ids := selected_field_ids w; result := result w |}.

Definition set_selected_task_ids (v : gset string) (w : t) : t :=
  {| diagram_list := diagram_list w; diagrams_data := diagrams_data w;
     diag_combobox := diag_combobox w;
     current_diagram_id := current_diagram_id w;
     current_diagram_label := current_diagram_label w;
     current_tasks := current_tasks w;
     current_fields_by_task := current_fields_by_task w;
     original_task_order := original_task_order w;
     selected_task_ids := v;
     selected_field_ids := selected_field_ids w; result := result w |}.

Definition set_selected_field_ids (v : gset string) (w : t) : t :=
  {| diagram_list := diagram_list w; diagrams_data := diagrams_data w;
     diag_combobox := diag_combobox w;
     current_diagram_id := current_diagram_id w;
     current_diagram_label := current_diagram_label w;
     current_tasks := current_tasks w;
     current_fields_by_task := current_fields_by_task w;
     original_task_order := original_task_order w;
     selected_task_ids := selected_task_ids w;
     selected_field_ids := v; result := result w |}.

Definition set_result (v : option Result) (w : t) : t :=
  {| diagram_list := diagram_list w; diagrams_data := diagrams_data w;
     diag_combobox := diag_combobox w;
     current_diagram_id := current_diagram_id w;
     current_diagram_label := current_diagram_label w;
     current_tasks := current_tasks w;
     current_fields_by_task := current_fields_by_task w;
     original_task_order := original_task_order w;
     selected_task_ids := selected_task_ids w;
     selected_field_ids := selected_field_ids w; result := v |}.

(** The identifiers of the decision fields of the tasks, as the set
    comprehensions of [update_tree_preview] and [_prune_selection] collect
    them. *)
Definition field_ids_of (tasks : list Node)
  (fields_by_task : PyDict.t (list FieldData)) : list string :=
  flat_map
    (fun task =>
       map fd_id (PyDict.get_default fields_by_task (node_id task) []))
    tasks.

(** [_prune_selection]. *)
Definition _prune_selection (w : t) : t :=
  let valid_task_ids : gset string :=
    list_to_set (map node_id (current_tasks w)) in
  let valid_field_ids : gset string :=
    list_to_set (field_ids_of (current_tasks w) (current_fields_by_task w)) in
  set_selected_field_ids (selected_field_ids w ∩ valid_field_ids)
    (set_selected_task_ids (selected_task_ids w ∩ valid_task_ids) w).

(** [render_tree], for what it does to the attributes: with tasks to
    show it calls [_filtered_tasks], which prunes the selection. *)
Definition render_tree (w : t) : t :=
  match current_tasks w with
  | [] => w
  | _ => _prune_selection w
  end.

(** [update_tree_preview(selected_label, force_reload=...)]. A diagram of
    the list without data makes the subscript raise [KeyError]. *)
Definition update_tree_preview (selected_label : option string)
  (force_reload : bool) (w : t) : option Report * t :=
  let selected_label :=
    match selected_label with
    | None => diag_combobox w
    | Some l => l
    end in
  let diag_id :=
    option_map fst
      (find (fun e => String.eqb (snd e) selected_label) (diagram_list w)) in
  let cleared :=
    {| diagram_list := diagram_list w; diagrams_data := diagrams_data w;
       diag_combobox := diag_combobox w;
       current_diagram_id := None;
       current_diagram_label := selected_label;
       current_tasks := []; current_fields_by_task := [];
       original_task_order := []; selected_task_ids := ∅;
       selected_field_ids := ∅; result := result w |} in
  match diag_id with
  | Some d =>
      if negb (PyStr.truthy d) then (None, render_tree cleared)
      else
        let needs_reload :=
          force_reload || negb (opt_eqb (current_diagram_id w) d) in
        let w1 :=
          {| diagram_list := diagram_list w; diagrams_data := diagrams_data w;
             diag_combobox := diag_combobox w;
             current_diagram_id := Some d;
             current_diagram_label := selected_label;
             current_tasks := current_tasks w;
             current_fields_by_task := current_fields_by_task w;
             original_task_order := original_task_order w;
             selected_task_ids := selected_task_ids w;
             selected_field_ids := selected_field_ids w;
             result := result w |} in
        if needs_reload then
          match PyDict.get (diagrams_data w) d with
          | None => (Some (Exception "KeyError"), w1)
          | Some (nodes, transitions) =>
              let '(tasks, fields_by_task) :=
                build_task_fields_for_diagram nodes transitions in
              (None,
               render_tree
                 {| diagram_list := diagram_list w;
                    diagrams_data := diagrams_data w;
                    diag_combobox := diag_combobox w;
                    current_diagram_id := Some d;
                    current_diagram_label := selected_label;
                    current_tasks := tasks;
                    current_fields_by_task := fields_by_task;
                    original_task_order := map node_id tasks;
                    selected_task_ids := list_to_set (map node_id tasks);
                    selected_field_ids :=
                      list_to_set (field_ids_of tasks fields_by_task);
                    result := result w |})
          end
        else (None, render_tree w1)
  | None => (None, render_tree cleared)
  end.

(** The part of [run_import_flow] that follows a list of diagrams that is
    not empty, [r] being what the reader returned: the window takes the
    diagrams, shows the first label and loads its diagram. (An exception
    raised here would be answered by the handler with the error box.) *)
Definition show_diagrams (r : Diagrams) (w : t) : option Report * t :=
  let diags := diagrams_labels r in
  let data :=
    fold_left
      (fun acc e =>
         PyDict.set acc (fst e)
           (PyDict.get_default (nodes_by_diag r) (fst e) [],
            PyDict.get_default (transitions_by_diag r) (fst e) []))
      diags [] in
  update_tree_preview None false
    {| diagram_list := diags; diagrams_data := data;
       diag_combobox := match diags with e :: _ => snd e | [] => "" end;
       current_diagram_id := current_diagram_id w;
       current_diagram_label := current_diagram_label w;
       current_tasks := current_tasks w;
       current_fields_by_task := current_fields_by_task w;
       original_task_order := original_task_order w;
       selected_task_ids := selected_task_ids w;
       selected_field_ids := selected_field_ids w; result := result w |}.

(** [l.pop(i)] for a position of the list: the list without the item. *)
Fixpoint remove_at {A} (i : nat) (l : list A) : list A :=
  match l, i with
  | [], _ => []
  | _ :: l', O => l'
  | x :: l', S i' => x :: remove_at i' l'
  end.

(** [reorder_task(task_id, delta)]. *)
Definition reorder_task (task_id : string) (delta : Z) (w : t) : t :=
  match index_where (fun t => String.eqb (node_id t) task_id) (current_tasks w) with
  | None => w
  | Some index =>
      let new_index := (Z.of_nat index + delta)%Z in
      if negb ((0 <=? new_index)
               && (new_index <? Z.of_nat (length (current_tasks w))))%Z
      then w
      else
        match current_tasks w !! index with
        | Some task =>
            render_tree
              (set_current_tasks
                 (list_insert_at (Z.to_nat new_index) task
                    (remove_at index (current_tasks w))) w)
        | None => w
        end
  end.

(** [sort_tasks_alphabetically]. *)
Definition sort_tasks_alphabetically (w : t) : t :=
  render_tree
    (set_current_tasks
       (sort_by (fun task => PyStr.lower (node_name task)) String.ltb
          (current_tasks w)) w).

(** [{tid: idx for idx, tid in enumerate(order)}]. *)
Definition order_map (order : list string) : PyDict.t nat :=
  fold_left (fun m e => PyDict.set m (snd e) (fst e))
    (combine (seq 0 (length order)) order) [].

(** [restore_original_order]. *)
Definition restore_original_order (w : t) : t :=
  match original_task_order w with
  | [] => w
  | order =>
      let m := order_map order in
      render_tree
        (set_current_tasks
           (sort_by (fun task => PyDict.get_default m (node_id task) (length m))
              Nat.ltb (current_tasks w)) w)
  end.

(** [on_task_toggle] and [on_field_toggle]; [is_selected] is the state of
    the check box. Counting the tasks shown for the badge prunes the
    selection as [render_tree] does. *)
Definition on_task_toggle (task_id : string) (is_selected : bool) (w : t) : t :=
  render_tree
    (set_selected_task_ids
       (if is_selected then selected_task_ids w ∪ {[task_id]}
        else selected_task_ids w ∖ {[task_id]}) w).

Definition on_field_toggle (field_id : string) (selected : bool) (w : t) : t :=
  render_tree
    (set_selected_field_ids
       (if selected then selected_field_ids w ∪ {[field_id]}
        else selected_field_ids w ∖ {[field_id]}) w).

(** [confirm_selection]. *)
Definition confirm_selection (w : t) : option Report * t :=
  let selected_tasks :=
    List.filter (fun task => bool_decide (node_id task ∈ selected_task_ids w))
      (current_tasks w) in
  match selected_tasks with
  | [] =>
      (Some (Warning "Importador de BPMN"
               "Selecione ao menos uma tarefa antes de importar."), w)
  | _ =>
      let selected_fields_by_task :=
        fold_left
          (fun acc task =>
             PyDict.set acc (node_id task)
               (List.filter
                  (fun field => bool_decide (fd_id field ∈ selected_field_ids w))
                  (PyDict.get_default (current_fields_by_task w)
                     (node_id task) [])))
          selected_tasks [] in
      (None,
       set_result
         (Some {| res_tasks := selected_tasks;
                  res_fields_by_task := selected_fields_by_task;
                  res_diagram_id := current_diagram_id w;
                  res_diagram_label := current_diagram_label w |}) w)
  end.

(** What the buttons of the list of tasks do, for a sequence of them. *)
Inductive Reordering : Type :=
| Move (task_id : string) (delta : Z)
| Alphabetical.

Definition reorder (w : t) (a : Reordering) : t :=
  match a with
  | Move task_id delta => reorder_task task_id delta w
  | Alphabetical => sort_tasks_alphabetically w
  end.

End Importer.

(** The window after the diagram of the approval scenario is read. *)
Definition approval_window : Importer.t :=
  snd (Importer.show_diagrams
         {| diagrams_labels := [("Pedidos.diag", "Pedidos")];
            nodes_by_diag := [("Pedidos.diag", approval_nodes)];
            transitions_by_diag := [("Pedidos.diag", approval_transitions)] |}
         Importer.new).

(** The window after the archive of the two diagrams labelled "Compras"
    is read. *)
Definition tie_window : Importer.t :=
  match parse_bizagi_group_by_diagram tie_archive with
  | Returned r => snd (Importer.show_diagrams r Importer.new)
  | RuntimeError _ => Importer.new
  end.

(** ** Adding the imported tasks to the project *)

(** The field [open_bpmn_importer] makes of a decision field. *)
Definition imported_field (uid : string) (field_data : FieldData) : Field.t :=
  Field.set_options (PyStr.join "; " (fd_opcoes field_data))
    (Field.set_ftype "Lista"
       (Field.set_name (fd_campo field_data) (Field.new uid))).




(** ** Copying and pasting fields *)



















(** The fields "a" and "b" of [ruled_project] selected. *)
Definition ruled_state : App :=
  set_selected_field_ids {["a"; "b"]} (set_project ruled_project initial).




(** ** Project files *)










(** ** The rule builder *)

(** [current_base_field()] of [open_cond_builder]: [sel] is the text of the
    combo box, which can be typed in. *)
Definition current_base_field (cur_fields : list Field.t) (sel : string)
  : option Field.t :=
  find (fun fld => String.eqb (Field.name fld) sel) cur_fields.

(** The names the combo box offers. *)
Definition base_names (cur_fields : list Field.t) (f : Field.t) : list string :=
  match
    map Field.name
      (List.filter (fun fld => negb (String.eqb (Field.id fld) (Field.id f)))
         cur_fields)
  with
  | [] => ["-"]
  | names => names
  end.

(** [add_cond] of [open_cond_builder(f)], [f] being the field at [fi] of
    the task at [ti], the task shown when the builder was opened; [sel] is
    the text of the combo box and [raw_value] the text of the value
    widget. *)
Definition add_cond (ti fi : nat) (sel raw_value : string) (s : App)
  : option Report * App :=
  match ProjectModel.tasks (project s) !! ti with
  | None => (None, s)
  | Some cur =>
      match Task.fields cur !! fi with
      | None => (None, s)
      | Some f =>
          match current_base_field (Task.fields cur) sel with
          | None => (Some (Warning "Regras" "Escolha um campo base."), s)
          | Some fld =>
              let val := PyStr.strip raw_value in
              if negb (PyStr.truthy val)
              then (Some (Warning "Regras" "Informe um valor."), s)
              else if existsb
                        (fun c =>
                           String.eqb (Condition.src_field c) (Field.id fld)
                           && String.eqb (Condition.op c) "=="
                           && String.eqb (Condition.value c) val)
                        (Field.cond f)
              then (Some (Info "Regras" "Esta regra já existe."), s)
              else
                let s := _push_undo s in
                (None,
                 update_field
                   (fun f =>
                      Field.set_cond
                        (Field.cond f ++ [Condition.mk (Field.id fld) "==" val])
                        f)
                   ti fi s)
          end
      end
  end.

(** The button "x" of the rule at position [idx], a position of the list
    of rules shown. *)
Definition remove_cond (ti fi idx : nat) (s : App) : App :=
  let s := _push_undo s in
  update_field
    (fun f => Field.set_cond (Importer.remove_at idx (Field.cond f)) f)
    ti fi s.

(** ** Lists of options as text *)

(** [s.split(sep)] for a one-byte [sep]. *)
Fixpoint str_split (sep : ascii) (s : string) : list string :=
  match s with
  | EmptyString => [EmptyString]
  | String c s' =>
      if Ascii.eqb c sep then EmptyString :: str_split sep s'
      else
        match str_split sep s' with
        | part :: parts => String c part :: parts
        | [] => [String c EmptyString]
        end
  end.

(** [[o.strip() for o in text.split(";") if o.strip()]]. *)
Definition stripped_options (text : string) : list string :=
  List.filter PyStr.truthy (map PyStr.strip (str_split ";" text)).

(** [_list_options_for_field(fld)]. *)
Definition _list_options_for_field (fld : Field.t) : list string :=
  if mem (Field.ftype fld) LIST_FIELD_TYPES
  then stripped_options (PyStr.or_else (Field.options fld) "")
  else [].

(** The two kinds of item of the importer tree. *)
Inductive ItemType : Type :=
| TaskItem
| FieldItem.

(** What [EditItemDialog] puts in its options entry for a field. *)
Definition options_entry_text (item : FieldData) : string :=
  PyStr.join "; " (fd_opcoes item).

(** [EditItemDialog.on_save]: the warning, or [result] as the name and,
    for a field, the options. *)
Definition on_save (item_type : ItemType) (name_text options_text : string)
  : option Report * option (string * option (list string)) :=
  let new_name := PyStr.strip name_text in
  if negb (PyStr.truthy new_name)
  then (Some (Warning "Aviso" "O nome não pode ser vazio."), None)
  else
    (None,
     Some (new_name,
           match item_type with
           | FieldItem => Some (stripped_options options_text)
           | TaskItem => None
           end)).

(** An option as the derivation of the fields produces it when the names
    of the diagram are plain: not empty, without blanks around it and
    without a semicolon. *)
Definition plain_option (o : string) : Prop :=
  PyStr.strip o = o /\ o <> "" /\ str_contains ";" o = false.

(** A decision with two plain options. *)
Definition approval_item : FieldData :=
  mkFieldData "A_G" "Aprovar?" "Lista" ["Aprovado"; "Não aprovado"].

(** ** The definitions of the object *)

Definition set_order (i : nat) (o : ObjectFieldDef.t) : ObjectFieldDef.t :=
  ObjectFieldDef.mk (ObjectFieldDef.name o) (ObjectFieldDef.ftype o)
    (ObjectFieldDef.options o) (ObjectFieldDef.required o)
    (ObjectFieldDef.readonly o) (ObjectFieldDef.group o) i
    (ObjectFieldDef.note o).

(** [for i, ofd in enumerate(schema): ofd.order = i], counting from [i]:
    the assignments go to the objects in the store. *)
Fixpoint renumber_from (i : nat) (schema : list nat)
  (store : list ObjectFieldDef.t) : list ObjectFieldDef.t :=
  match schema with
  | [] => store
  | a :: rest => renumber_from (S i) rest (alter (set_order i) a store)
  end.

(** [remove(ref)] of the editor of the object definitions: [ref] is the
    address of the definition, [confirmed] the answer to the question. *)
Definition remove_object_field (ref : nat) (confirmed : bool) (s : App) : App :=
  if negb confirmed then s
  else
    let s := _push_undo s in
    let schema :=
      List.filter (fun x => negb (Nat.eqb x ref))
        (ProjectModel.object_schema (project s)) in
    set_objects (renumber_from 0 schema (objects s))
      (set_project (ProjectModel.set_object_schema schema (project s)) s).

(** The object definitions of the project, by value. *)
Definition schema_defs (s : App) : list ObjectFieldDef.t :=
  omap (fun a => objects s !! a) (ProjectModel.object_schema (project s)).

(** A definition without its [order]. *)
Definition unordered (o : ObjectFieldDef.t)
  : string * string * string * bool * bool * string * string :=
  (ObjectFieldDef.name o, ObjectFieldDef.ftype o, ObjectFieldDef.options o,
   ObjectFieldDef.required o, ObjectFieldDef.readonly o,
   ObjectFieldDef.group o, ObjectFieldDef.note o).

(** Every definition of the project is an object of the store, and none is
    listed twice. *)
Definition schema_in_store (s : App) : Prop :=
  List.NoDup (ProjectModel.object_schema (project s))
  /\ List.Forall (fun a => a < length (objects s))
       (ProjectModel.object_schema (project s)).

(** ** Names of linked fields *)

(** [_on_field_name_changed(task_id, f, new_name)] for the field at [ti],
    [fi]; it is bound to the name entry of a row only when the name is not
    locked. *)
Definition _on_field_name_changed (ti fi : nat) (new_name : string) (s : App)
  : App :=
  match field_at s ti fi with
  | None => s
  | Some f =>
      let s := _push_undo s in
      let s := update_field (Field.set_name new_name) ti fi s in
      set_tasks
        (map_fields
           (fun fld =>
              if opt_eqb (Field.origin_field fld) (Field.id f)
                 && String.eqb (Field.name_lock_reason fld) "origem"
              then Field.set_name new_name fld else fld)
           (ProjectModel.tasks (project s))) s
  end.

(** A field whose name is locked for its origin has the name of the field
    it points to. *)
Definition names_follow_origin (p : ProjectModel.t) : Prop :=
  forall g f, In g (ProjectModel.all_fields p) ->
    In f (ProjectModel.all_fields p) ->
    Field.origin_field g = Some (Field.id f) ->
    Field.name_lock_reason g = "origem" ->
    Field.name g = Field.name f.

(** No field locked for its origin is itself the origin of a field locked
    for its origin. *)
Definition no_chain_of_origins (p : ProjectModel.t) : Prop :=
  forall g h, In g (ProjectModel.all_fields p) ->
    In h (ProjectModel.all_fields p) ->
    Field.origin_field g = Some (Field.id h) ->
    Field.name_lock_reason g = "origem" ->
    Field.name_lock_reason h <> "origem".

(** ** The simulator when the model changes *)

(** [k.split("__", 1)[0]]: the text before the first "__", the whole text
    when there is none. *)
Fixpoint key_base (k : string) : string :=
  match k with
  | EmptyString => EmptyString
  | String c k' =>
      if String.prefix "__" k then EmptyString else String c (key_base k')
  end.

(** [SimWindow.on_model_changed], for what it does to the answers: those
    whose key, up to the first "__", is the identifier of a field of the
    project are kept, in their order. *)
Definition on_model_changed (p : ProjectModel.t) (answers : PyDict.t Answer)
  : PyDict.t Answer :=
  let current_ids := map Field.id (ProjectModel.all_fields p) in
  List.filter (fun kv => mem (key_base (fst kv)) current_ids) answers.
(** * Properties *)

(** ** Strings and dictionaries *)

Lemma lower_sim : PyStr.lower "Sim" = "sim".
Proof. reflexivity. Qed.

Lemma lower_nao : PyStr.lower "Não" = "não".
Proof. reflexivity. Qed.

Lemma normalize_label_runs :
  normalize_label (" Aprovar" +:+ String "010" "  pedido ") = "Aprovar pedido".
Proof. reflexivity. Qed.

Lemma endswith_diag : PyStr.endswith (PyStr.lower "Fluxo.DIAG") ".diag" = true.
Proof. reflexivity. Qed.

Lemma compare_refl (a : string) : String.compare a a = Eq.
Proof. now apply String_as_OT.cmp_eq. Qed.

Lemma ltb_irrefl (a : string) : String.ltb a a = false.
Proof. unfold String.ltb. now rewrite compare_refl. Qed.

Lemma ltb_false_leb (a b : string) : String.ltb a b = false -> String.leb b a = true.
Proof.
  unfold String.ltb, String.leb.
  pose proof (String_as_OT.cmp_antisym b a) as H.
  unfold String_as_OT.cmp in H. rewrite H.
  now destruct (String.compare a b).
Qed.

Lemma ltb_leb (a b : string) : String.ltb a b = true -> String.leb a b = true.
Proof.
  unfold String.ltb, String.leb. now destruct (String.compare a b).
Qed.

Lemma leb_cases (a b : string) :
  String.leb a b = true <-> String_as_OT.lt a b \/ a = b.
Proof.
  unfold String.leb.
  destruct (String.compare a b) eqn:E.
  - apply String_as_OT.cmp_eq in E. intuition.
  - apply String_as_OT.cmp_lt in E. intuition.
  - split; [discriminate|].
    intros [H | H].
    + apply String_as_OT.cmp_lt in H. unfold String_as_OT.cmp in H. congruence.
    + subst. rewrite compare_refl in E. discriminate.
Qed.

Lemma leb_trans (a b c : string) :
  String.leb a b = true -> String.leb b c = true -> String.leb a c = true.
Proof.
  rewrite !leb_cases.
  intros [H1 | ->] [H2 | ->]; auto.
  left. eapply String_as_OT.lt_trans; eauto.
Qed.

Lemma leb_refl (a : string) : String.leb a a = true.
Proof. apply leb_cases. now right. Qed.

Lemma get_set_same {V} (d : PyDict.t V) k v : PyDict.get (PyDict.set d k v) k = Some v.
Proof.
  induction d as [|[k' v'] d IH]; simpl.
  - now rewrite String.eqb_refl.
  - destruct (String.eqb k' k) eqn:E; simpl; rewrite E; auto.
Qed.

Lemma get_set_other {V} (d : PyDict.t V) k k' v :
  k <> k' -> PyDict.get (PyDict.set d k v) k' = PyDict.get d k'.
Proof.
  intros Hne. induction d as [|[k0 v0] d IH]; simpl.
  - destruct (String.eqb k k') eqn:E; auto.
    apply String.eqb_eq in E. contradiction.
  - destruct (String.eqb k0 k) eqn:E; simpl.
    + apply String.eqb_eq in E. subst k0.
      destruct (String.eqb k k') eqn:E'; auto.
      apply String.eqb_eq in E'. contradiction.
    + now rewrite IH.
Qed.

(** ** The stable sort of the labels *)

Lemma insert_by_label_perm x l : Permutation (x :: l) (insert_by_label x l).
Proof.
  induction l as [|h t IH]; simpl; [reflexivity|].
  destruct (String.ltb (snd h) (snd x)); [|reflexivity].
  rewrite perm_swap. now apply perm_skip.
Qed.

Lemma sort_by_label_perm l : Permutation l (sort_by_label l).
Proof.
  induction l as [|x l IH]; simpl; [constructor|].
  rewrite <- insert_by_label_perm. now apply perm_skip.
Qed.

Lemma insert_by_label_sorted x l :
  StronglySorted label_le l -> StronglySorted label_le (insert_by_label x l).
Proof.
  induction 1 as [|h t Hs IH Hall]; simpl.
  - repeat constructor.
  - destruct (String.ltb (snd h) (snd x)) eqn:E.
    + constructor; [exact IH|].
      apply (Permutation_Forall (insert_by_label_perm x t)).
      constructor; [now apply ltb_leb | exact Hall].
    + apply ltb_false_leb in E.
      constructor; [now constructor|].
      constructor; [exact E|].
      eapply Forall_impl; [exact Hall|].
      intros y Hy. unfold label_le in *. eapply leb_trans; eauto.
Qed.

Lemma sort_by_label_sorted l : StronglySorted label_le (sort_by_label l).
Proof.
  induction l as [|x l IH]; simpl; [constructor|].
  now apply insert_by_label_sorted.
Qed.

Lemma insert_by_label_filter k x l :
  List.filter (with_label k) (insert_by_label x l)
  = List.filter (with_label k) (x :: l).
Proof.
  induction l as [|h t IH]; [reflexivity|].
  cbn [insert_by_label].
  destruct (String.ltb (snd h) (snd x)) eqn:E; [|reflexivity].
  cbn [List.filter] in *. rewrite IH.
  unfold with_label.
  destruct (String.eqb (snd x) k) eqn:Ex; [|reflexivity].
  destruct (String.eqb (snd h) k) eqn:Eh; [|reflexivity].
  apply String.eqb_eq in Ex, Eh. rewrite Ex, Eh, ltb_irrefl in E. discriminate.
Qed.

(** Entries of one label come out in the order they went in. *)
Lemma sort_by_label_stable k l :
  List.filter (with_label k) (sort_by_label l) = List.filter (with_label k) l.
Proof.
  induction l as [|x l IH]; [reflexivity|].
  cbn [sort_by_label fold_right].
  rewrite insert_by_label_filter. cbn [List.filter].
  fold (sort_by_label l). now rewrite IH.
Qed.

(** ** The loop over the entries *)

Lemma open_diagram_labels z d acc :
  diagrams_labels (read_entry z acc d)
  = diagrams_labels acc ++ blob_labels d (zip_read z d).
Proof.
  unfold read_entry, open_diagram, blob_labels.
  destruct (zip_read z d) as [[| | |members]|]; cbn; try now rewrite ?app_nil_r.
  destruct (negb _); cbn; [now rewrite app_nil_r|].
  destruct (zip_read members "Diagram.xml") as [[|root]|]; reflexivity.
Qed.

Lemma fold_read_labels z ds acc :
  diagrams_labels (fold_left (read_entry z) ds acc)
  = diagrams_labels acc ++ flat_map (fun d => blob_labels d (zip_read z d)) ds.
Proof.
  revert acc. induction ds as [|d ds IH]; intros acc; simpl.
  - now rewrite app_nil_r.
  - now rewrite IH, open_diagram_labels, <- app_assoc.
Qed.

Lemma parse_returns z :
  diag_entries z <> [] ->
  exists r, parse_bizagi_group_by_diagram z = Returned r
            /\ diagrams_labels r = sort_by_label (collected z).
Proof.
  intros Hne. unfold parse_bizagi_group_by_diagram, collected.
  destruct (diag_entries z) as [|d ds] eqn:E; [contradiction|].
  eexists. split; [reflexivity|]. cbn [diagrams_labels].
  now rewrite fold_read_labels.
Qed.

Lemma parse_raises z :
  (exists msg, parse_bizagi_group_by_diagram z = RuntimeError msg)
  <-> diag_entries z = [].
Proof.
  unfold parse_bizagi_group_by_diagram.
  destruct (diag_entries z) as [|d ds]; split; intros H; eauto.
  - destruct H as [msg H]. discriminate.
  - discriminate.
Qed.

Lemma blob_labels_root z d root :
  open_diagram z d = Root root ->
  blob_labels d (zip_read z d) = [(d, diagram_label d root)].
Proof.
  unfold open_diagram, blob_labels.
  destruct (zip_read z d) as [[| | |members]|]; try discriminate.
  destruct (negb _); [discriminate|].
  destruct (zip_read members "Diagram.xml") as [[|r]|]; try discriminate.
  now intros [= ->].
Qed.

Lemma blob_labels_not_root z d :
  (forall root, open_diagram z d <> Root root) ->
  blob_labels d (zip_read z d)
  = match open_diagram z d with Failed => [(d, d)] | _ => [] end.
Proof.
  unfold open_diagram, blob_labels.
  destruct (zip_read z d) as [[| | |members]|]; try reflexivity.
  destruct (negb _); [reflexivity|].
  destruct (zip_read members "Diagram.xml") as [[|r]|]; try reflexivity.
  intros H. now destruct (H r).
Qed.

Lemma collected_without_usable z :
  (forall d, ~ usable z d) ->
  collected z
  = flat_map (fun d => match open_diagram z d with
                       | Failed => [(d, d)] | _ => [] end) (diag_entries z).
Proof.
  intros H. unfold collected.
  assert (Hall : forall d, In d (diag_entries z) ->
                     forall root, open_diagram z d <> Root root).
  { intros d Hd root Hr. apply (H d). split; eauto. }
  induction (diag_entries z) as [|d ds IH]; [reflexivity|].
  cbn [flat_map]. rewrite blob_labels_not_root by (apply Hall; now left).
  f_equal. apply IH. intros d' Hd'. apply Hall. now right.
Qed.

Lemma blob_labels_fst d b e : In e (blob_labels d b) -> fst e = d.
Proof.
  unfold blob_labels.
  destruct b as [[| | |members]|]; cbn; try tauto;
    try (intros [<-|[]]; reflexivity).
  destruct (negb _); cbn; [tauto|].
  destruct (zip_read members "Diagram.xml") as [[|root]|]; cbn;
    intros [<-|[]]; reflexivity.
Qed.

Lemma collected_fst z e :
  In e (collected z) ->
  In (fst e) (diag_entries z) /\ In e (blob_labels (fst e) (zip_read z (fst e))).
Proof.
  unfold collected. rewrite in_flat_map. intros (d & Hd & He).
  pose proof (blob_labels_fst _ _ _ He) as ->. auto.
Qed.

Lemma collected_In z d e :
  In d (diag_entries z) -> In e (blob_labels d (zip_read z d)) -> In e (collected z).
Proof. intros Hd He. unfold collected. apply in_flat_map. eauto. Qed.

Lemma fold_read_nodes z d root :
  open_diagram z d = Root root ->
  forall ds acc,
    PyDict.get (nodes_by_diag (fold_left (read_entry z) ds acc)) d
    = (if mem d ds then Some (diagram_nodes root)
       else PyDict.get (nodes_by_diag acc) d)
    /\ PyDict.get (transitions_by_diag (fold_left (read_entry z) ds acc)) d
       = (if mem d ds then Some (diagram_transitions root)
          else PyDict.get (transitions_by_diag acc) d).
Proof.
  intros Hd. induction ds as [|d0 ds IH]; intros acc; [now split|].
  cbn [fold_left mem existsb]. fold (mem d ds).
  destruct (IH (read_entry z acc d0)) as [IHn IHt]. rewrite IHn, IHt.
  destruct (mem d ds); [now rewrite orb_true_r|]. rewrite orb_false_r.
  destruct (String.eqb d d0) eqn:E.
  - apply String.eqb_eq in E. subst d0. unfold read_entry. rewrite Hd. cbn.
    now rewrite !get_set_same.
  - apply String.eqb_neq in E. unfold read_entry.
    destruct (open_diagram z d0); cbn; try now split.
    rewrite !get_set_other by congruence. now split.
Qed.

Lemma fold_read_nodes_none z d :
  (forall root, open_diagram z d <> Root root) ->
  forall ds acc,
    PyDict.get (nodes_by_diag (fold_left (read_entry z) ds acc)) d
    = PyDict.get (nodes_by_diag acc) d
    /\ PyDict.get (transitions_by_diag (fold_left (read_entry z) ds acc)) d
       = PyDict.get (transitions_by_diag acc) d.
Proof.
  intros Hd. induction ds as [|d0 ds IH]; intros acc; [now split|].
  cbn [fold_left]. destruct (IH (read_entry z acc d0)) as [-> ->].
  unfold read_entry. destruct (open_diagram z d0) as [| |root] eqn:E; cbn;
    try now split.
  assert (d0 <> d) by (intros ->; now apply (Hd root)).
  rewrite !get_set_other by assumption. now split.
Qed.

Lemma mem_In x l : mem x l = true <-> In x l.
Proof.
  unfold mem. rewrite existsb_exists. split.
  - intros (y & Hy & E). apply String.eqb_eq in E. now subst.
  - intros H. exists x. split; [assumption | apply String.eqb_refl].
Qed.

(** What the reader returns for each entry, by what the entry is. *)
Lemma parse_entry z r d :
  parse_bizagi_group_by_diagram z = Returned r ->
  In d (diag_entries z) ->
  match open_diagram z d with
  | Skipped => ~ In d (map fst (diagrams_labels r))
  | Failed =>
      In (d, d) (diagrams_labels r)
      /\ PyDict.get (nodes_by_diag r) d = None
      /\ PyDict.get (transitions_by_diag r) d = None
  | Root root =>
      In (d, diagram_label d root) (diagrams_labels r)
      /\ PyDict.get (nodes_by_diag r) d = Some (diagram_nodes root)
      /\ PyDict.get (transitions_by_diag r) d = Some (diagram_transitions root)
  end.
Proof.
  intros Hr Hd.
  assert (Hne : diag_entries z <> []) by (intros E; rewrite E in Hd; inversion Hd).
  destruct (parse_returns z Hne) as (r' & Hr' & Hl).
  rewrite Hr in Hr'. injection Hr' as <-.
  assert (Hstore : nodes_by_diag r
                   = nodes_by_diag (fold_left (read_entry z) (diag_entries z)
                                      (mkDiagrams [] [] []))
                   /\ transitions_by_diag r
                      = transitions_by_diag (fold_left (read_entry z) (diag_entries z)
                                               (mkDiagrams [] [] []))).
  { unfold parse_bizagi_group_by_diagram in Hr.
    destruct (diag_entries z); [discriminate|]. injection Hr as <-. now split. }
  destruct Hstore as [Hn Ht].
  assert (Hin : forall e, In e (diagrams_labels r) <-> In e (collected z)).
  { intros e. rewrite Hl. split; apply Permutation_in;
      [symmetry|]; apply sort_by_label_perm. }
  destruct (open_diagram z d) as [| |root] eqn:E.
  - intros Hmem. apply in_map_iff in Hmem as (e & <- & He).
    apply Hin, collected_fst in He as [_ He].
    rewrite blob_labels_not_root in He by (intros root; congruence).
    now rewrite E in He.
  - assert (Hno : forall root, open_diagram z d <> Root root) by (intros ?; congruence).
    split.
    + apply Hin. apply (collected_In z d); [assumption|].
      rewrite blob_labels_not_root, E by assumption. now left.
    + rewrite Hn, Ht.
      destruct (fold_read_nodes_none z d Hno (diag_entries z) (mkDiagrams [] [] []))
        as [-> ->]. now split.
  - split.
    + apply Hin. apply (collected_In z d); [assumption|].
      rewrite (blob_labels_root z d root E). now left.
    + rewrite Hn, Ht.
      destruct (fold_read_nodes z d root E (diag_entries z) (mkDiagrams [] [] []))
        as [-> ->].
      apply mem_In in Hd. rewrite Hd. now split.
Qed.

(** The sample archive: the label is the pool that is not the main
    process, and the nodes are classified by their children. *)
Lemma sample_archive_is_read :
  parse_bizagi_group_by_diagram sample_archive
  = Returned
      {| diagrams_labels := [("Compras.DIAG", "Compras")];
         nodes_by_diag :=
           [("Compras.DIAG",
             [("A", mkNode "A" "Analisar" "Task" true);
              ("G", mkNode "G" "Aprovado?" "Route" false);
              ("E", mkNode "E" "" "Activity" false)])];
         transitions_by_diag :=
           [("Compras.DIAG",
             [mkTransition "A" "G" ""; mkTransition "G" "E" "Sim"])] |}.
Proof. vm_compute. reflexivity. Qed.

(** ** Claims about the reader *)

(** C3, as amended. The reader raises exactly when the archive has no entry
    whose name ends in ".diag" (case ignored). When some entry yields a
    parseable diagram it returns a list that is not empty. When there are
    ".diag" entries and none is parseable it still returns: the list holds
    the fallback entry of each entry whose reading raised and may be empty,
    and the importer window answers an empty list with a warning. *)
Theorem read_raises_only_without_diag_entries (z : Archive) :
  ((exists msg, parse_bizagi_group_by_diagram z = RuntimeError msg)
   <-> diag_entries z = [])
  /\ ((exists d, usable z d) ->
      exists r, parse_bizagi_group_by_diagram z = Returned r
                /\ diagrams_labels r <> [])
  /\ (diag_entries z <> [] -> (forall d, ~ usable z d) ->
      exists r,
        parse_bizagi_group_by_diagram z = Returned r
        /\ diagrams_labels r
           = sort_by_label
               (flat_map (fun d => match open_diagram z d with
                                   | Failed => [(d, d)]
                                   | _ => []
                                   end) (diag_entries z))
        /\ (diagrams_labels r = [] ->
            exists msg, run_import_flow z = ImportWarning msg)).
Proof.
  split; [apply parse_raises|]. split.
  - intros (d & Hd & root & Hroot).
    assert (Hne : diag_entries z <> []) by (intros E; rewrite E in Hd; inversion Hd).
    destruct (parse_returns z Hne) as (r & Hr & Hl).
    exists r. split; [assumption|].
    pose proof (parse_entry z r d Hr Hd) as H. rewrite Hroot in H.
    destruct H as [H _]. intros E. rewrite E in H. inversion H.
  - intros Hne Hnone.
    destruct (parse_returns z Hne) as (r & Hr & Hl).
    exists r. split; [assumption|]. split.
    + now rewrite Hl, collected_without_usable.
    + intros E. unfold run_import_flow. rewrite Hr, E. eauto.
Qed.

Lemma read_raises_only_without_diag_entries_witness :
  exists r, parse_bizagi_group_by_diagram damaged_archive = Returned r
            /\ diagrams_labels r <> [].
Proof.
  apply (read_raises_only_without_diag_entries damaged_archive).
  exists "c.diag". split.
  - vm_compute. tauto.
  - eexists. vm_compute. reflexivity.
Defined.

(** C3 as stated fails: an archive whose only diagram does not parse has
    no usable diagram, yet the reader returns (a fallback entry) and the
    importer goes on to show it; and for an archive whose only entry is no
    zip file the reader returns the empty list instead of raising. *)
Lemma unparsable_archive_is_read :
  (forall d root, open_diagram unparsable_archive d <> Root root)
  /\ parse_bizagi_group_by_diagram unparsable_archive
     = Returned (mkDiagrams [("a.diag", "a.diag")] [] [])
  /\ run_import_flow unparsable_archive = ImportShown [("a.diag", "a.diag")]
  /\ (forall d root, open_diagram not_zip_archive d <> Root root)
  /\ parse_bizagi_group_by_diagram not_zip_archive = Returned (mkDiagrams [] [] []).
Proof.
  split; [|split; [reflexivity|split; [reflexivity|split; [|reflexivity]]]].
  - intros d root. unfold open_diagram, unparsable_archive, zip_read.
    cbn [rev app PyDict.get].
    destruct (String.eqb "a.diag" d); [vm_compute|]; discriminate.
  - intros d root. unfold open_diagram, not_zip_archive, zip_read.
    cbn [rev app PyDict.get].
    destruct (String.eqb "a.diag" d); discriminate.
Qed.

(** C8, as amended. Every ".diag" entry is dealt with on its own. An entry
    whose bytes are not a zip file, or whose archive has no member named
    Diagram.xml, is left out of the result. An entry whose reading raises
    (it cannot be read or opened, or its Diagram.xml does not read or parse)
    gets the fallback entry whose label is its name, and no nodes. An entry
    that parses gets its label, nodes and transitions, whatever the other
    entries are. *)
Theorem damaged_entries_do_not_stop_the_read (z : Archive) (r : Diagrams) (d : string) :
  parse_bizagi_group_by_diagram z = Returned r ->
  In d (diag_entries z) ->
  diagrams_labels r
  = sort_by_label (flat_map (fun e => blob_labels e (zip_read z e)) (diag_entries z))
  /\ match zip_read z d with
     | Some NotZip => ~ In d (map fst (diagrams_labels r))
     | Some (InnerZip members) =>
         if existsb (String.eqb "Diagram.xml") (namelist members) then
           match zip_read members "Diagram.xml" with
           | Some (Parsed root) =>
               In (d, diagram_label d root) (diagrams_labels r)
               /\ PyDict.get (nodes_by_diag r) d = Some (diagram_nodes root)
               /\ PyDict.get (transitions_by_diag r) d
                  = Some (diagram_transitions root)
           | _ =>
               In (d, d) (diagrams_labels r)
               /\ PyDict.get (nodes_by_diag r) d = None
               /\ PyDict.get (transitions_by_diag r) d = None
           end
         else ~ In d (map fst (diagrams_labels r))
     | _ =>
         In (d, d) (diagrams_labels r)
         /\ PyDict.get (nodes_by_diag r) d = None
         /\ PyDict.get (transitions_by_diag r) d = None
     end.
Proof.
  intros Hr Hd. split.
  - assert (Hne : diag_entries z <> []) by (intros E; rewrite E in Hd; inversion Hd).
    destruct (parse_returns z Hne) as (r' & Hr' & Hl).
    rewrite Hr in Hr'. injection Hr' as <-. exact Hl.
  - pose proof (parse_entry z r d Hr Hd) as H. unfold open_diagram in H.
    destruct (zip_read z d) as [[| | |members]|]; try exact H.
    destruct (existsb (String.eqb "Diagram.xml") (namelist members)); cbn in H;
      [|exact H].
    destruct (zip_read members "Diagram.xml") as [[|root]|]; exact H.
Qed.

Lemma damaged_entries_do_not_stop_the_read_witness :
  diagrams_labels (mkDiagrams [("c.diag", "Vendas")]
                     [("c.diag", [])] [("c.diag", [])])
  = sort_by_label
      (flat_map (fun e => blob_labels e (zip_read damaged_archive e))
         (diag_entries damaged_archive))
  /\ ~ In "a.diag" (map fst [("c.diag", "Vendas")]).
Proof.
  apply (damaged_entries_do_not_stop_the_read damaged_archive
           (mkDiagrams [("c.diag", "Vendas")] [("c.diag", [])] [("c.diag", [])])
           "a.diag").
  - vm_compute. reflexivity.
  - vm_compute. tauto.
Defined.

(** C8 as stated fails: an entry that is no zip file and one without
    Diagram.xml get no fallback entry; they are left out. *)
Lemma skipped_entries_get_no_fallback :
  zip_read damaged_archive "a.diag" = Some NotZip
  /\ zip_read damaged_archive "b.diag" = Some (InnerZip [("Leiame.txt", Broken)])
  /\ exists r,
       parse_bizagi_group_by_diagram damaged_archive = Returned r
       /\ diagrams_labels r = [("c.diag", "Vendas")]
       /\ ~ In ("a.diag", "a.diag") (diagrams_labels r)
       /\ ~ In ("b.diag", "b.diag") (diagrams_labels r).
Proof.
  split; [reflexivity|]. split; [reflexivity|].
  eexists. split; [vm_compute; reflexivity|]. cbn [diagrams_labels].
  split; [reflexivity|].
  split; (intros [H|H]; [discriminate H | exact H]).
Qed.

(** C9, as amended. The list is sorted by label, compared as plain strings,
    and is a stable rearrangement of the entries in the order the archive
    lists them: entries of equal label keep that order. *)
Theorem diagram_list_sorted_by_label_stably (z : Archive) (r : Diagrams) :
  parse_bizagi_group_by_diagram z = Returned r ->
  StronglySorted label_le (diagrams_labels r)
  /\ Permutation (collected z) (diagrams_labels r)
  /\ forall k, List.filter (with_label k) (diagrams_labels r)
               = List.filter (with_label k) (collected z).
Proof.
  intros Hr.
  assert (Hl : diagrams_labels r = sort_by_label (collected z)).
  { destruct (diag_entries z) as [|d ds] eqn:E.
    - unfold parse_bizagi_group_by_diagram in Hr. rewrite E in Hr. discriminate.
    - destruct (parse_returns z) as (r' & Hr' & Hl); [rewrite E; discriminate|].
      rewrite Hr in Hr'. injection Hr' as <-. exact Hl. }
  rewrite Hl. split; [apply sort_by_label_sorted|].
  split; [apply sort_by_label_perm|].
  intros k. apply sort_by_label_stable.
Qed.

Lemma diagram_list_sorted_by_label_stably_witness :
  StronglySorted label_le [("b.diag", "Compras"); ("a.diag", "Compras")]
  /\ Permutation (collected tie_archive)
       [("b.diag", "Compras"); ("a.diag", "Compras")]
  /\ forall k, List.filter (with_label k)
                 [("b.diag", "Compras"); ("a.diag", "Compras")]
               = List.filter (with_label k) (collected tie_archive).
Proof.
  apply (diagram_list_sorted_by_label_stably tie_archive
           (mkDiagrams [("b.diag", "Compras"); ("a.diag", "Compras")]
              [("b.diag", []); ("a.diag", [])]
              [("b.diag", []); ("a.diag", [])])).
  vm_compute. reflexivity.
Defined.

(** C9 as stated fails: two diagrams of one label come out in the order of
    the archive, here "b.diag" before "a.diag", not in the order of their
    entry names. *)
Lemma ties_keep_archive_order :
  exists r,
    parse_bizagi_group_by_diagram tie_archive = Returned r
    /\ diagrams_labels r = [("b.diag", "Compras"); ("a.diag", "Compras")]
    /\ String.leb "b.diag" "a.diag" = false
    /\ (StronglySorted label_then_name_le (diagrams_labels r) -> False).
Proof.
  eexists. split; [vm_compute; reflexivity|]. cbn [diagrams_labels].
  split; [reflexivity|]. split; [reflexivity|].
  intros H. inversion H as [|? ? _ Hall]. subst.
  inversion Hall as [|? ? Hle _]. subst.
  destruct Hle as [Hlt | [_ Hle]]; vm_compute in Hlt || vm_compute in Hle;
    discriminate.
Qed.

(** ** The indexes and the field lists *)









Lemma length_append (a b : string) :
  String.length (a +:+ b) = String.length a + String.length b.
Proof. induction a as [|c a IH]; simpl; [reflexivity | now rewrite IH]. Qed.

Lemma append_cancel_r (a b s : string) : a +:+ s = b +:+ s -> a = b.
Proof.
  revert b. induction a as [|c a IH]; intros [|c' b] H.
  - reflexivity.
  - apply (f_equal String.length) in H. rewrite !length_append in H.
    simpl in H. lia.
  - apply (f_equal String.length) in H. rewrite !length_append in H.
    simpl in H. lia.
  - cbn in H. injection H as -> H. f_equal. now apply IH.
Qed.



(** ** Claims about the decision fields *)



(** The scenario of the design note: two fields, A_G and B_G, with the
    label of G and its two named ways out. *)
Lemma approval_scenario :
  build_task_fields_for_diagram approval_nodes approval_transitions
  = ([mkNode "A" "Analisar" "Task" true; mkNode "B" "Revisar" "Task" true;
      mkNode "X" "Arquivar" "Task" true; mkNode "Y" "Devolver" "Task" true],
     [("A", [mkFieldData "A_G" "Pedido aprovado?" "Lista" ["Aprovado"; "Reprovado"]]);
      ("B", [mkFieldData "B_G" "Pedido aprovado?" "Lista" ["Aprovado"; "Reprovado"]]);
      ("X", []); ("Y", [])]).
Proof. vm_compute. reflexivity. Qed.



(** ** Snapshots *)

Lemma condition_to_dict_id c : condition_to_dict c = c.
Proof. now destruct c. Qed.

Lemma field_to_dict_id f : field_to_dict f = f.
Proof.
  destruct f. unfold field_to_dict. cbn. f_equal.
  rewrite <- (map_id cond) at 2. apply map_ext. apply condition_to_dict_id.
Qed.

Lemma task_to_dict_id t : task_to_dict t = t.
Proof.
  destruct t. unfold task_to_dict. cbn. f_equal.
  rewrite <- (map_id fields) at 2. apply map_ext. apply field_to_dict_id.
Qed.

(** A snapshot holds the project as it is. *)
Lemma to_dict_id p : to_dict p = p.
Proof.
  destruct p. unfold to_dict. cbn. f_equal.
  rewrite <- (map_id tasks) at 2. apply map_ext. apply task_to_dict_id.
Qed.


Lemma names_of_states :
  names_and_types one_field_state = [("Novo campo", "Texto")]
  /\ names_and_types object_state = [("Contrato", "Objeto")]
  /\ names_and_types duplicated_state
     = [("Contrato", "Objeto"); ("Contrato (Cópia)", "Objeto")].
Proof. repeat split; vm_compute; reflexivity. Qed.

(** ** The adjustment of the object fields *)

Lemma not_truthy s : PyStr.truthy s = false -> s = "".
Proof. now destruct s. Qed.















Lemma get_task_keeps task_id s :
  project (snd (_get_task task_id s)) = project s
  /\ undo_stack (snd (_get_task task_id s)) = undo_stack s
  /\ redo_stack (snd (_get_task task_id s)) = redo_stack s
  /\ objects (snd (_get_task task_id s)) = objects s
  /\ selected_field_ids (snd (_get_task task_id s)) = selected_field_ids s.
Proof.
  unfold _get_task.
  destruct (if opt_truthy task_id then task_id else current_task_id s);
    [now repeat split|].
  destruct (ProjectModel.tasks (project s)); now repeat split.
Qed.

Lemma refresh_task_combo_keeps s :
  project (_refresh_task_combo s) = project s
  /\ undo_stack (_refresh_task_combo s) = undo_stack s
  /\ redo_stack (_refresh_task_combo s) = redo_stack s
  /\ objects (_refresh_task_combo s) = objects s.
Proof.
  unfold _refresh_task_combo.
  destruct (get_task_keeps None s) as (Hp & Hu & Hr & Ho & _).
  destruct (_get_task None s) as [[i|] s1]; cbn [snd] in *; now repeat split.
Qed.

Lemma apply_project_dict_project d pd s :
  dict_project d = Some pd ->
  fst (_apply_project_dict d s) = true
  /\ project (snd (_apply_project_dict d s))
     = adjust_project (snd (from_dict (objects s) pd))
  /\ undo_stack (snd (_apply_project_dict d s)) = undo_stack s
  /\ redo_stack (snd (_apply_project_dict d s)) = redo_stack s.
Proof.
  destruct d as [|st|p]; cbn [dict_project]; intros [= <-];
    unfold _apply_project_dict;
    destruct (from_dict (objects s) _) as [store new_project];
    cbn [fst snd];
    match goal with
    | |- context [_refresh_task_combo ?x] =>
        destruct (refresh_task_combo_keeps x) as (-> & -> & -> & _)
    end;
    now repeat split.
Qed.

(** ** Claim about the restore *)




(** ** Undo and redo *)

Lemma pop_app {A} (l : list A) x : pop (l ++ [x]) = Some (x, l).
Proof. unfold pop. rewrite rev_app_distr. cbn. now rewrite rev_involutive. Qed.

Lemma serialize_project_keeps s :
  sd_project (fst (_serialize_project s)) = to_dict (project s)
  /\ project (snd (_serialize_project s)) = project s
  /\ undo_stack (snd (_serialize_project s)) = undo_stack s
  /\ redo_stack (snd (_serialize_project s)) = redo_stack s
  /\ objects (snd (_serialize_project s)) = objects s.
Proof.
  unfold _serialize_project.
  destruct (get_task_keeps None s) as (Hp & Hu & Hr & Ho & _).
  destruct (_get_task None s) as [current s1]. cbn [fst snd] in *.
  now rewrite Hp, Hu, Hr, Ho.
Qed.

(** [_push_undo] leaves the project alone and a snapshot of it on top of
    the undo stack, whatever the cap drops. *)
Lemma push_undo_records s :
  project (_push_undo s) = project s
  /\ objects (_push_undo s) = objects s
  /\ redo_stack (_push_undo s) = []
  /\ exists rest,
       pop (undo_stack (_push_undo s)) = Some (fst (_serialize_project s), rest).
Proof.
  unfold _push_undo.
  destruct (serialize_project_keeps s) as (_ & Hp & Hu & _ & Ho).
  destruct (_serialize_project s) as [snapshot s1]. cbn [fst snd] in *.
  cbn [project objects redo_stack undo_stack set_redo_stack set_undo_stack].
  repeat split; try assumption.
  destruct (Nat.ltb _UNDO_MAX (length (undo_stack s1 ++ [snapshot]))) eqn:E.
  - destruct (undo_stack s1) as [|x l].
    + vm_compute in E. discriminate.
    + cbn [app tail]. exists l. apply pop_app.
  - exists (undo_stack s1). apply pop_app.
Qed.

Lemma push_undo_recorded s : recorded s (_push_undo s).
Proof.
  destruct (push_undo_records s) as (_ & _ & _ & rest & H).
  exists (fst (_serialize_project s)), rest. split; [exact H|].
  apply serialize_project_keeps.
Qed.

(** A change of the model that leaves the undo stack alone keeps the
    record. *)
Lemma recorded_after s s1 s2 :
  recorded s s1 -> undo_stack s2 = undo_stack s1 -> recorded s s2.
Proof. intros (snap & rest & H1 & H2) E. exists snap, rest. now rewrite E. Qed.

Lemma recorded_same_project s s0 s1 :
  project s0 = project s -> recorded s0 s1 -> recorded s s1.
Proof. intros E (snap & rest & H1 & H2). exists snap, rest. now rewrite <- E. Qed.


Lemma undo_action_restores s' snapshot rest :
  pop (undo_stack s') = Some (snapshot, rest) ->
  undo_action s'
  = snd (_apply_project_dict (Wrapped snapshot)
           (set_undo_stack rest
              (set_redo_stack
                 (redo_stack s' ++ [fst (_serialize_project s')])
                 (snd (_serialize_project s'))))).
Proof.
  intros Hpop. unfold undo_action.
  destruct (undo_stack s') as [|x l] eqn:E; [discriminate|].
  destruct (serialize_project_keeps s') as (_ & _ & Hu & Hr & _).
  destruct (_serialize_project s') as [snap' s1]. cbn [fst snd] in *.
  cbn [undo_stack set_redo_stack]. rewrite Hu, Hr, E, Hpop. reflexivity.
Qed.

Lemma redo_action_restores u snapshot rest :
  pop (redo_stack u) = Some (snapshot, rest) ->
  redo_action u
  = snd (_apply_project_dict (Wrapped snapshot)
           (set_redo_stack rest
              (set_undo_stack
                 (undo_stack u ++ [fst (_serialize_project u)])
                 (snd (_serialize_project u))))).
Proof.
  intros Hpop. unfold redo_action.
  destruct (redo_stack u) as [|x l] eqn:E; [discriminate|].
  destruct (serialize_project_keeps u) as (_ & _ & Hu & Hr & _).
  destruct (_serialize_project u) as [snap' s1]. cbn [fst snd] in *.
  cbn [redo_stack set_undo_stack]. rewrite Hu, Hr, E, Hpop. reflexivity.
Qed.

(** ** Claim about undo and redo *)


(** The operations below record the state they start from. *)
Lemma delete_field_recorded field_id s :
  ProjectModel.tasks (project s) <> [] ->
  recorded s (snd (_delete_field field_id s)).
Proof.
  intros Hne. unfold _delete_field.
  destruct (ProjectModel.tasks (project s)) as [|t ts]; [contradiction|].
  destruct (get_task_keeps None (_push_undo s)) as (_ & Hu & _).
  destruct (_get_task None (_push_undo s)) as [[i|] s2]; cbn [snd] in *;
    (eapply recorded_after; [apply push_undo_recorded | exact Hu]).
Qed.

Lemma cleanup_refs_keeps deleted s :
  undo_stack (cleanup_refs deleted s) = undo_stack s.
Proof. unfold cleanup_refs. now destruct (bool_decide _). Qed.

Lemma delete_task_recorded ti t s :
  ProjectModel.tasks (project s) !! ti = Some t ->
  recorded s (delete_task ti true s).
Proof.
  intros Ht. unfold delete_task. cbn [negb]. rewrite Ht.
  match goal with
  | |- recorded _ (_refresh_task_combo ?x) =>
      destruct (refresh_task_combo_keeps x) as (_ & Hu & _);
      eapply recorded_after; [apply push_undo_recorded | rewrite Hu]
  end.
  match goal with
  | |- context [if ?c then _ else _] => destruct c
  end;
    cbn [undo_stack set_current_task_id set_tasks set_project];
    apply cleanup_refs_keeps.
Qed.

Lemma add_field_recorded uid s :
  ProjectModel.tasks (project s) <> [] ->
  recorded s (snd (_add_field uid s)).
Proof.
  intros Hne. unfold _add_field.
  destruct (ProjectModel.tasks (project s)) as [|t ts]; [contradiction|].
  destruct (get_task_keeps None (_push_undo s)) as (_ & Hu & _).
  destruct (_get_task None (_push_undo s)) as [[i|] s2]; cbn [snd] in *;
    (eapply recorded_after; [apply push_undo_recorded | exact Hu]).
Qed.

Lemma object_type_dialog_recorded attempts : forall s0 s,
  recorded s s0 -> project s0 = project s ->
  recorded s (snd (open_flow_object_type_dialog attempts s0)).
Proof.
  induction attempts as [|text later IH]; intros s0 s Hrec Hp; [exact Hrec|].
  cbn [open_flow_object_type_dialog].
  destruct (negb (PyStr.truthy (PyStr.strip text))); [now apply IH|].
  cbn [snd]. eapply recorded_after.
  - apply (recorded_same_project s s0); [exact Hp | apply push_undo_recorded].
  - reflexivity.
Qed.

Lemma change_type_recorded ti fi new_type attempts f s :
  field_at s ti fi = Some f -> new_type <> Field.ftype f ->
  recorded s (snd (_on_change_type ti fi new_type attempts None s)).
Proof.
  intros Hf Hne. unfold _on_change_type. rewrite Hf.
  destruct (String.eqb new_type (Field.ftype f)) eqn:E;
    [apply String.eqb_eq in E; contradiction|].
  assert (Hfin : forall s1, recorded s s1 ->
                   recorded s (snd (finish_change_type ti fi (Field.ftype f)
                                      new_type None s1))).
  { intros s1 H. unfold finish_change_type, _open_attachment_type_editor.
    destruct (String.eqb new_type "Anexo" && negb (String.eqb (Field.ftype f) "Anexo"));
      cbn [snd]; (eapply recorded_after; [exact H | reflexivity]). }
  destruct (String.eqb new_type "Objeto").
  - destruct (has_origin f); [apply push_undo_recorded|].
    destruct (push_undo_records s) as (Hp0 & _).
    destruct (get_task_keeps None (_push_undo s)) as (Hp & Hu & _).
    destruct (_get_task None (_push_undo s)) as [[ci|] s2]; cbn [fst snd] in *;
      [|eapply recorded_after; [apply push_undo_recorded | exact Hu]].
    assert (Hrec2 : recorded s s2)
      by (eapply recorded_after; [apply push_undo_recorded | exact Hu]).
    destruct (other_object_field _ _); [exact Hrec2|].
    destruct (PyStr.truthy (ProjectModel.object_type (project s2))).
    + cbn [negb]. apply Hfin. eapply recorded_after; [exact Hrec2 | reflexivity].
    + pose proof (object_type_dialog_recorded attempts s2 s Hrec2
                    (eq_trans Hp Hp0)) as Hd.
      destruct (open_flow_object_type_dialog attempts s2) as [named s3].
      cbn [snd] in Hd. destruct named; cbn [negb]; [|exact Hd].
      apply Hfin. eapply recorded_after; [exact Hd | reflexivity].
  - destruct (String.eqb (Field.ftype f) "Objeto"); apply Hfin;
      (eapply recorded_after; [apply push_undo_recorded | reflexivity]).
Qed.




(** The snapshots hold the object definitions by reference: a definition
    edited in place after the snapshot was taken is restored as edited. *)
Lemma undo_keeps_edited_object_definition :
  schema_names schema_state = ["Valor"]
  /\ schema_names schema_edited_state = ["Montante"]
  /\ schema_names (undo_action schema_edited_state) = ["Montante"].
Proof. repeat split; vm_compute; reflexivity. Qed.

(** ** Deleting fields and tasks *)

Lemma linked_states :
  names_and_locks (_commit_row_data 0 1 "Telefone" true two_fields_state)
  = [("a", "Novo campo", None, "", false); ("b", "Telefone", None, "", false)]
  /\ names_and_locks (linked_state "Telefone")
     = [("a", "Novo campo", None, "", false);
        ("b", "Novo campo", Some "a", "origem", true)]
  /\ names_and_locks (_commit_row_data 0 1 "" true two_fields_state)
     = [("a", "Novo campo", None, "", false); ("b", "", None, "", false)]
  /\ names_and_locks (linked_state "")
     = [("a", "Novo campo", None, "", false);
        ("b", "Novo campo", Some "a", "origem", true)].
Proof. repeat split; vm_compute; reflexivity. Qed.

Lemma clear_origin_spec g :
  Field.id (clear_origin g) = Field.id g
  /\ Field.ftype (clear_origin g) = Field.ftype g
  /\ Field.cond (clear_origin g) = Field.cond g
  /\ Field.origin_task (clear_origin g) = None
  /\ Field.origin_field (clear_origin g) = None
  /\ if String.eqb (Field.name_lock_reason g) "origem"
     then Field.name_lock_reason (clear_origin g) = ""
          /\ Field.name_locked (clear_origin g) = false
          /\ Field.name (clear_origin g)
             = (if PyStr.truthy (Field.name_before_origin g)
                then Field.name_before_origin g else Field.name g)
     else Field.name_lock_reason (clear_origin g) = Field.name_lock_reason g
          /\ Field.name_locked (clear_origin g)
             = negb (String.eqb (Field.name_lock_reason g) "")
          /\ Field.name (clear_origin g) = Field.name g.
Proof.
  destruct g. unfold clear_origin. cbn.
  destruct (String.eqb name_lock_reason "origem") eqn:E;
    destruct (PyStr.truthy name_before_origin); cbn; rewrite ?E; cbn;
    now repeat split.
Qed.

Lemma unlink_deleted_spec (deleted : string -> bool) fid f :
  deleted fid = true -> after_delete fid f (unlink_deleted deleted f).
Proof.
  intros Hdel. unfold after_delete, unlink_deleted.
  set (g := Field.set_cond _ f).
  assert (Hg : Field.id g = Field.id f /\ Field.ftype g = Field.ftype f
               /\ Field.origin_field g = Field.origin_field f
               /\ Field.name_lock_reason g = Field.name_lock_reason f
               /\ Field.name_before_origin g = Field.name_before_origin f
               /\ Field.name g = Field.name f) by now repeat split.
  destruct Hg as (Gi & Gt & Go & Gr & Gb & Gn).
  assert (Hcond : forall c, In c (Field.cond g) ->
                            In c (Field.cond f) /\ Condition.src_field c <> fid).
  { intros c Hc. unfold g in Hc. cbn in Hc.
    apply filter_In in Hc as [Hin Hk]. split; [exact Hin|].
    intros E. rewrite E, Hdel in Hk. discriminate. }
  rewrite Go.
  destruct (Field.origin_field f) as [o|] eqn:Eo.
  - destruct (deleted o) eqn:Ed.
    + destruct (clear_origin_spec g) as (Ci & Ct & Cc & Cot & Cof & Cl).
      rewrite Ci, Ct, Cc, Cof, Cot. rewrite Gr, Gb, Gn in Cl.
      split; [exact Gi|]. split; [exact Gt|]. split; [exact Hcond|].
      split; [discriminate|]. intros _. now repeat split.
    + rewrite Go.
      split; [exact Gi|]. split; [exact Gt|]. split; [exact Hcond|].
      split; intros [= ->]; congruence.
  - rewrite Go.
    split; [exact Gi|]. split; [exact Gt|]. split; [exact Hcond|].
    split; discriminate.
Qed.

Lemma in_map_fields U ts f' :
  In f' (flat_map Task.fields (map_fields U ts))
  <-> exists f, In f (flat_map Task.fields ts) /\ f' = U f.
Proof.
  unfold map_fields. rewrite in_flat_map. split.
  - intros (t' & Ht' & Hf'). apply in_map_iff in Ht' as (t & <- & Ht).
    cbn in Hf'. apply in_map_iff in Hf' as (f & <- & Hf).
    exists f. split; [|reflexivity]. apply in_flat_map. eauto.
  - intros (f & Hf & ->). apply in_flat_map in Hf as (t & Ht & Hf).
    exists (Task.set_fields (map U (Task.fields t)) t). split.
    + apply in_map_iff. eauto.
    + cbn. now apply in_map.
Qed.

Lemma in_alter_filter (keep : Field.t -> bool) ts : forall i f',
  In f' (flat_map Task.fields
           (alter (fun t => Task.set_fields (List.filter keep (Task.fields t)) t)
              i ts)) ->
  In f' (flat_map Task.fields ts).
Proof.
  induction ts as [|t ts IH]; intros i f' H; [destruct i; exact H|].
  destruct i as [|i]; cbn in H |- *; apply in_app_iff in H as [H|H];
    apply in_app_iff.
  - left. now apply filter_In in H as [H _].
  - now right.
  - now left.
  - right. now apply (IH i).
Qed.

Lemma in_filter_tasks (p : Task.t -> bool) ts f' :
  In f' (flat_map Task.fields (List.filter p ts)) ->
  In f' (flat_map Task.fields ts).
Proof.
  rewrite !in_flat_map. intros (t & Ht & Hf). apply filter_In in Ht as [Ht _].
  eauto.
Qed.

Lemma push_undo_project s : project (_push_undo s) = project s.
Proof. apply push_undo_records. Qed.

Lemma references_cleared_by (deleted : string -> bool) fid p ts' :
  deleted fid = true ->
  (forall f', In f' (flat_map Task.fields ts') ->
              In f' (flat_map Task.fields
                       (map_fields (unlink_deleted deleted) (ProjectModel.tasks p)))) ->
  forall p', ProjectModel.tasks p' = ts' -> references_cleared fid p p'.
Proof.
  intros Hdel Hsub p' Hp' f' Hin. unfold ProjectModel.all_fields in Hin.
  rewrite Hp' in Hin. apply Hsub, in_map_fields in Hin as (f & Hf & ->).
  exists f. split; [exact Hf | now apply unlink_deleted_spec].
Qed.

Lemma in_alter_filter_kept (keep : Field.t -> bool) ts : forall i f,
  In f (flat_map Task.fields ts) -> keep f = true ->
  In f (flat_map Task.fields
          (alter (fun t => Task.set_fields (List.filter keep (Task.fields t)) t)
             i ts)).
Proof.
  induction ts as [|t ts IH]; intros i f H Hk; [inversion H|].
  destruct i as [|i]; cbn in H |- *; apply in_app_iff in H as [H|H];
    apply in_app_iff.
  - left. apply filter_In. now split.
  - now right.
  - now left.
  - right. now apply (IH i).
Qed.

Lemma survivor_after_delete_field fid ts i f :
  In f (flat_map Task.fields ts) -> Field.id f <> fid ->
  exists f',
    In f' (flat_map Task.fields
             (alter
                (fun t =>
                   Task.set_fields
                     (List.filter (fun f => negb (String.eqb (Field.id f) fid))
                        (Task.fields t)) t)
                i (map_fields (unlink_deleted (String.eqb fid)) ts)))
    /\ after_delete fid f f'.
Proof.
  intros Hin Hne.
  pose proof (unlink_deleted_spec (String.eqb fid) fid f (String.eqb_refl fid)) as Hspec.
  exists (unlink_deleted (String.eqb fid) f). split; [|exact Hspec].
  apply in_alter_filter_kept.
  - apply in_map_fields. eauto.
  - destruct Hspec as (Hid & _). rewrite Hid.
    apply negb_true_iff, String.eqb_neq. exact Hne.
Qed.

Lemma survivor_after_delete_task (deleted : string -> bool) fid tid ts u f :
  deleted fid = true ->
  In u ts -> Task.id u <> tid -> In f (Task.fields u) ->
  exists f',
    In f' (flat_map Task.fields
             (List.filter (fun x => negb (String.eqb (Task.id x) tid))
                (map_fields (unlink_deleted deleted) ts)))
    /\ after_delete fid f f'.
Proof.
  intros Hdel Hu Hne Hf.
  exists (unlink_deleted deleted f). split; [|now apply unlink_deleted_spec].
  apply in_flat_map.
  exists (Task.set_fields (map (unlink_deleted deleted) (Task.fields u)) u). split.
  - apply filter_In. split.
    + unfold map_fields. apply in_map_iff. eauto.
    + cbn. apply negb_true_iff, String.eqb_neq. exact Hne.
  - cbn. now apply in_map.
Qed.

(** ** Claim about deleting *)

(** C1, as amended. After a field F is deleted, by [_delete_field] or
    because its task is deleted, every field that is left comes from a
    field of the project before, with no rule whose source is F and with an
    origin that is not F. A field whose origin pointed at F has lost the
    link; if its name was locked for that origin it is unlocked and has the
    name it had before the link, when that name was recorded as a non-empty
    text, and otherwise keeps the name it has; if it is locked for another
    reason it stays locked and keeps its name. The deleted field itself is
    gone from the task shown, and the deleted task from the project. *)
Theorem deleting_a_field_clears_its_references :
  (forall s field_id s',
     _delete_field field_id s = (Quiet, s') ->
     references_cleared field_id (project s) (project s')
     /\ (forall f, In f (ProjectModel.all_fields (project s)) ->
                   Field.id f <> field_id ->
                   exists f', In f' (ProjectModel.all_fields (project s'))
                              /\ after_delete field_id f f')
     /\ (forall ci t' f,
           fst (_get_task None (_push_undo s)) = Some ci ->
           ProjectModel.tasks (project s') !! ci = Some t' ->
           In f (Task.fields t') -> Field.id f <> field_id))
  /\ (forall s ti t F,
        ProjectModel.tasks (project s) !! ti = Some t ->
        In F (Task.fields t) ->
        references_cleared (Field.id F) (project s) (project (delete_task ti true s))
        /\ (forall u f, In u (ProjectModel.tasks (project s)) ->
                        Task.id u <> Task.id t -> In f (Task.fields u) ->
                        exists f',
                          In f' (ProjectModel.all_fields
                                   (project (delete_task ti true s)))
                          /\ after_delete (Field.id F) f f')
        /\ (forall u, In u (ProjectModel.tasks (project (delete_task ti true s))) ->
                      Task.id u <> Task.id t)).
Proof.
  split.
  - intros s field_id s' H. unfold _delete_field in H.
    destruct (ProjectModel.tasks (project s)) as [|t0 ts0] eqn:Ets.
    { injection H as <-. split; [|split].
      - intros f' Hin. unfold ProjectModel.all_fields in Hin.
        rewrite Ets in Hin. inversion Hin.
      - intros f Hin. unfold ProjectModel.all_fields in Hin.
        rewrite Ets in Hin. inversion Hin.
      - intros ci t' f _ Ht'. rewrite Ets in Ht'. destruct ci; discriminate. }
    clear Ets. cbv beta iota zeta in H.
    destruct (get_task_keeps None (_push_undo s)) as (Hp & _).
    rewrite push_undo_project in Hp.
    destruct (_get_task None (_push_undo s)) as [[i|] s2]; cbn [fst snd] in *;
      [|discriminate].
    injection H as <-. cbn [project set_tasks set_project ProjectModel.tasks
                             ProjectModel.set_tasks]. rewrite Hp.
    split; [|split].
    + eapply (references_cleared_by (String.eqb field_id));
        [apply String.eqb_refl | | reflexivity].
      intros f' Hin. now apply in_alter_filter in Hin.
    + intros f Hin Hne. unfold ProjectModel.all_fields. cbn.
      now apply survivor_after_delete_field.
    + intros ci t' f [= <-] Ht' Hf. cbn in Ht'.
      rewrite list_lookup_alter_eq in Ht'.
      destruct (map_fields _ _ !! i) as [t1|]; [|discriminate].
      injection Ht' as <-. cbn in Hf. apply filter_In in Hf as [_ Hk].
      intros E. rewrite E, String.eqb_refl in Hk. discriminate.
  - intros s ti t F Ht HF. unfold delete_task. cbn [negb]. rewrite Ht.
    assert (Hne : bool_decide
                    (list_to_set (C := gset string) (map Field.id (Task.fields t))
                     = ∅) = false).
    { apply bool_decide_eq_false. intros E.
      assert (Hin : Field.id F ∈ (∅ : gset string)).
      { rewrite <- E. apply elem_of_list_to_set, list_elem_of_In.
        now apply in_map. }
      now apply not_elem_of_empty in Hin. }
    assert (Hdel : bool_decide
                     (Field.id F ∈ list_to_set (C := gset string)
                                     (map Field.id (Task.fields t))) = true).
    { apply bool_decide_eq_true, elem_of_list_to_set, list_elem_of_In.
      now apply in_map. }
    unfold cleanup_refs. rewrite Hne.
    match goal with
    | |- context [_refresh_task_combo ?x] =>
        destruct (refresh_task_combo_keeps x) as (-> & _)
    end.
    match goal with
    | |- context [if ?c then _ else _] => destruct c
    end;
      cbn [project set_tasks set_project set_current_task_id ProjectModel.tasks
           ProjectModel.set_tasks]; rewrite push_undo_project.
    all: split;
      [ eapply (references_cleared_by
                  (fun x => bool_decide
                              (x ∈ list_to_set (C := gset string)
                                     (map Field.id (Task.fields t)))));
        [exact Hdel | | reflexivity];
        intros f' Hin; now apply in_filter_tasks in Hin
      | split;
        [ intros u f Hu Hne' Hf; unfold ProjectModel.all_fields; cbn;
          now apply (survivor_after_delete_task _ _ _ _ u)
        | intros u Hu; apply filter_In in Hu as [_ Hk]; intros E;
          rewrite E, String.eqb_refl in Hk; discriminate ] ].
Qed.

Lemma deleting_a_field_clears_its_references_witness :
  references_cleared "a" (project (linked_state "Telefone"))
    (project (snd (_delete_field "a" (linked_state "Telefone"))))
  /\ names_and_locks (snd (_delete_field "a" (linked_state "Telefone")))
     = [("b", "Telefone", None, "", false)].
Proof.
  split.
  - destruct (proj1 deleting_a_field_clears_its_references
                (linked_state "Telefone") "a"
                (snd (_delete_field "a" (linked_state "Telefone")))) as [H _].
    + vm_compute. reflexivity.
    + exact H.
  - vm_compute. reflexivity.
Defined.

(** C1 as stated fails: the field "b" had the empty name when it was
    linked to "a" and took the name of "a"; deleting "a" unlocks "b" and
    clears the link, but "b" keeps the name of "a" instead of going back to
    the empty name it had before the link. *)
Lemma empty_name_is_not_restored :
  names_and_locks (_commit_row_data 0 1 "" true two_fields_state)
  = [("a", "Novo campo", None, "", false); ("b", "", None, "", false)]
  /\ names_and_locks (linked_state "")
     = [("a", "Novo campo", None, "", false);
        ("b", "Novo campo", Some "a", "origem", true)]
  /\ names_and_locks (snd (_delete_field "a" (linked_state "")))
     = [("b", "Novo campo", None, "", false)].
Proof. repeat split; vm_compute; reflexivity. Qed.

(** ** Type and origin of a field *)

Lemma lookup_map {A B} (g : A -> B) l : forall i,
  map g l !! i = option_map g (l !! i).
Proof.
  induction l as [|x l IH]; intros [|i]; try reflexivity. cbn. apply IH.
Qed.

Lemma field_at_update g ti fi s :
  field_at (update_field g ti fi s) ti fi = option_map g (field_at s ti fi).
Proof.
  unfold field_at, update_field. cbn. rewrite list_lookup_alter_eq.
  destruct (ProjectModel.tasks (project s) !! ti) as [t|]; cbn; [|reflexivity].
  rewrite list_lookup_alter_eq. now destruct (Task.fields t !! fi).
Qed.

Lemma field_at_project s1 s2 ti fi :
  project s1 = project s2 -> field_at s1 ti fi = field_at s2 ti fi.
Proof. unfold field_at. now intros ->. Qed.


Lemma get_task_fst_ext task_id a b :
  project a = project b -> current_task_id a = current_task_id b ->
  fst (_get_task task_id a) = fst (_get_task task_id b).
Proof.
  unfold _get_task. intros -> ->.
  destruct (if opt_truthy task_id then task_id else current_task_id b);
    [reflexivity|].
  now destruct (ProjectModel.tasks (project b)).
Qed.

Lemma get_task_again s :
  fst (_get_task None (snd (_get_task None s))) = fst (_get_task None s).
Proof.
  unfold _get_task. cbn [opt_truthy].
  destruct (current_task_id s) as [w|] eqn:E.
  - cbn [snd]. now rewrite E.
  - destruct (ProjectModel.tasks (project s)) as [|t0 ts] eqn:Et; cbn [snd fst].
    + now rewrite E, Et.
    + cbn [current_task_id set_current_task_id project].
      rewrite Et. cbn [index_where]. now rewrite String.eqb_refl.
Qed.

(** Recording the state does not change which task is the one shown. *)
Lemma get_task_after_push s :
  fst (_get_task None (_push_undo s)) = fst (_get_task None s).
Proof.
  rewrite <- (get_task_again s).
  apply get_task_fst_ext.
  - rewrite push_undo_project. symmetry. apply get_task_keeps.
  - unfold _push_undo, _serialize_project.
    destruct (_get_task None s) as [current s1]. reflexivity.
Qed.











(** ** Claim about the object type *)




(** ** The origin of a field *)

(** The origin dialog does not open for a field of type "Objeto". *)
Lemma origin_picker_refuses_object ti fi action s f :
  field_at s ti fi = Some f -> Field.ftype f = "Objeto" ->
  open_origin_picker ti fi action s = (TargetIsObject, s).
Proof.
  intros Hf Hobj. unfold open_origin_picker. rewrite Hf, Hobj. reflexivity.
Qed.

(** What the link copies and locks. *)
Lemma link_origin_spec tid o ro req f :
  Field.id (link_origin tid o ro req f) = Field.id f
  /\ Field.origin_task (link_origin tid o ro req f) = Some tid
  /\ Field.origin_field (link_origin tid o ro req f) = Some (Field.id o)
  /\ Field.name (link_origin tid o ro req f) = Field.name o
  /\ Field.ftype (link_origin tid o ro req f) = Field.ftype o
  /\ Field.options (link_origin tid o ro req f) = Field.options o
  /\ Field.name_lock_reason (link_origin tid o ro req f) = "origem"
  /\ Field.name_locked (link_origin tid o ro req f) = true
  /\ Field.name_before_origin (link_origin tid o ro req f)
     = (if String.eqb (Field.name_lock_reason f) "origem"
        then Field.name_before_origin f else Field.name f).
Proof.
  destruct f. unfold link_origin. cbn.
  destruct (String.eqb name_lock_reason "origem"); cbn; now repeat split.
Qed.

(** With a task and a field picked, OK links the field to the first field
    of that name in the task, which must exist; otherwise it warns and
    changes nothing. *)
Lemma origin_picker_ok ti fi sel_t sel_f ro req s f picked oi shown :
  field_at s ti fi = Some f -> Field.ftype f <> "Objeto" ->
  find (fun t => String.eqb (Task.name t) sel_t) (ProjectModel.tasks (project s))
  = Some picked ->
  PyStr.truthy (Task.id picked) = true ->
  PyStr.truthy sel_f = true -> sel_f <> "-" ->
  index_where (fun t => String.eqb (Task.id t) (Task.id picked))
    (ProjectModel.tasks (project s)) = Some oi ->
  ProjectModel.tasks (project s) !! oi = Some shown ->
  open_origin_picker ti fi (PickOk sel_t sel_f ro req) s
  = match find (fun fld => String.eqb (Field.name fld) sel_f) (Task.fields shown) with
    | Some origin_field =>
        (Quiet,
         update_field (link_origin (Task.id picked) origin_field ro req) ti fi
           (_push_undo s))
    | None => (OriginNotFound, s)
    end.
Proof.
  intros Hf Hplain Hfind Htid Hsel Hdash Hidx Hshown.
  unfold open_origin_picker. rewrite Hf.
  assert (E : String.eqb (Field.ftype f) "Objeto" = false)
    by now apply String.eqb_neq.
  rewrite E, Hfind. cbn [option_map opt_truthy]. rewrite Htid, Hsel.
  assert (E' : String.eqb sel_f "-" = false) by now apply String.eqb_neq.
  rewrite E'. cbn [negb orb].
  unfold _get_task. cbn [opt_truthy]. rewrite Htid, Hidx, Hshown.
  now destruct (find _ (Task.fields shown)).
Qed.

(** The state C5 fails in: the plain field "b" is given the object field
    "a" as its origin and, copying its type, becomes a second field of type
    "Objeto", with an origin. *)
Lemma origin_picker_copies_the_object_type :
  types_and_origins object_and_field_state
  = [("a", "Contrato", "Objeto", None, "objeto");
     ("b", "Novo campo", "Texto", None, "")]
  /\ fst (open_origin_picker 0 1 (PickOk "Cadastro" "Contrato" true false)
            object_and_field_state) = Quiet
  /\ types_and_origins object_as_origin_state
     = [("a", "Contrato", "Objeto", None, "objeto");
        ("b", "Contrato", "Objeto", Some "a", "origem")].
Proof. repeat split; vm_compute; reflexivity. Qed.

(** * Further properties *)

(** ** The bound of the history *)

Lemma pop_cases {A} (l : list A) :
  (l = [] /\ pop l = None)
  \/ exists x r, l = r ++ [x] /\ pop l = Some (x, r).
Proof.
  destruct l as [|a l'] using rev_ind; [now left|].
  right. exists a, l'. split; [reflexivity|apply pop_app].
Qed.

Lemma apply_wrapped_stacks st s :
  undo_stack (snd (_apply_project_dict (Wrapped st) s)) = undo_stack s
  /\ redo_stack (snd (_apply_project_dict (Wrapped st) s)) = redo_stack s.
Proof.
  destruct (apply_project_dict_project (Wrapped st) (sd_project st) s eq_refl)
    as (_ & _ & Hu & Hr).
  now split.
Qed.

Lemma push_undo_stacks s :
  redo_stack (_push_undo s) = []
  /\ (length (undo_stack s) < _UNDO_MAX ->
      undo_stack (_push_undo s) = undo_stack s ++ [fst (_serialize_project s)])
  /\ (_UNDO_MAX <= length (undo_stack s) ->
      undo_stack (_push_undo s)
      = tail (undo_stack s ++ [fst (_serialize_project s)])).
Proof.
  unfold _push_undo.
  destruct (serialize_project_keeps s) as (_ & _ & Hu & _ & _).
  destruct (_serialize_project s) as [snapshot s1]. cbn [fst snd] in *.
  cbn [redo_stack undo_stack set_redo_stack set_undo_stack].
  rewrite Hu. split; [reflexivity|].
  split; intros Hlen.
  - destruct (Nat.ltb _UNDO_MAX (length (undo_stack s ++ [snapshot]))) eqn:E;
      [|reflexivity].
    apply Nat.ltb_lt in E. rewrite length_app in E. cbn [length] in E. lia.
  - destruct (Nat.ltb _UNDO_MAX (length (undo_stack s ++ [snapshot]))) eqn:E;
      [reflexivity|].
    apply Nat.ltb_ge in E. rewrite length_app in E. cbn [length] in E. lia.
Qed.

Lemma length_tail {A} (l : list A) : length (tail l) = length l - 1.
Proof. destruct l; cbn; lia. Qed.

(** X1. The undo and the redo stack together never hold more than
    [_UNDO_MAX] snapshots: recording a state keeps the bound (it empties the
    redo stack and drops the oldest snapshot of a full undo stack), and undo
    and redo move one snapshot from one stack to the other. *)
Theorem history_stays_bounded (s : App) :
  history_bounded s ->
  history_bounded (_push_undo s)
  /\ redo_stack (_push_undo s) = []
  /\ length (undo_stack (undo_action s)) + length (redo_stack (undo_action s))
     = length (undo_stack s) + length (redo_stack s)
  /\ length (undo_stack (redo_action s)) + length (redo_stack (redo_action s))
     = length (undo_stack s) + length (redo_stack s).
Proof.
  unfold history_bounded. intros Hb.
  destruct (push_undo_stacks s) as (Hr & Hlt & Hge).
  split; [|split; [exact Hr|split]].
  - rewrite Hr. cbn [length].
    destruct (Nat.lt_ge_cases (length (undo_stack s)) _UNDO_MAX) as [H|H].
    + rewrite (Hlt H), length_app. cbn [length]. lia.
    + rewrite (Hge H), length_tail, length_app. cbn [length]. lia.
  - destruct (pop_cases (undo_stack s)) as [[E _]|(x & r & E & Hpop)].
    + replace (undo_action s) with s by (unfold undo_action; now rewrite E).
      reflexivity.
    + rewrite (undo_action_restores _ _ _ Hpop).
      destruct (apply_wrapped_stacks x
                  (set_undo_stack r
                     (set_redo_stack
                        (redo_stack s ++ [fst (_serialize_project s)])
                        (snd (_serialize_project s))))) as (-> & ->).
      cbn [undo_stack redo_stack set_undo_stack set_redo_stack].
      rewrite E, !length_app. cbn [length]. lia.
  - destruct (pop_cases (redo_stack s)) as [[E _]|(x & r & E & Hpop)].
    + replace (redo_action s) with s by (unfold redo_action; now rewrite E).
      reflexivity.
    + rewrite (redo_action_restores _ _ _ Hpop).
      destruct (apply_wrapped_stacks x
                  (set_redo_stack r
                     (set_undo_stack
                        (undo_stack s ++ [fst (_serialize_project s)])
                        (snd (_serialize_project s))))) as (-> & ->).
      cbn [undo_stack redo_stack set_undo_stack set_redo_stack].
      rewrite E, !length_app. cbn [length]. lia.
Qed.

Lemma history_stays_bounded_witness :
  history_bounded (_push_undo initial)
  /\ redo_stack (_push_undo initial) = []
  /\ length (undo_stack (undo_action initial))
     + length (redo_stack (undo_action initial))
     = length (undo_stack initial) + length (redo_stack initial)
  /\ length (undo_stack (redo_action initial))
     + length (redo_stack (redo_action initial))
     = length (undo_stack initial) + length (redo_stack initial).
Proof. apply (history_stays_bounded initial). unfold history_bounded. cbn. lia. Defined.

(** ** Reordering fields and tasks *)

Lemma index_where_map {A B} (g : A -> B) (p : B -> bool) l :
  index_where p (map g l) = index_where (fun x => p (g x)) l.
Proof.
  induction l as [|x l IH]; [reflexivity|]. cbn. rewrite IH. reflexivity.
Qed.

(** Which task is shown depends on the identifiers of the tasks and on the
    identifier kept as current only. *)
Lemma get_task_ids task_id a b :
  map Task.id (ProjectModel.tasks (project a))
  = map Task.id (ProjectModel.tasks (project b)) ->
  current_task_id a = current_task_id b ->
  fst (_get_task task_id a) = fst (_get_task task_id b)
  /\ current_task_id (snd (_get_task task_id a))
     = current_task_id (snd (_get_task task_id b)).
Proof.
  unfold _get_task. intros Hids Hcur. rewrite Hcur.
  destruct (if opt_truthy task_id then task_id else current_task_id b) as [w|].
  - cbn [fst snd]. split; [|exact Hcur].
    rewrite <- (index_where_map Task.id (fun i => String.eqb i w)).
    rewrite <- (index_where_map Task.id (fun i => String.eqb i w)
                  (ProjectModel.tasks (project b))).
    now rewrite Hids.
  - destruct (ProjectModel.tasks (project a)) as [|ta la],
             (ProjectModel.tasks (project b)) as [|tb lb];
      try discriminate; cbn [fst snd]; [now split|].
    injection Hids as Hid _. cbn. now rewrite Hid.
Qed.

Lemma get_task_snd_again s :
  snd (_get_task None (snd (_get_task None s))) = snd (_get_task None s).
Proof.
  unfold _get_task. cbn [opt_truthy].
  destruct (current_task_id s) as [w|] eqn:E.
  - cbn [snd]. now rewrite E.
  - destruct (ProjectModel.tasks (project s)) as [|t0 ts] eqn:Et; cbn [snd].
    + now rewrite E, Et.
    + reflexivity.
Qed.

Lemma push_undo_current s :
  current_task_id (_push_undo s) = current_task_id (snd (_get_task None s))
  /\ selected_field_ids (_push_undo s) = selected_field_ids s.
Proof.
  unfold _push_undo, _serialize_project.
  destruct (get_task_keeps None s) as (_ & _ & _ & _ & Hsel).
  destruct (_get_task None s) as [current s1]. cbn [snd] in *.
  now split.
Qed.

(** Once [_get_task] has run there is a current task unless the project
    has no task, and running it again changes nothing. *)
Lemma get_task_settles s :
  (exists w, current_task_id (snd (_get_task None s)) = Some w)
  \/ (current_task_id (snd (_get_task None s)) = None
      /\ ProjectModel.tasks (project s) = []).
Proof.
  unfold _get_task. cbn [opt_truthy].
  destruct (current_task_id s) as [w|] eqn:E.
  - left. exists w. exact E.
  - destruct (ProjectModel.tasks (project s)) as [|t0 ts]; cbn [snd].
    + right. now split.
    + left. now exists (Task.id t0).
Qed.

Lemma get_task_settled x :
  (exists w, current_task_id x = Some w)
  \/ (current_task_id x = None /\ ProjectModel.tasks (project x) = []) ->
  snd (_get_task None x) = x.
Proof.
  unfold _get_task. cbn [opt_truthy].
  intros [(w & ->)|(-> & ->)]; reflexivity.
Qed.

(** The task shown after the state is recorded, for a state in which
    [_get_task] has already run. *)
Lemma get_task_push_settled s :
  _get_task None (_push_undo (snd (_get_task None s)))
  = (fst (_get_task None s), _push_undo (snd (_get_task None s))).
Proof.
  set (s1 := snd (_get_task None s)).
  assert (Hfst : fst (_get_task None (_push_undo s1)) = fst (_get_task None s)).
  { rewrite get_task_after_push. apply get_task_again. }
  assert (Hsnd : snd (_get_task None (_push_undo s1)) = _push_undo s1).
  { apply get_task_settled.
    destruct (push_undo_current s1) as (Hc & _).
    unfold s1 in Hc at 2. rewrite get_task_snd_again in Hc. fold s1 in Hc.
    rewrite Hc, push_undo_project.
    assert (Hp : project s1 = project s) by apply get_task_keeps.
    rewrite Hp. apply get_task_settles. }
  destruct (_get_task None (_push_undo s1)) as [a b]. cbn [fst snd] in *.
  congruence.
Qed.

Lemma insert_head_perm {A} (a y : A) l : forall j,
  l !! j = Some y -> Permutation (a :: l) (y :: <[j := a]> l).
Proof.
  induction l as [|b l IH]; intros [|j] H; try discriminate.
  - injection H as ->. apply perm_swap.
  - cbn in H |- *. apply IH in H.
    etransitivity; [apply perm_swap|].
    etransitivity; [apply perm_skip, H|]. apply perm_swap.
Qed.

Lemma swap_perm {A} (l : list A) : forall i j, Permutation l (swap i j l).
Proof.
  unfold swap. induction l as [|a l IH]; intros i j; [now destruct i|].
  destruct i as [|i], j as [|j]; cbn.
  - reflexivity.
  - destruct (l !! j) as [y|] eqn:E; [|reflexivity]. now apply insert_head_perm.
  - destruct (l !! i) as [x|] eqn:E; [|reflexivity]. now apply insert_head_perm.
  - specialize (IH i j).
    destruct (l !! i) as [x|]; [|reflexivity].
    destruct (l !! j) as [y|]; [|reflexivity].
    now apply perm_skip.
Qed.






Lemma swap_lookup {A} (l : list A) i j x y k :
  l !! i = Some x -> l !! j = Some y ->
  swap i j l !! k
  = if decide (k = j) then Some x
    else if decide (k = i) then Some y else l !! k.
Proof.
  intros Hi Hj. unfold swap. rewrite Hi, Hj.
  pose proof (lookup_lt_Some _ _ _ Hi) as Li.
  pose proof (lookup_lt_Some _ _ _ Hj) as Lj.
  rewrite list_lookup_insert, length_insert.
  destruct (decide (k = j)) as [->|Hkj].
  - destruct (decide (j = j /\ j < length l)) as [_|n]; [reflexivity|].
    exfalso. apply n. now split.
  - destruct (decide (j = k /\ j < length l)) as [[E _]|_]; [now subst|].
    rewrite list_lookup_insert.
    destruct (decide (k = i)) as [->|Hki].
    + destruct (decide (i = i /\ i < length l)) as [_|n]; [reflexivity|].
      exfalso. apply n. now split.
    + destruct (decide (i = k /\ i < length l)) as [[E _]|_]; [now subst|].
      reflexivity.
Qed.

Lemma swap_length {A} (l : list A) i j : length (swap i j l) = length l.
Proof.
  unfold swap. destruct (l !! i); [|reflexivity].
  destruct (l !! j); [|reflexivity]. now rewrite !length_insert.
Qed.

Lemma swap_back {A} (l : list A) i j :
  i < length l -> j < length l -> swap j i (swap i j l) = l.
Proof.
  intros Li Lj.
  destruct (lookup_lt_is_Some_2 l i Li) as [x Hi].
  destruct (lookup_lt_is_Some_2 l j Lj) as [y Hj].
  pose proof (swap_lookup l i j x y) as H1.
  apply list_eq. intros k.
  rewrite (swap_lookup (swap i j l) j i x
             (if decide (i = j) then x else y)).
  - destruct (decide (k = i)) as [->|Hki]; [now rewrite Hi|].
    destruct (decide (k = j)) as [->|Hkj]; [|rewrite (H1 k Hi Hj)].
    + destruct (decide (i = j)) as [->|_]; [now rewrite Hj in Hi|].
      now rewrite Hj.
    + destruct (decide (k = j)); [contradiction|].
      now destruct (decide (k = i)).
  - rewrite (H1 j Hi Hj). now destruct (decide (j = j)).
  - rewrite (H1 i Hi Hj). destruct (decide (i = j)); [reflexivity|].
    now destruct (decide (i = i)).
Qed.

Lemma index_where_Some {A} (p : A -> bool) l i :
  index_where p l = Some i -> exists x, l !! i = Some x /\ p x = true.
Proof.
  revert i. induction l as [|a l IH]; intros i H; [discriminate|].
  cbn in H. destruct (p a) eqn:E.
  - injection H as <-. now exists a.
  - destruct (index_where p l) as [k|]; [|discriminate].
    injection H as <-. apply (IH k eq_refl).
Qed.

Lemma index_where_unique l : forall k x,
  List.NoDup (map Field.id l) -> l !! k = Some x ->
  index_where (fun f => String.eqb (Field.id f) (Field.id x)) l = Some k.
Proof.
  induction l as [|a l IH]; intros k x Hnd Hk; [now destruct k|].
  inversion Hnd as [|? ? Hnotin Hnd']; subst.
  destruct k as [|k]; cbn in Hk |- *.
  - injection Hk as ->. now rewrite String.eqb_refl.
  - destruct (String.eqb (Field.id a) (Field.id x)) eqn:E.
    + apply String.eqb_eq in E. exfalso. apply Hnotin. rewrite E.
      apply in_map. apply (list_elem_of_In l x).
      now apply (list_elem_of_lookup_2 l k).
    + now rewrite (IH k x Hnd' Hk).
Qed.

Lemma alter_fixed {A} (g : A -> A) (l : list A) (i : nat) x :
  l !! i = Some x -> g x = x -> alter g i l = l.
Proof.
  intros Hi Hg. apply list_eq. intros k. rewrite list_lookup_alter.
  destruct (decide (i = k)) as [<-|_]; [|reflexivity].
  rewrite Hi. cbn. now rewrite Hg.
Qed.

Lemma alter_alter {A} (g h : A -> A) (l : list A) (i : nat) :
  alter h i (alter g i l) = alter (fun x => h (g x)) i l.
Proof.
  apply list_eq. intros k.
  destruct (decide (i = k)) as [<-|Hne].
  - rewrite !list_lookup_alter_eq. now destruct (l !! i).
  - now rewrite !list_lookup_alter_ne.
Qed.

Lemma set_tasks_same p : ProjectModel.set_tasks (ProjectModel.tasks p) p = p.
Proof. now destruct p. Qed.

Lemma shown_fields_Some s l :
  shown_fields s = l -> l <> [] ->
  exists ci tk,
    fst (_get_task None s) = Some ci
    /\ ProjectModel.tasks (project s) !! ci = Some tk
    /\ Task.fields tk = l.
Proof.
  unfold shown_fields. intros H Hne.
  destruct (fst (_get_task None s)) as [ci|]; [|congruence].
  destruct (ProjectModel.tasks (project s) !! ci) as [tk|] eqn:E; [|congruence].
  now exists ci, tk.
Qed.

(** What [_move_field] does when the step stays inside the list. *)
Lemma move_field_in_range fid delta s ci tk idx :
  fst (_get_task None s) = Some ci ->
  ProjectModel.tasks (project s) !! ci = Some tk ->
  index_where (fun f => String.eqb (Field.id f) fid) (Task.fields tk) = Some idx ->
  (0 <= Z.of_nat idx + delta < Z.of_nat (length (Task.fields tk)))%Z ->
  _move_field fid delta s
  = set_tasks
      (alter
         (fun t =>
            Task.set_fields
              (swap idx (Z.to_nat (Z.of_nat idx + delta)) (Task.fields t)) t)
         ci (ProjectModel.tasks (project s)))
      (_push_undo (snd (_get_task None s))).
Proof.
  intros Hci Htk Hidx Hrange. unfold _move_field.
  destruct (get_task_keeps None s) as (Hp & _).
  destruct (_get_task None s) as [c s1]. cbn [fst snd] in *. subst c.
  rewrite Hp, Htk, Hidx.
  replace ((0 <=? Z.of_nat idx + delta)
           && (Z.of_nat idx + delta <? Z.of_nat (length (Task.fields tk))))%Z
    with true
    by (symmetry; apply andb_true_iff; split;
        [apply Z.leb_le|apply Z.ltb_lt]; lia).
  now rewrite push_undo_project, Hp.
Qed.

(** X3. In a task whose fields have distinct identifiers, a step of
    [_move_field] that stays inside the list exchanges the field with the
    one [delta] places further, and the opposite step puts every field back
    where it was. *)
Theorem move_field_and_back (fid : string) (delta : Z) (s : App) (idx : nat) :
  List.NoDup (map Field.id (shown_fields s)) ->
  index_where (fun f => String.eqb (Field.id f) fid) (shown_fields s) = Some idx ->
  (0 <= Z.of_nat idx + delta < Z.of_nat (length (shown_fields s)))%Z ->
  shown_fields (_move_field fid delta s)
  = swap idx (Z.to_nat (Z.of_nat idx + delta)) (shown_fields s)
  /\ project (_move_field fid (- delta) (_move_field fid delta s)) = project s.
Proof.
  intros Hnd Hidx Hrange.
  destruct (shown_fields_Some s _ eq_refl) as (ci & tk & Hci & Htk & Hfs).
  { intros E. rewrite E in Hidx. discriminate. }
  rewrite <- Hfs in Hnd, Hidx, Hrange |- *.
  set (j := Z.to_nat (Z.of_nat idx + delta)) in *.
  set (g := fun t => Task.set_fields (swap idx j (Task.fields t)) t).
  pose proof (move_field_in_range fid delta s ci tk idx Hci Htk Hidx Hrange) as Hmove.
  fold j in Hmove. fold g in Hmove.
  set (s' := _move_field fid delta s) in *.
  assert (Hp' : project s'
                = ProjectModel.set_tasks
                    (alter g ci (ProjectModel.tasks (project s))) (project s)).
  { rewrite Hmove. unfold set_tasks. cbn [project set_project].
    rewrite push_undo_project.
    now destruct (get_task_keeps None s) as (-> & _). }
  assert (Hci' : fst (_get_task None s') = Some ci).
  { rewrite <- Hci.
    pose proof (get_task_push_settled s) as Hset.
    destruct (get_task_ids None s' (_push_undo (snd (_get_task None s))))
      as (-> & _).
    - rewrite Hp', push_undo_project.
      destruct (get_task_keeps None s) as (-> & _). cbn.
      clear. generalize ci.
      induction (ProjectModel.tasks (project s)) as [|t l IH]; intros [|c];
        cbn; try reflexivity; now rewrite IH.
    - now rewrite Hmove.
    - now rewrite Hset. }
  assert (Htk' : ProjectModel.tasks (project s') !! ci = Some (g tk)).
  { rewrite Hp'. cbn. now rewrite list_lookup_alter_eq, Htk. }
  assert (Lidx : idx < length (Task.fields tk)).
  { destruct (index_where_Some _ _ _ Hidx) as (x & Hx & _).
    now apply lookup_lt_Some in Hx. }
  assert (Lj : j < length (Task.fields tk)) by (unfold j; lia).
  split.
  - unfold shown_fields. now rewrite Hci', Htk'.
  - destruct (index_where_Some _ _ _ Hidx) as (x & Hx & Hid).
    apply String.eqb_eq in Hid.
    destruct (lookup_lt_is_Some_2 _ _ Lj) as [y Hy].
    assert (Hidx' : index_where (fun f => String.eqb (Field.id f) fid)
                      (Task.fields (g tk)) = Some j).
    { rewrite <- Hid. apply index_where_unique.
      - cbn. eapply Permutation_NoDup; [|exact Hnd].
        apply Permutation_map, swap_perm.
      - cbn. rewrite (swap_lookup _ idx j x y j Hx Hy).
        now destruct (decide (j = j)). }
    assert (Hback : Z.to_nat (Z.of_nat j + - delta) = idx) by (unfold j; lia).
    rewrite (move_field_in_range fid (- delta) s' ci (g tk) j Hci' Htk' Hidx').
    2:{ cbn. rewrite swap_length. unfold j. lia. }
    rewrite Hback. unfold set_tasks. cbn [project set_project].
    rewrite push_undo_project.
    destruct (get_task_keeps None s') as (-> & _).
    rewrite Hp'. cbn. rewrite alter_alter.
    rewrite (alter_fixed _ _ ci tk Htk).
    + now destruct (project s).
    + cbn. rewrite swap_back by assumption. now destruct tk.
Qed.

Lemma move_field_and_back_witness :
  map Field.id (shown_fields (_move_field "a" 1 two_fields_state)) = ["b"; "a"]
  /\ project (_move_field "a" (-1) (_move_field "a" 1 two_fields_state))
     = project two_fields_state.
Proof.
  destruct (move_field_and_back "a" 1 two_fields_state 0) as [H1 H2].
  - vm_compute. repeat constructor; cbn; intuition discriminate.
  - vm_compute. reflexivity.
  - vm_compute. split; [discriminate|reflexivity].
  - split; [rewrite H1; vm_compute; reflexivity | exact H2].
Defined.

(** X4. A step of [_move_field] that would leave the list (the first field
    moved up, the last one moved down) is ignored, as is a move of a field
    the task shown does not have: the project stays as it is and nothing is
    recorded, so that the redo stack is kept. *)
Theorem move_field_past_the_ends_is_ignored (fid : string) (delta : Z) (s : App) :
  match index_where (fun f => String.eqb (Field.id f) fid) (shown_fields s) with
  | Some idx =>
      (Z.of_nat idx + delta < 0
       \/ Z.of_nat (length (shown_fields s)) <= Z.of_nat idx + delta)%Z
  | None => True
  end ->
  project (_move_field fid delta s) = project s
  /\ undo_stack (_move_field fid delta s) = undo_stack s
  /\ redo_stack (_move_field fid delta s) = redo_stack s.
Proof.
  unfold shown_fields, _move_field.
  destruct (get_task_keeps None s) as (Hp & Hu & Hr & _).
  destruct (_get_task None s) as [[ci|] s1]; cbn [fst snd] in *;
    [|now repeat split].
  rewrite Hp.
  destruct (index_where _ _) as [idx|]; [|now repeat split].
  intros Hout.
  replace ((0 <=? Z.of_nat idx + delta)
           && (Z.of_nat idx + delta
               <? Z.of_nat
                    (length
                       match ProjectModel.tasks (project s) !! ci with
                       | Some t => Task.fields t
                       | None => []
                       end)))%Z
    with false; [now repeat split|].
  symmetry. apply andb_false_iff.
  destruct Hout as [H|H]; [left; apply Z.leb_gt|right; apply Z.ltb_ge]; lia.
Qed.

Lemma move_field_past_the_ends_is_ignored_witness :
  project (_move_field "a" (-1) two_fields_state) = project two_fields_state
  /\ undo_stack (_move_field "a" (-1) two_fields_state)
     = undo_stack two_fields_state
  /\ redo_stack (_move_field "a" (-1) two_fields_state)
     = redo_stack two_fields_state.
Proof.
  apply (move_field_past_the_ends_is_ignored "a" (-1) two_fields_state).
  vm_compute. left. reflexivity.
Defined.

(** ** Deleting the selected fields *)



Lemma map_task_id_alter (g : Task.t -> Task.t) ts :
  (forall t, Task.id (g t) = Task.id t) ->
  forall i, map Task.id (alter g i ts) = map Task.id ts.
Proof.
  intros Hg. induction ts as [|t l IH]; intros [|i]; cbn; try reflexivity.
  - now rewrite Hg.
  - now rewrite IH.
Qed.

Lemma map_task_id_map_fields U ts :
  map Task.id (map_fields U ts) = map Task.id ts.
Proof. unfold map_fields. rewrite map_map. now apply map_ext. Qed.



(** ** Geometry of windows and of the table *)

(** X6. A window that fits in the bounds is placed wholly inside them by
    [_clamp_to_bounds], and is left where it is when it already is inside;
    one that does not fit goes no further left or up than the bounds. *)
Theorem clamp_keeps_the_window_inside (x y width height x0 y0 x1 y1 : Z) :
  (x0 + width <= x1)%Z -> (y0 + height <= y1)%Z ->
  let '(cx, cy) := _clamp_to_bounds x y width height (x0, y0, x1, y1) in
  (x0 <= cx /\ cx + width <= x1 /\ y0 <= cy /\ cy + height <= y1)%Z
  /\ ((x0 <= x /\ x + width <= x1)%Z -> cx = x)
  /\ ((y0 <= y /\ y + height <= y1)%Z -> cy = y).
Proof. unfold _clamp_to_bounds. lia. Qed.

Lemma clamp_keeps_the_window_inside_witness :
  let '(cx, cy) :=
    _clamp_to_bounds 1900 (-20) 400 300 (0, 0, 1920, 1080)%Z in
  (0 <= cx /\ cx + 400 <= 1920 /\ 0 <= cy /\ cy + 300 <= 1080)%Z
  /\ ((0 <= 1900 /\ 1900 + 400 <= 1920)%Z -> cx = 1900%Z)
  /\ ((0 <= -20 /\ -20 + 300 <= 1080)%Z -> cy = (-20)%Z).
Proof.
  apply (clamp_keeps_the_window_inside 1900 (-20) 400 300 0 0 1920 1080); lia.
Defined.

Lemma fold_left_add_from (l : list Z) (a : Z) :
  fold_left Z.add l a = (a + fold_left Z.add l 0)%Z.
Proof.
  revert a. induction l as [|x l IH]; intros a; cbn [fold_left]; [lia|].
  rewrite (IH (a + x)%Z), (IH (0 + x)%Z). lia.
Qed.

Lemma min_w_least (k : string) : (40 <= PyDict.get_default MIN_W k 60)%Z.
Proof.
  unfold PyDict.get_default, MIN_W. cbn [PyDict.get].
  repeat (match goal with
          | |- context [String.eqb ?a ?b] => destruct (String.eqb a b)
          end; [lia|]).
  lia.
Qed.

(** The width of the columns [cols] laid out with [gap] between them. *)
Lemma total_width_cons (c : Column) (rest : list Column) (gap : Z) :
  _total_table_width (Some (c :: rest)) [] gap
  = (col_width (fst (fst c)) (snd c)
     + match rest with
       | [] => 0
       | _ => gap + _total_table_width (Some rest) [] gap
       end)%Z.
Proof.
  unfold _total_table_width. cbn [cols_or map fold_left length].
  rewrite fold_left_add_from.
  destruct rest as [|d rest]; [cbn; lia|].
  cbn [cols_or map fold_left length].
  rewrite (fold_left_add_from _ (0 + _)%Z).
  rewrite !Z.max_r by lia. rewrite !Nat2Z.inj_succ. ring.
Qed.

Lemma positions_from_spec (gap : Z) (cols : list Column) :
  forall x,
    (forall i k px w,
       positions_from x gap cols !! i = Some (k, px, w) ->
       (PyDict.get_default MIN_W k 60 <= w)%Z
       /\ ((0 <= gap)%Z ->
           (x <= px /\ px + w <= x + _total_table_width (Some cols) [] gap)%Z))
    /\ (forall i k px w k' px' w',
          positions_from x gap cols !! i = Some (k, px, w) ->
          positions_from x gap cols !! S i = Some (k', px', w') ->
          px' = (px + w + gap)%Z)
    /\ (forall k px w,
          last (positions_from x gap cols) = Some (k, px, w) ->
          (px + w = x + _total_table_width (Some cols) [] gap)%Z).
Proof.
  induction cols as [|[[key lbl] w0] rest IH]; intros x.
  { repeat split; intros; discriminate. }
  destruct (IH (x + col_width key w0 + gap)%Z) as (IH1 & IH2 & IH3).
  rewrite total_width_cons. cbn [fst snd positions_from].
  pose proof (min_w_least key) as Hmin.
  assert (Hw : (40 <= col_width key w0)%Z) by (unfold col_width; lia).
  assert (Hrest : (0 <= gap)%Z -> rest <> [] ->
                  (0 <= _total_table_width (Some rest) [] gap)%Z).
  { intros Hg Hne. destruct rest as [|[[k1 l1] w1] r1]; [contradiction|].
    destruct (IH1 0 k1 (x + col_width key w0 + gap)%Z (col_width k1 w1) eq_refl)
      as (_ & H).
    pose proof (min_w_least k1). unfold col_width in H |- *. lia. }
  split; [|split].
  - intros [|i] k px w H.
    + injection H as <- <- <-. split; [unfold col_width; lia|].
      intros Hg. destruct rest; [lia|].
      specialize (Hrest Hg ltac:(discriminate)). lia.
    + cbn in H. destruct (IH1 i k px w H) as (Hk & Hin). split; [exact Hk|].
      intros Hg. destruct rest as [|d r]; [destruct i; discriminate|].
      specialize (Hin Hg). lia.
  - intros [|i] k px w k' px' w' H H'.
    + injection H as <- <- <-. cbn in H'.
      destruct rest as [|[[k1 l1] w1] r1]; [discriminate|].
      cbn in H'. now injection H' as _ <- _.
    + cbn in H, H'. now apply (IH2 i k px w k' px' w').
  - intros k px w H. destruct rest as [|[[k1 l1] w1] r1].
    + cbn in H. injection H as <- <- <-. lia.
    + assert (Hl : last (positions_from (x + col_width key w0 + gap) gap
                            ((k1, l1, w1) :: r1)) = Some (k, px, w)).
      { cbn [positions_from] in H |- *. cbn [fst snd] in H |- *.
        exact H. }
      specialize (IH3 k px w Hl). lia.
Qed.

Lemma total_width_override cols_override cols gap :
  _total_table_width cols_override cols gap
  = _total_table_width (Some (cols_or cols_override cols)) [] gap.
Proof.
  unfold _total_table_width.
  now destruct cols_override as [[|c l]|], cols.
Qed.

(** X7. [_col_positions] and [_total_table_width] agree: the first column
    starts at 0, every column is at least as wide as its minimum, each next
    column starts one gap after the end of the one before, and the last
    column ends exactly at the total width. With a gap that is not negative
    all columns lie within the total width. *)
Theorem columns_tile_the_table
  (cols_override : option (list Column)) (cols : list Column) (gap : Z) :
  let ps := _col_positions cols_override cols gap in
  let total := _total_table_width cols_override cols gap in
  (forall k px w, ps !! 0 = Some (k, px, w) -> px = 0%Z)
  /\ (forall i k px w,
        ps !! i = Some (k, px, w) ->
        (PyDict.get_default MIN_W k 60 <= w)%Z
        /\ ((0 <= gap)%Z -> (0 <= px /\ px + w <= total)%Z))
  /\ (forall i k px w k' px' w',
        ps !! i = Some (k, px, w) -> ps !! S i = Some (k', px', w') ->
        px' = (px + w + gap)%Z)
  /\ (forall k px w, last ps = Some (k, px, w) -> (px + w)%Z = total).
Proof.
  cbv zeta. unfold _col_positions. rewrite total_width_override.
  destruct (positions_from_spec gap (cols_or cols_override cols) 0)
    as (H1 & H2 & H3).
  split; [|split; [|split]].
  - intros k px w H. destruct (cols_or cols_override cols) as [|[[k0 l0] w0] r];
      [discriminate|]. cbn in H. now injection H as _ <- _.
  - intros i k px w H. destruct (H1 i k px w H) as (Hk & Hin).
    split; [exact Hk|]. intros Hg. specialize (Hin Hg). lia.
  - exact H2.
  - intros k px w H. rewrite (H3 k px w H). lia.
Qed.

(** ** Sorting with a key *)

Section SortByFacts.

Context {A K : Type}.
Variable key : A -> K.
Variable before : K -> K -> bool.

Lemma insert_by_perm x l : Permutation (x :: l) (insert_by key before x l).
Proof.
  induction l as [|h t IH]; cbn; [reflexivity|].
  destruct (before (key h) (key x)); [|reflexivity].
  etransitivity; [apply perm_swap|]. now apply perm_skip.
Qed.

Lemma sort_by_perm l : Permutation l (sort_by key before l).
Proof.
  induction l as [|x l IH]; cbn; [reflexivity|].
  etransitivity; [apply perm_skip, IH|]. apply insert_by_perm.
Qed.

Hypothesis before_asym : forall a b, before a b = true -> before b a = false.
Hypothesis not_before_trans : forall a b c,
  before b a = false -> before c b = false -> before c a = false.

Lemma insert_by_sorted x l :
  StronglySorted (not_after key before) l ->
  StronglySorted (not_after key before) (insert_by key before x l).
Proof.
  induction 1 as [|h t Hs IH Hall]; cbn.
  - repeat constructor.
  - destruct (before (key h) (key x)) eqn:E.
    + constructor; [exact IH|].
      apply (Permutation_Forall (insert_by_perm x t)).
      constructor; [|exact Hall]. unfold not_after. now apply before_asym.
    + constructor; [now constructor|].
      constructor; [exact E|].
      eapply Forall_impl; [exact Hall|].
      intros y Hy. unfold not_after in *. eapply not_before_trans; eauto.
Qed.

Lemma sort_by_sorted l :
  StronglySorted (not_after key before) (sort_by key before l).
Proof.
  induction l as [|x l IH]; cbn; [constructor|]. now apply insert_by_sorted.
Qed.

End SortByFacts.

(** Sorting keeps the items of one class in their order, when the items
    of a class have the same key. *)
Lemma insert_by_stable {A K} (key : A -> K) (before : K -> K -> bool)
  (same : A -> bool) x l :
  (forall a b, same a = true -> same b = true ->
               before (key a) (key b) = false) ->
  List.filter same (insert_by key before x l) = List.filter same (x :: l).
Proof.
  intros Hsame. induction l as [|h t IH]; [reflexivity|].
  cbn [insert_by]. destruct (before (key h) (key x)) eqn:E; [|reflexivity].
  cbn [List.filter] in *. rewrite IH.
  destruct (same x) eqn:Ex; [|reflexivity].
  destruct (same h) eqn:Eh; [|reflexivity].
  rewrite (Hsame h x Eh Ex) in E. discriminate.
Qed.

Lemma sort_by_stable {A K} (key : A -> K) (before : K -> K -> bool)
  (same : A -> bool) l :
  (forall a b, same a = true -> same b = true ->
               before (key a) (key b) = false) ->
  List.filter same (sort_by key before l) = List.filter same l.
Proof.
  intros Hsame. induction l as [|x l IH]; [reflexivity|].
  cbn [sort_by fold_right]. rewrite insert_by_stable by exact Hsame.
  cbn [List.filter]. fold (sort_by key before l). now rewrite IH.
Qed.

(** ** The library of templates *)

Lemma str_of_nat_inj a b : str_of_nat a = str_of_nat b -> a = b.
Proof.
  unfold str_of_nat. intros H. apply Unsigned.to_uint_inj.
  pose proof (NilEmpty.usu (Nat.to_uint a)) as Ha.
  pose proof (NilEmpty.usu (Nat.to_uint b)) as Hb.
  rewrite H in Ha. rewrite Ha in Hb. now injection Hb.
Qed.

Lemma copy_label_inj base a b :
  base +:+ " (" +:+ str_of_nat a +:+ ")" = base +:+ " (" +:+ str_of_nat b +:+ ")" ->
  a = b.
Proof.
  intros H. apply String.app_inj in H. apply String.app_inj in H.
  apply append_cancel_r in H. now apply str_of_nat_inj.
Qed.

Section StoreFacts.

Variable P : Type.
Implicit Types (items : list (TemplateStore.Template P)).

Lemma existsb_name_In items name :
  existsb (fun t => String.eqb (TemplateStore.tpl_name t) name) items = true
  <-> In name (map TemplateStore.tpl_name items).
Proof.
  rewrite existsb_exists, in_map_iff. split.
  - intros (t & Ht & E). apply String.eqb_eq in E. eauto.
  - intros (t & E & Ht). exists t. split; [exact Ht|]. now apply String.eqb_eq.
Qed.

(** The loop stops at the first name that is free, and with as much fuel
    as there are entries it always finds one. *)
Lemma copy_name_tries items base : forall fuel n,
  exists k,
    k <= fuel
    /\ TemplateStore.copy_name fuel base n items
       = base +:+ " (" +:+ str_of_nat (n + k) +:+ ")"
    /\ (forall j, j < k ->
          In (base +:+ " (" +:+ str_of_nat (n + j) +:+ ")")
             (map TemplateStore.tpl_name items))
    /\ (k < fuel ->
        ~ In (TemplateStore.copy_name fuel base n items)
             (map TemplateStore.tpl_name items)).
Proof.
  induction fuel as [|fuel IH]; intros n.
  - exists 0. cbn. rewrite Nat.add_0_r. repeat split; [lia|lia|lia].
  - cbn [TemplateStore.copy_name].
    destruct (existsb _ items) eqn:E.
    + destruct (IH (S n)) as (k & Hk & Hname & Hbefore & Hfree).
      exists (S k). split; [lia|]. split; [|split].
      * rewrite Hname. now replace (S n + k) with (n + S k) by lia.
      * intros [|j] Hj.
        -- rewrite Nat.add_0_r. now apply existsb_name_In.
        -- replace (n + S j) with (S n + j) by lia. apply Hbefore. lia.
      * intros Hlt. apply Hfree. lia.
    + exists 0. rewrite Nat.add_0_r. split; [lia|]. split; [reflexivity|].
      split; [lia|]. intros _ Hin. apply existsb_name_In in Hin. congruence.
Qed.

Lemma copy_name_fresh items base n :
  ~ In (TemplateStore.copy_name (length items) base n items)
       (map TemplateStore.tpl_name items).
Proof.
  destruct (copy_name_tries items base (length items) n)
    as (k & Hk & Hname & Hbefore & Hfree).
  destruct (Nat.eq_dec k (length items)) as [->|Hne]; [|apply Hfree; lia].
  intros Hin. rewrite Hname in Hin.
  set (label := fun j => base +:+ " (" +:+ str_of_nat (n + j) +:+ ")").
  assert (Hnd : List.NoDup (map label (seq 0 (S (length items))))).
  { apply Injective_map_NoDup; [|apply seq_NoDup].
    intros a b Hab. apply copy_label_inj in Hab. lia. }
  assert (Hincl : incl (map label (seq 0 (S (length items))))
                    (map TemplateStore.tpl_name items)).
  { intros x Hx. apply in_map_iff in Hx as (j & <- & Hj).
    apply in_seq in Hj.
    destruct (Nat.eq_dec j (length items)) as [->|Hj']; [exact Hin|].
    apply Hbefore. lia. }
  pose proof (NoDup_incl_length Hnd Hincl) as Hlen.
  rewrite !length_map, length_seq in Hlen. lia.
Qed.

Lemma find_none_all {B} (p : B -> bool) (l : list B) :
  (forall x, In x l -> p x = false) -> find p l = None.
Proof.
  induction l as [|x l IH]; intros H; [reflexivity|]. cbn.
  rewrite (H x (or_introl eq_refl)). apply IH. intros y Hy. apply H. now right.
Qed.

Lemma find_sort_by (p : TemplateStore.Template P -> bool) items
  (before : string -> string -> bool) :
  (find p (sort_by TemplateStore.tpl_updated_at before items) = None)
  <-> find p items = None.
Proof.
  pose proof (sort_by_perm TemplateStore.tpl_updated_at before items) as Hperm.
  split; intros H; apply find_none_all; intros x Hx.
  - eapply find_none in H; [exact H|]. eapply Permutation_in; eauto.
  - eapply find_none in H; [exact H|].
    eapply Permutation_in; [symmetry|]; eauto.
Qed.

Lemma replace_first_keeps name project now items :
  map TemplateStore.tpl_name (TemplateStore.replace_first name project now items)
  = map TemplateStore.tpl_name items
  /\ map TemplateStore.tpl_id (TemplateStore.replace_first name project now items)
     = map TemplateStore.tpl_id items.
Proof.
  induction items as [|t l [IH1 IH2]]; [now split|]. cbn.
  destruct (String.eqb (TemplateStore.tpl_name t) name); cbn; [now split|].
  now rewrite IH1, IH2.
Qed.

Lemma rename_first_spec tmpl_id new_name now items items' :
  TemplateStore.rename_first tmpl_id new_name now items = Some items' ->
  exists l1 t l2,
    items = l1 ++ t :: l2
    /\ TemplateStore.tpl_id t = tmpl_id
    /\ (forall x, In x l1 -> TemplateStore.tpl_id x <> tmpl_id)
    /\ items'
       = l1 ++ TemplateStore.mkTemplate (TemplateStore.tpl_id t) new_name
                 (TemplateStore.tpl_created_at t) now
                 (TemplateStore.tpl_project t) :: l2.
Proof.
  revert items'. induction items as [|t l IH]; intros items' H; [discriminate|].
  cbn in H. destruct (String.eqb (TemplateStore.tpl_id t) tmpl_id) eqn:E.
  - injection H as <-. apply String.eqb_eq in E.
    exists [], t, l. repeat split; [exact E|]. intros x [].
  - destruct (TemplateStore.rename_first tmpl_id new_name now l) as [l'|];
      [|discriminate].
    injection H as <-.
    destruct (IH l' eq_refl) as (l1 & u & l2 & -> & Hu & Hl1 & ->).
    exists (t :: l1), u, l2. repeat split; [exact Hu|].
    intros x [<-|Hx]; [now apply String.eqb_neq|now apply Hl1].
Qed.

Lemma rename_first_None tmpl_id new_name now items :
  TemplateStore.rename_first tmpl_id new_name now items = None
  <-> find (fun t => String.eqb (TemplateStore.tpl_id t) tmpl_id) items = None.
Proof.
  induction items as [|t l IH]; [now split|]. cbn.
  destruct (String.eqb (TemplateStore.tpl_id t) tmpl_id); [now split|].
  rewrite <- IH.
  now destruct (TemplateStore.rename_first tmpl_id new_name now l).
Qed.

Lemma NoDup_map_filter {B} (g : TemplateStore.Template P -> B) keep items :
  List.NoDup (map g items) -> List.NoDup (map g (List.filter keep items)).
Proof.
  induction items as [|t l IH]; intros H; [constructor|].
  cbn in H |- *. apply NoDup_cons_iff in H as [Hn Hd].
  destruct (keep t); [|now apply IH].
  cbn. constructor; [|now apply IH].
  intros Hin. apply Hn. apply in_map_iff in Hin as (x & E & Hx).
  apply filter_In in Hx as [Hx _]. apply in_map_iff. eauto.
Qed.

Lemma NoDup_snoc {B} (l : list B) x :
  List.NoDup l -> ~ In x l -> List.NoDup (l ++ [x]).
Proof.
  intros Hd Hn. apply List.NoDup_app; [exact Hd|repeat constructor; intros []|].
  intros y Hy [<-|[]]. contradiction.
Qed.

End StoreFacts.

Lemma save_template_well_kept {P} (file : TemplateStore.TemplateFile P)
  name project (replace copy : bool) now uid :
  well_kept file -> ~ In uid (template_ids file) ->
  (find (fun t => String.eqb (TemplateStore.tpl_name t) name)
     (TemplateStore._read file) = None
   \/ replace = true \/ copy = true) ->
  well_kept (snd (TemplateStore.save_template name project replace copy now uid file)).
Proof.
  unfold well_kept, template_ids, TemplateStore.save_template.
  intros [Hn Hi] Huid Hcase.
  set (items := TemplateStore._read file) in *.
  assert (Hnew : forall nm,
            ~ In nm (map TemplateStore.tpl_name items) ->
            List.NoDup
              (map TemplateStore.tpl_name
                 (items ++ [TemplateStore.mkTemplate uid nm now now project]))
            /\ List.NoDup
                 (map TemplateStore.tpl_id
                    (items ++ [TemplateStore.mkTemplate uid nm now now project]))).
  { intros nm Hnm. rewrite !map_app. cbn.
    split; now apply NoDup_snoc. }
  destruct (find _ items) as [existing|] eqn:Ef.
  - destruct replace.
    + cbn. destruct (replace_first_keeps P name project now items) as [-> ->].
      now split.
    + destruct copy.
      * cbn. apply Hnew. apply copy_name_fresh.
      * destruct Hcase as [H|[H|H]]; discriminate.
  - cbn. apply Hnew. intros Hin.
    apply existsb_name_In in Hin. apply existsb_exists in Hin as (t & Ht & E).
    eapply find_none in Ef; [|exact Ht]. cbn in Ef. congruence.
Qed.

(** X8. A library in which no two templates share a name or an identifier
    stays so under [save_flow_as_template] (whatever the user answers: the
    copy gets the first free name "name (n)", n from 2, and the loop that
    looks for it ends), under [rename] (which refuses a name another
    template has) and under [delete]. *)
Theorem library_stays_well_kept {P} (file : TemplateStore.TemplateFile P) :
  well_kept file ->
  (forall answer rep project now uid,
     ~ In uid (template_ids file) ->
     well_kept
       (snd (TemplateStore.save_flow_as_template answer rep project now uid file)))
  /\ (forall tmpl_id new_name now,
        well_kept (snd (TemplateStore.rename tmpl_id new_name now file)))
  /\ (forall tmpl_id, well_kept (snd (TemplateStore.delete tmpl_id file))).
Proof.
  intros Hwk. split; [|split].
  - intros [name|] rep project now uid Huid; [|exact Hwk].
    unfold TemplateStore.save_flow_as_template. cbn [snd].
    destruct (find _ (TemplateStore.list_all file)) as [x|] eqn:Ef.
    + destruct rep; apply save_template_well_kept; auto.
    + apply save_template_well_kept; auto. left.
      now apply (find_sort_by P) in Ef.
  - intros tmpl_id new_name now. unfold TemplateStore.rename.
    destruct (existsb _ _) eqn:Eex; [exact Hwk|].
    destruct (TemplateStore.rename_first _ _ _ _) as [items'|] eqn:Er;
      [|exact Hwk].
    cbn [snd]. destruct Hwk as [Hn Hi]. unfold well_kept. cbn.
    apply rename_first_spec in Er as (l1 & t & l2 & E & Ht & _ & ->).
    rewrite E in Hn, Hi, Eex. rewrite !map_app in *. cbn in *.
    split; [|exact Hi].
    apply NoDup_remove in Hn as [Hn _].
    apply (proj2 (NoDup_Add (Add_app new_name _ _))). split; [exact Hn|].
    intros Hin. rewrite <- map_app in Hin.
    apply in_map_iff in Hin as (x & Ex & Hx).
    assert (Hid : TemplateStore.tpl_id x = tmpl_id).
    { assert (Hall : forall y, In y (l1 ++ t :: l2) ->
                (String.eqb (TemplateStore.tpl_name y) new_name
                 && negb (String.eqb (TemplateStore.tpl_id y) tmpl_id)) = false).
      { intros y Hy. destruct (_ && _) eqn:Ey; [|reflexivity].
        assert (existsb
                  (fun t0 => String.eqb (TemplateStore.tpl_name t0) new_name
                             && negb (String.eqb (TemplateStore.tpl_id t0) tmpl_id))
                  (l1 ++ t :: l2) = true)
          by (apply existsb_exists; eauto).
        congruence. }
      specialize (Hall x).
      rewrite Ex, String.eqb_refl in Hall. cbn in Hall.
      apply negb_false_iff, String.eqb_eq in Hall; [exact Hall|].
      apply in_app_iff in Hx as [Hx|Hx]; apply in_app_iff;
        [now left|right; now right]. }
    apply NoDup_remove in Hi as [_ Hi]. apply Hi.
    rewrite <- map_app. rewrite Ht, <- Hid. now apply in_map.
  - intros tmpl_id. unfold TemplateStore.delete.
    destruct (Nat.eqb _ _); [exact Hwk|]. cbn [snd].
    destruct Hwk as [Hn Hi]. split; cbn; now apply NoDup_map_filter.
Qed.

Lemma library_stays_well_kept_witness :
  map TemplateStore.tpl_name
    (TemplateStore._read
       (snd (TemplateStore.save_flow_as_template (Some "Cadastro") false "p3"
               "2024-04-01T00:00:00Z" "u3" two_templates)))
  = ["Cadastro"; "Cadastro (2)"; "Cadastro (3)"]
  /\ well_kept
       (snd (TemplateStore.save_flow_as_template (Some "Cadastro") false "p3"
               "2024-04-01T00:00:00Z" "u3" two_templates)).
Proof.
  split; [vm_compute; reflexivity|].
  apply (library_stays_well_kept two_templates).
  - split; vm_compute; repeat constructor; cbn; intuition discriminate.
  - vm_compute. intuition discriminate.
Defined.

Lemma find_app_split {B} (p : B -> bool) (l1 l2 : list B) :
  find p (l1 ++ l2)
  = match find p l1 with Some x => Some x | None => find p l2 end.
Proof.
  induction l1 as [|x l IH]; [reflexivity|]. cbn. now destruct (p x).
Qed.

Lemma find_filter_other {B} (p q : B -> bool) (l : list B) :
  (forall x, p x = true -> q x = true) ->
  find p (List.filter q l) = find p l.
Proof.
  intros Hpq. induction l as [|x l IH]; [reflexivity|]. cbn.
  destruct (q x) eqn:Eq; cbn.
  - now destruct (p x).
  - destruct (p x) eqn:Ep; [|exact IH]. apply Hpq in Ep. congruence.
Qed.

Lemma filter_all_length {B} (q : B -> bool) (l : list B) :
  length (List.filter q l) = length l <-> List.filter q l = l.
Proof.
  split; [|now intros ->]. induction l as [|x l IH]; [reflexivity|]. cbn.
  destruct (q x); cbn.
  - intros [= H]. now rewrite IH.
  - intros H. pose proof (filter_length_le q l). lia.
Qed.

(** X9. Looking templates up. After [save_template] adds an entry (the
    name is new, or no replacement is asked for) under a fresh identifier,
    [get] finds that entry, with the project given, and finds what it found
    before under every other identifier. After [delete], [get] finds
    nothing under the identifier deleted and is unchanged for the others;
    [delete] answers whether there was such an entry, and when there was
    none it leaves the file as it is. After a [rename] that succeeds [get]
    finds the entry under its identifier with the new name and the same
    project. *)
Theorem template_lookup_laws {P} (file : TemplateStore.TemplateFile P) :
  (forall name project copy now uid,
     ~ In uid (template_ids file) ->
     let saved := TemplateStore.save_template name project false copy now uid file in
     TemplateStore.get uid (snd saved) = Some (fst saved)
     /\ TemplateStore.tpl_project (fst saved) = project
     /\ (forall other, other <> uid ->
           TemplateStore.get other (snd saved) = TemplateStore.get other file))
  /\ (forall tmpl_id,
        let deleted := TemplateStore.delete tmpl_id file in
        TemplateStore.get tmpl_id (snd deleted) = None
        /\ (forall other, other <> tmpl_id ->
              TemplateStore.get other (snd deleted) = TemplateStore.get other file)
        /\ (fst deleted = true <-> TemplateStore.get tmpl_id file <> None)
        /\ (fst deleted = false -> snd deleted = file))
  /\ (forall tmpl_id new_name now,
        let renamed := TemplateStore.rename tmpl_id new_name now file in
        if fst renamed
        then exists t t',
               TemplateStore.get tmpl_id file = Some t
               /\ TemplateStore.get tmpl_id (snd renamed) = Some t'
               /\ TemplateStore.tpl_name t' = new_name
               /\ TemplateStore.tpl_project t' = TemplateStore.tpl_project t
               /\ TemplateStore.tpl_created_at t' = TemplateStore.tpl_created_at t
        else snd renamed = file).
Proof.
  split; [|split].
  - intros name project copy now uid Huid. cbv zeta.
    unfold template_ids in Huid.
    assert (Hfresh : find (fun t => String.eqb (TemplateStore.tpl_id t) uid)
                       (TemplateStore._read file) = None).
    { apply find_none_all. intros x Hx. apply String.eqb_neq. intros E.
      apply Huid. rewrite <- E. now apply in_map. }
    assert (Hadd : forall nm,
              let entry := TemplateStore.mkTemplate uid nm now now project in
              let file' := TemplateStore._write (TemplateStore._read file ++ [entry]) in
              TemplateStore.get uid file' = Some entry
              /\ TemplateStore.tpl_project entry = project
              /\ (forall other, other <> uid ->
                    TemplateStore.get other file' = TemplateStore.get other file)).
    { intros nm. cbv zeta. unfold TemplateStore.get. cbn [TemplateStore._read
        TemplateStore._write]. rewrite !find_app_split, Hfresh. cbn.
      rewrite String.eqb_refl. repeat split.
      intros other Hne. rewrite find_app_split. cbn.
      replace (String.eqb uid other) with false
        by (symmetry; apply String.eqb_neq; congruence).
      match goal with |- match ?f with _ => _ end = _ => now destruct f end. }
    unfold TemplateStore.save_template. clear Hfresh.
    destruct (find _ (TemplateStore._read file)); cbn [fst snd]; apply Hadd.
  - intros tmpl_id. cbv zeta. unfold TemplateStore.delete, TemplateStore.get.
    set (items := TemplateStore._read file).
    set (keep := fun t : TemplateStore.Template P =>
                   negb (String.eqb (TemplateStore.tpl_id t) tmpl_id)).
    assert (Hgone : find (fun t => String.eqb (TemplateStore.tpl_id t) tmpl_id)
                      (List.filter keep items) = None).
    { apply find_none_all. intros x Hx. apply filter_In in Hx as [_ Hk].
      unfold keep in Hk. now apply negb_true_iff in Hk. }
    assert (Hother : forall other, other <> tmpl_id ->
              find (fun t => String.eqb (TemplateStore.tpl_id t) other)
                (List.filter keep items)
              = find (fun t => String.eqb (TemplateStore.tpl_id t) other) items).
    { intros other Hne. apply find_filter_other. intros x Hx.
      apply String.eqb_eq in Hx. unfold keep.
      apply negb_true_iff, String.eqb_neq. congruence. }
    destruct (Nat.eqb (length (List.filter keep items)) (length items)) eqn:E;
      cbn [fst snd].
    + apply Nat.eqb_eq, filter_all_length in E. fold items.
      rewrite <- E at 1. split; [exact Hgone|].
      split; [reflexivity|]. split; [|reflexivity].
      split; [discriminate|]. intros H. exfalso. apply H.
      now rewrite <- E.
    + cbn [TemplateStore._read TemplateStore._write].
      split; [exact Hgone|]. split; [exact Hother|]. split; [|discriminate].
      split; [|reflexivity]. intros _ Hnone.
      apply Nat.eqb_neq in E. apply E. apply filter_all_length.
      apply forallb_filter_id. apply forallb_forall. intros x Hx.
      eapply find_none in Hnone; [|exact Hx]. unfold keep.
      cbn in Hnone. now rewrite Hnone.
  - intros tmpl_id new_name now. cbv zeta. unfold TemplateStore.rename.
    destruct (existsb _ _); [reflexivity|].
    destruct (TemplateStore.rename_first _ _ _ _) as [items'|] eqn:Er;
      [|reflexivity].
    cbn [fst snd].
    apply rename_first_spec in Er as (l1 & t & l2 & E & Ht & Hl1 & ->).
    assert (Hnone : find (fun x => String.eqb (TemplateStore.tpl_id x) tmpl_id) l1
                    = None).
    { apply find_none_all. intros x Hx. apply String.eqb_neq. now apply Hl1. }
    eexists t, _. unfold TemplateStore.get.
    cbn [TemplateStore._read TemplateStore._write].
    rewrite E, !find_app_split, Hnone. cbn.
    rewrite Ht, String.eqb_refl. now repeat split.
Qed.

Lemma leb_ltb_false (a b : string) : String.leb b a = true -> String.ltb a b = false.
Proof.
  unfold String.ltb, String.leb.
  pose proof (String_as_OT.cmp_antisym b a) as H.
  unfold String_as_OT.cmp in H. rewrite H.
  now destruct (String.compare a b).
Qed.

Lemma StronglySorted_weaken {B} (R S : B -> B -> Prop) (l : list B) :
  (forall a b, R a b -> S a b) -> StronglySorted R l -> StronglySorted S l.
Proof.
  intros HRS. induction 1 as [|x l Hs IH Hall]; constructor; [exact IH|].
  eapply Forall_impl; [exact Hall|]. intros y. apply HRS.
Qed.

(** X10. [list_all] returns the templates of the file, each once, the
    most recently updated first (the stamps compared as texts), and
    templates with the same stamp in the order the file has them. *)
Theorem templates_are_listed_newest_first {P} (file : TemplateStore.TemplateFile P) :
  Permutation (TemplateStore._read file) (TemplateStore.list_all file)
  /\ StronglySorted
       (fun a b =>
          String.leb (TemplateStore.tpl_updated_at b)
            (TemplateStore.tpl_updated_at a) = true)
       (TemplateStore.list_all file)
  /\ (forall stamp,
        List.filter
          (fun t => String.eqb (TemplateStore.tpl_updated_at t) stamp)
          (TemplateStore.list_all file)
        = List.filter
            (fun t => String.eqb (TemplateStore.tpl_updated_at t) stamp)
            (TemplateStore._read file)).
Proof.
  unfold TemplateStore.list_all. split; [apply sort_by_perm|]. split.
  - eapply StronglySorted_weaken; [|apply sort_by_sorted].
    + intros a b H. unfold not_after in H. now apply ltb_false_leb.
    + intros a b H. apply leb_ltb_false. now apply ltb_leb.
    + intros a b c H1 H2. apply leb_ltb_false.
      apply ltb_false_leb in H1, H2. eapply leb_trans; eauto.
  - intros stamp. apply sort_by_stable. intros a b Ha Hb.
    apply String.eqb_eq in Ha, Hb. rewrite Ha, Hb. apply ltb_irrefl.
Qed.

(** ** The validator *)

Lemma in_codes_when (c : bool) (i : Issue) (code : string) :
  In code (map issue_code (if c then [i] else []))
  <-> c = true /\ issue_code i = code.
Proof. destruct c; cbn; intuition discriminate. Qed.

(** The codes one field gets, check by check. *)
Lemma field_issue_codes ids task seen f code :
  In code (map issue_code (field_issues ids task seen f))
  <-> (negb (Field.required f) && negb (Field.readonly f) = true
       /\ "OPT_EDIT" = code)
      \/ (Field.required f && Field.readonly f
          && negb (opt_truthy (Field.origin_field f)) = true
          /\ "REQ_RO" = code)
      \/ (mem (Field.ftype f) LIST_FIELD_TYPES
          && negb (PyStr.truthy (PyStr.strip (Field.options f)))
          && negb (opt_truthy (Field.origin_field f)) = true
          /\ "LIST_NO_OPTS" = code)
      \/ (String.eqb (Field.ftype f) "Informativo"
          && negb (PyStr.truthy (PyStr.strip (Field.options f))) = true
          /\ "INFO_NO_TEXT" = code)
      \/ (String.eqb (Field.ftype f) "Anexo"
          && negb (str_contains "[Tipo de Doc.:" (Field.note f)) = true
          /\ "ANX_NO_TYPE" = code)
      \/ (String.eqb (PyStr.lower (PyStr.strip (Field.name f))) "novo campo"
          || negb (PyStr.truthy (PyStr.strip (Field.name f))) = true
          /\ "NO_NAME" = code)
      \/ (mem (Field.name f) seen = true /\ "DUP_NAME" = code)
      \/ ((exists o, Field.origin_field f = Some o
                     /\ PyStr.truthy o && negb (mem o ids) = true)
          /\ "BAD_ORIGIN" = code)
      \/ (existsb (fun cond => negb (mem (Condition.src_field cond) ids))
            (Field.cond f) = true
          /\ "BAD_RULE" = code).
Proof.
  unfold field_issues. rewrite !map_app, !in_app_iff, !in_codes_when.
  cbn [issue_code].
  assert (Horigin :
    In code
      (map issue_code
         match Field.origin_field f with
         | Some o =>
             if PyStr.truthy o && negb (mem o ids)
             then [mkIssue task f "BAD_ORIGIN"
                     "A origem deste campo aponta para um campo que foi excluído."]
             else []
         | None => []
         end)
    <-> (exists o, Field.origin_field f = Some o
                   /\ PyStr.truthy o && negb (mem o ids) = true)
        /\ "BAD_ORIGIN" = code).
  { destruct (Field.origin_field f) as [o|].
    - rewrite in_codes_when. cbn [issue_code]. split.
      + intros [H1 H2]. split; [|exact H2]. now exists o.
      + intros [(o' & [= <-] & H1) H2]. now split.
    - cbn. split; [intros []|]. now intros [(o & H & _) _]. }
  rewrite Horigin. tauto.
Qed.

Lemma task_issue_codes ids task code : forall fields seen,
  In code (map issue_code (task_issues ids task seen fields))
  <-> exists l1 f l2,
        fields = l1 ++ f :: l2
        /\ In code
             (map issue_code
                (field_issues ids task (rev (map Field.name l1) ++ seen) f)).
Proof.
  induction fields as [|g rest IH]; intros seen; cbn [task_issues].
  - split; [intros []|]. intros (l1 & f & l2 & E & _). now destruct l1.
  - rewrite map_app, in_app_iff, IH. split.
    + intros [H|(l1 & f & l2 & -> & H)].
      * now exists [], g, rest.
      * exists (g :: l1), f, l2. split; [reflexivity|].
        cbn [map rev]. now rewrite <- app_assoc.
    + intros (l1 & f & l2 & E & H). destruct l1 as [|g' l1].
      * injection E as <- <-. now left.
      * injection E as <- ->. right. exists l1, f, l2.
        split; [reflexivity|]. cbn [map rev] in H. now rewrite <- app_assoc in H.
Qed.

(** The codes of the whole list. *)
Lemma issue_codes_spec p code :
  In code (issue_codes p)
  <-> (exists task l1 f l2,
         In task (ProjectModel.tasks p)
         /\ Task.fields task = l1 ++ f :: l2
         /\ In code
              (map issue_code
                 (field_issues (map Field.id (ProjectModel.all_fields p)) task
                    (rev (map Field.name l1)) f)))
      \/ (existsb (fun f => String.eqb (Field.ftype f) "Objeto")
            (ProjectModel.all_fields p)
          && negb (PyStr.truthy (ProjectModel.object_type p)) = true
          /\ "OBJ_NO_TYPE" = code).
Proof.
  unfold issue_codes, _run_validation.
  set (ids := map Field.id (ProjectModel.all_fields p)).
  assert (Htasks : forall c,
    In c (map issue_code
            (flat_map (fun task => task_issues ids task [] (Task.fields task))
               (ProjectModel.tasks p)))
    <-> exists task l1 f l2,
          In task (ProjectModel.tasks p)
          /\ Task.fields task = l1 ++ f :: l2
          /\ In c (map issue_code
                     (field_issues ids task (rev (map Field.name l1)) f))).
  { intros c. rewrite in_map_iff. split.
    - intros (i & <- & Hi). apply in_flat_map in Hi as (task & Ht & Hi).
      assert (Hc : In (issue_code i)
                     (map issue_code (task_issues ids task [] (Task.fields task))))
        by now apply in_map.
      apply task_issue_codes in Hc as (l1 & f & l2 & E & Hc).
      rewrite app_nil_r in Hc. now exists task, l1, f, l2.
    - intros (task & l1 & f & l2 & Ht & E & Hc).
      assert (Hc' : In c (map issue_code
                            (task_issues ids task [] (Task.fields task)))).
      { apply task_issue_codes. exists l1, f, l2. now rewrite app_nil_r. }
      apply in_map_iff in Hc' as (i & <- & Hi). exists i. split; [reflexivity|].
      apply in_flat_map. eauto. }
  destruct (existsb _ _ && negb _).
  - rewrite map_app, in_app_iff, Htasks. cbn. intuition.
  - rewrite Htasks. intuition discriminate.
Qed.

Lemma in_all_fields p f :
  In f (ProjectModel.all_fields p)
  <-> exists task l1 l2,
        In task (ProjectModel.tasks p) /\ Task.fields task = l1 ++ f :: l2.
Proof.
  unfold ProjectModel.all_fields. rewrite in_flat_map. split.
  - intros (task & Ht & Hf). apply in_split in Hf as (l1 & l2 & E).
    now exists task, l1, l2.
  - intros (task & l1 & l2 & Ht & E). exists task. split; [exact Ht|].
    rewrite E. apply in_elt.
Qed.

Lemma truthy_iff s : PyStr.truthy s = true <-> s <> "".
Proof. destruct s; cbn; split; congruence. Qed.

Lemma mem_false x l : mem x l = false <-> ~ In x l.
Proof.
  rewrite <- mem_In. destruct (mem x l); split; congruence.
Qed.

(** The validator reports a lost origin or a lost rule source exactly when
    there is one. *)
Lemma no_dangling_iff p :
  (~ In "BAD_ORIGIN" (issue_codes p) /\ ~ In "BAD_RULE" (issue_codes p))
  <-> references_resolve p.
Proof.
  set (ids := map Field.id (ProjectModel.all_fields p)).
  split.
  - intros [Ho Hr] f Hf.
    apply in_all_fields in Hf as (task & l1 & l2 & Ht & E).
    split.
    + intros o Eo Hne. fold ids.
      destruct (mem o ids) eqn:Em; [now apply mem_In|].
      exfalso. apply Ho. apply issue_codes_spec. left.
      exists task, l1, f, l2. split; [exact Ht|]. split; [exact E|].
      apply field_issue_codes. do 7 right. left. split; [|reflexivity].
      exists o. split; [exact Eo|]. fold ids. rewrite Em.
      apply truthy_iff in Hne. now rewrite Hne.
    + intros c Hc. fold ids.
      destruct (mem (Condition.src_field c) ids) eqn:Em; [now apply mem_In|].
      exfalso. apply Hr. apply issue_codes_spec. left.
      exists task, l1, f, l2. split; [exact Ht|]. split; [exact E|].
      apply field_issue_codes. do 8 right. split; [|reflexivity].
      apply existsb_exists. exists c. split; [exact Hc|]. fold ids.
      now rewrite Em.
  - intros Hres. split; intros Hin;
      apply issue_codes_spec in Hin
        as [(task & l1 & f & l2 & Ht & E & Hin)|[_ Hcode]];
      try discriminate;
      assert (Hf : In f (ProjectModel.all_fields p))
        by (apply in_all_fields; now exists task, l1, l2);
      destruct (Hres f Hf) as [Ho Hr];
      apply field_issue_codes in Hin;
      repeat (destruct Hin as [[_ Hcode]|Hin]; [discriminate|]).
    + destruct Hin as [[(o & Eo & Hbad) _]|[_ Hcode]]; [|discriminate].
      apply andb_true_iff in Hbad as [Ht' Hm].
      apply negb_true_iff, mem_false in Hm. apply Hm.
      apply Ho; [exact Eo|]. now apply truthy_iff.
    + destruct Hin as [Hbad _].
      apply existsb_exists in Hbad as (c & Hc & Hm).
      apply negb_true_iff, mem_false in Hm. apply Hm. now apply Hr.
Qed.

Lemma NoDup_map_splits {A B} (g : A -> B) (l : list A) :
  List.NoDup (map g l)
  <-> forall l1 x l2, l = l1 ++ x :: l2 -> ~ In (g x) (map g l1).
Proof.
  split.
  - intros Hnd l1 x l2 -> Hin. rewrite map_app in Hnd. cbn in Hnd.
    apply NoDup_remove_2 in Hnd. apply Hnd. apply in_app_iff. now left.
  - induction l as [|x l IH] using rev_ind; intros H; [constructor|].
    rewrite map_app. cbn. apply NoDup_snoc.
    + apply IH. intros l1 y l2 -> . apply (H l1 y (l2 ++ [x])).
      now rewrite <- app_assoc.
    + apply (H l x []). reflexivity.
Qed.

(** X11. The verdicts of [_run_validation] are exact for the structure of
    the project: it reports BAD_ORIGIN or BAD_RULE exactly when some origin
    that is not empty, or some source of a rule, is not the identifier of a
    field of the project; DUP_NAME exactly when two fields of one task have
    the same name; and OBJ_NO_TYPE exactly when there is an "Objeto" field
    and the project has no object name. *)
Theorem validator_verdicts_are_exact (p : ProjectModel.t) :
  ((~ In "BAD_ORIGIN" (issue_codes p) /\ ~ In "BAD_RULE" (issue_codes p))
   <-> references_resolve p)
  /\ (~ In "DUP_NAME" (issue_codes p)
      <-> Forall (fun t => List.NoDup (map Field.name (Task.fields t)))
            (ProjectModel.tasks p))
  /\ (In "OBJ_NO_TYPE" (issue_codes p)
      <-> (exists f, In f (ProjectModel.all_fields p) /\ Field.ftype f = "Objeto")
          /\ ProjectModel.object_type p = "").
Proof.
  split; [apply no_dangling_iff|]. split.
  - rewrite List.Forall_forall. split.
    + intros Hno task Ht. apply NoDup_map_splits. intros l1 f l2 E Hin.
      apply Hno. apply issue_codes_spec. left.
      exists task, l1, f, l2. split; [exact Ht|]. split; [exact E|].
      apply field_issue_codes. do 6 right. left. split; [|reflexivity].
      apply mem_In. now apply in_rev in Hin.
    + intros Hnd Hin.
      apply issue_codes_spec in Hin
        as [(task & l1 & f & l2 & Ht & E & Hin)|[_ Hcode]];
        [|discriminate].
      apply field_issue_codes in Hin.
      repeat (destruct Hin as [[_ Hcode]|Hin]; [discriminate|]).
      destruct Hin as [[Hm _]|Hin].
      * apply mem_In, in_rev in Hm.
        apply (proj1 (NoDup_map_splits Field.name _) (Hnd task Ht) l1 f l2 E Hm).
      * destruct Hin as [[_ Hcode]|[_ Hcode]]; discriminate.
  - rewrite issue_codes_spec. split.
    + intros [(task & l1 & f & l2 & Ht & E & Hin)|[Hc _]].
      * apply field_issue_codes in Hin.
        repeat (destruct Hin as [[_ Hcode]|Hin]; [discriminate|]).
        destruct Hin as [_ Hcode]. discriminate.
      * apply andb_true_iff in Hc as [Hex Hot].
        apply existsb_exists in Hex as (f & Hf & Ef). apply String.eqb_eq in Ef.
        split; [now exists f|].
        apply negb_true_iff in Hot. now apply not_truthy.
    + intros [(f & Hf & Ef) Hot]. right. split; [|reflexivity].
      apply andb_true_iff. split.
      * apply existsb_exists. exists f. split; [exact Hf|].
        now apply String.eqb_eq.
      * now rewrite Hot.
Qed.

Lemma unlink_deleted_facts (deleted : string -> bool) f :
  Field.id (unlink_deleted deleted f) = Field.id f
  /\ (forall o, Field.origin_field (unlink_deleted deleted f) = Some o ->
                Field.origin_field f = Some o /\ deleted o = false)
  /\ (forall c, In c (Field.cond (unlink_deleted deleted f)) ->
                In c (Field.cond f) /\ deleted (Condition.src_field c) = false).
Proof.
  unfold unlink_deleted.
  set (g := Field.set_cond _ f).
  assert (Hgc : forall c, In c (Field.cond g) ->
                  In c (Field.cond f) /\ deleted (Condition.src_field c) = false).
  { intros c Hc. unfold g in Hc. cbn in Hc. apply filter_In in Hc as [H1 H2].
    split; [exact H1|]. now apply negb_true_iff in H2. }
  change (Field.origin_field g) with (Field.origin_field f).
  destruct (Field.origin_field f) as [o|] eqn:Eo.
  - destruct (deleted o) eqn:Ed.
    + destruct (clear_origin_spec g) as (Ci & _ & Cc & _ & Cof & _).
      rewrite Ci, Cc, Cof. split; [reflexivity|]. split; [discriminate|exact Hgc].
    + split; [reflexivity|]. split; [|exact Hgc].
      intros o' Ho'. change (Field.origin_field g) with (Field.origin_field f) in Ho'.
      rewrite Eo in Ho'. injection Ho' as <-. now split.
  - split; [reflexivity|]. split; [|exact Hgc].
    intros o' Ho'. change (Field.origin_field g) with (Field.origin_field f) in Ho'.
    congruence.
Qed.

Lemma unlink_nothing (deleted : string -> bool) f :
  (forall x, deleted x = false) -> unlink_deleted deleted f = f.
Proof.
  intros Hnone. unfold unlink_deleted.
  assert (Hc : List.filter (fun c => negb (deleted (Condition.src_field c)))
                 (Field.cond f) = Field.cond f).
  { induction (Field.cond f) as [|c l IH]; [reflexivity|]. cbn.
    now rewrite Hnone, IH. }
  rewrite Hc. destruct f as [? ? ? ? ? ? ? ? ? o ? ? ? ? ? ?]. cbn.
  destruct o as [o|]; [|reflexivity]. now rewrite Hnone.
Qed.

Lemma map_fields_nothing (deleted : string -> bool) ts :
  (forall x, deleted x = false) ->
  map_fields (unlink_deleted deleted) ts = ts.
Proof.
  intros Hnone. unfold map_fields.
  induction ts as [|u l IH]; [reflexivity|]. cbn. rewrite IH. f_equal.
  assert (Hmap : map (unlink_deleted deleted) (Task.fields u) = Task.fields u).
  { induction (Task.fields u) as [|f fs IHf]; [reflexivity|]. cbn.
    rewrite IHf. f_equal. now apply unlink_nothing. }
  rewrite Hmap. now destruct u.
Qed.

(** Taking fields away, with every reference to the identifiers taken away
    cleared in the fields that stay, keeps every reference resolved. *)
Lemma unlink_keeps_resolved (deleted : string -> bool) p p' :
  references_resolve p ->
  (forall f', In f' (ProjectModel.all_fields p') ->
     exists f, In f (ProjectModel.all_fields p) /\ f' = unlink_deleted deleted f) ->
  (forall f, In f (ProjectModel.all_fields p) -> deleted (Field.id f) = false ->
     In (unlink_deleted deleted f) (ProjectModel.all_fields p')) ->
  references_resolve p'.
Proof.
  intros Hres Hfrom Hkept f' Hf'.
  destruct (Hfrom f' Hf') as (f & Hf & ->).
  destruct (unlink_deleted_facts deleted f) as (_ & Horigin & Hcond).
  destruct (Hres f Hf) as [Ho Hc].
  assert (Hstays : forall x, In x (map Field.id (ProjectModel.all_fields p)) ->
                     deleted x = false ->
                     In x (map Field.id (ProjectModel.all_fields p'))).
  { intros x Hx Hd. apply in_map_iff in Hx as (g & <- & Hg).
    destruct (unlink_deleted_facts deleted g) as (<- & _).
    apply in_map. now apply Hkept. }
  split.
  - intros o Eo Hne. destruct (Horigin o Eo) as [Eo' Hd].
    apply Hstays; [now apply Ho|exact Hd].
  - intros c Hin. destruct (Hcond c Hin) as [Hin' Hd].
    apply Hstays; [now apply Hc|exact Hd].
Qed.

Lemma in_filter_tasks_kept (keep : Task.t -> bool) ts u f :
  In u ts -> keep u = true -> In f (Task.fields u) ->
  In f (flat_map Task.fields (List.filter keep ts)).
Proof.
  intros Hu Hk Hf. apply in_flat_map. exists u. split; [|exact Hf].
  now apply filter_In.
Qed.

(** X12. Deleting never leaves a reference the validator would report: if
    [_run_validation] finds no lost origin and no lost rule source in a
    project, it finds none after [_delete_field], after
    [delete_selected_fields], and, the tasks having distinct identifiers,
    after [delete_task]. *)
Theorem deletions_leave_nothing_dangling (s : App) :
  no_dangling (project s) ->
  (forall fid s', _delete_field fid s = (Quiet, s') -> no_dangling (project s'))
  /\ (forall s', delete_selected_fields true s = (None, s') ->
                 no_dangling (project s'))
  /\ (forall ti,
        List.NoDup (map Task.id (ProjectModel.tasks (project s))) ->
        no_dangling (project (delete_task ti true s))).
Proof.
  unfold no_dangling. rewrite no_dangling_iff. intros Hres.
  split; [|split].
  - intros fid s' H. apply no_dangling_iff.
    unfold _delete_field in H.
    destruct (ProjectModel.tasks (project s)) as [|t0 ts0] eqn:Ets;
      [now injection H as <-|].
    destruct (get_task_keeps None (_push_undo s)) as (Hp & _).
    rewrite push_undo_project in Hp.
    destruct (_get_task None (_push_undo s)) as [[i|] s2]; cbn [snd] in Hp;
      [|discriminate].
    injection H as <-.
    apply (unlink_keeps_resolved (String.eqb fid) (project s)); [exact Hres| |];
      unfold ProjectModel.all_fields; cbn; rewrite Hp.
    + intros f' Hin. apply in_alter_filter in Hin.
      apply in_map_fields in Hin as (f & Hf & ->). eauto.
    + intros f Hf Hd. apply in_alter_filter_kept.
      * apply in_map_fields. eauto.
      * destruct (unlink_deleted_facts (String.eqb fid) f) as (-> & _).
        rewrite String.eqb_sym. now rewrite Hd.
  - intros s' H. apply no_dangling_iff.
    unfold delete_selected_fields in H.
    destruct (bool_decide (selected_field_ids s = ∅)); [discriminate|].
    cbn [negb] in H.
    destruct (get_task_keeps None (_push_undo s)) as (Hp & _).
    rewrite push_undo_project in Hp.
    destruct (_get_task None (_push_undo s)) as [[i|] s2]; cbn [snd] in Hp;
      [|discriminate].
    injection H as <-.
    set (sel := selected_field_ids s2).
    apply (unlink_keeps_resolved (fun x => bool_decide (x ∈ sel)) (project s));
      [exact Hres| |]; unfold ProjectModel.all_fields; cbn; rewrite Hp.
    + intros f' Hin. apply in_alter_filter in Hin.
      apply in_map_fields in Hin as (f & Hf & ->). eauto.
    + intros f Hf Hd.
      apply (in_alter_filter_kept
               (fun f0 => negb (bool_decide (Field.id f0 ∈ sel)))).
      * apply in_map_fields. eauto.
      * destruct (unlink_deleted_facts (fun x => bool_decide (x ∈ sel)) f)
          as (-> & _).
        now rewrite Hd.
  - intros ti Hnd. apply no_dangling_iff. unfold delete_task. cbn [negb].
    destruct (ProjectModel.tasks (project s) !! ti) as [t|] eqn:Et;
      [|exact Hres].
    match goal with
    | |- context [_refresh_task_combo ?x] =>
        destruct (refresh_task_combo_keeps x) as (Hp & _)
    end.
    set (dels := list_to_set (map Field.id (Task.fields t)) : gset string) in *.
    set (U := unlink_deleted (fun x => bool_decide (x ∈ dels))).
    assert (Hclean : ProjectModel.tasks (project (cleanup_refs dels (_push_undo s)))
                     = map_fields U (ProjectModel.tasks (project s))).
    { unfold cleanup_refs. destruct (bool_decide (dels = ∅)) eqn:Ee.
      - rewrite push_undo_project. apply bool_decide_eq_true in Ee.
        unfold U. rewrite map_fields_nothing; [reflexivity|].
        intros x. apply bool_decide_eq_false. rewrite Ee. set_solver.
      - cbn. now rewrite push_undo_project. }
    match type of Hp with
    | project (_refresh_task_combo (if ?c then _ else ?S)) = _ =>
        assert (Hproj : ProjectModel.tasks (project (if c then
                  set_current_task_id
                    (option_map Task.id (head (ProjectModel.tasks (project S)))) S
                  else S))
                = List.filter (fun x => negb (String.eqb (Task.id x) (Task.id t)))
                    (map_fields U (ProjectModel.tasks (project s))))
          by (destruct c; cbn; now rewrite Hclean)
    end.
    apply (unlink_keeps_resolved (fun x => bool_decide (x ∈ dels)) (project s));
      [exact Hres| |]; unfold ProjectModel.all_fields; rewrite Hp, Hproj.
    + intros f' Hin. apply in_filter_tasks in Hin.
      apply in_map_fields in Hin as (f & Hf & ->). eauto.
    + intros f Hf Hd. apply in_flat_map in Hf as (u & Hu & Hfu).
      apply (in_filter_tasks_kept _ _
               (Task.set_fields (map U (Task.fields u)) u)).
      * unfold map_fields. apply in_map_iff. eauto.
      * cbn. apply negb_true_iff, String.eqb_neq. intros Eid.
        assert (u = t).
        { apply list_elem_of_lookup_2, list_elem_of_In in Et.
          apply in_split in Hu as (a & b & Eu). rewrite Eu in Hnd, Et.
          rewrite map_app in Hnd. cbn in Hnd.
          apply NoDup_remove_2 in Hnd. rewrite <- map_app in Hnd.
          apply in_app_iff in Et as [Et|[Et|Et]]; [|exact Et|];
            exfalso; apply Hnd; rewrite Eid; apply in_map, in_app_iff;
            [now left|now right]. }
        subst u. apply bool_decide_eq_false in Hd. apply Hd. unfold dels.
        apply elem_of_list_to_set, list_elem_of_In. now apply in_map.
      * cbn. now apply in_map.
Qed.

Lemma deletions_leave_nothing_dangling_witness :
  no_dangling (project (snd (_delete_field "a" (linked_state "B")))).
Proof.
  destruct (deletions_leave_nothing_dangling (linked_state "B")) as (H & _).
  - split; vm_compute; intuition discriminate.
  - apply (H "a"). vm_compute. reflexivity.
Defined.

(** ** The simulator *)

Lemma some_rule_met_ext answers answers' conds :
  (forall c, In c conds ->
     PyDict.get answers (Condition.src_field c)
     = PyDict.get answers' (Condition.src_field c)) ->
  some_rule_met answers conds = some_rule_met answers' conds.
Proof.
  induction conds as [|c rest IH]; intros H; [reflexivity|]. cbn.
  rewrite (H c (or_introl eq_refl)), IH; [reflexivity|].
  intros d Hd. apply H. now right.
Qed.

(** X13. What the simulator shows depends on the answers to the
    controller fields only: a change of the answer of a field for which
    [_maybe_rerender] does not draw the task again (the empty identifier
    apart, which it never draws for) changes the visibility of no field;
    a field without rules is always visible, and one with rules is hidden
    as long as nothing is answered. *)
Theorem visibility_depends_on_controllers
  (p : ProjectModel.t) (answers answers' : PyDict.t Answer) :
  (forall k, _maybe_rerender p (Some k) = true \/ k = "" ->
             PyDict.get answers k = PyDict.get answers' k) ->
  (forall f, In f (ProjectModel.all_fields p) ->
             _is_visible answers f = _is_visible answers' f)
  /\ (forall task_idx,
        visible_fields p answers task_idx = visible_fields p answers' task_idx)
  /\ (forall f, Field.cond f = [] -> _is_visible answers f = true)
  /\ (forall f, Field.cond f <> [] -> _is_visible [] f = false).
Proof.
  intros Hagree.
  assert (Hvis : forall f, In f (ProjectModel.all_fields p) ->
                   _is_visible answers f = _is_visible answers' f).
  { intros f Hf. unfold _is_visible.
    destruct (Field.cond f) as [|c0 rest] eqn:Ec; [reflexivity|].
    apply some_rule_met_ext. intros c Hc. apply Hagree.
    destruct (PyStr.truthy (Condition.src_field c)) eqn:Et;
      [left|right; now apply not_truthy].
    unfold _maybe_rerender. rewrite Et. cbn.
    apply bool_decide_eq_true. unfold _collect_controller_fields.
    apply elem_of_list_to_set, list_elem_of_In, filter_In. split; [|exact Et].
    apply in_map, in_flat_map. exists f. split; [exact Hf|].
    now rewrite Ec. }
  split; [exact Hvis|]. split; [|split].
  - intros task_idx. unfold visible_fields.
    destruct (ProjectModel.tasks p !! task_idx) as [task|] eqn:Et;
      [|reflexivity].
    apply filter_ext_in. intros f Hf. apply Hvis.
    unfold ProjectModel.all_fields. apply in_flat_map. exists task.
    split; [|exact Hf].
    now apply list_elem_of_lookup_2, list_elem_of_In in Et.
  - intros f Ef. unfold _is_visible. now rewrite Ef.
  - intros f Ef. unfold _is_visible.
    destruct (Field.cond f) as [|c0 rest]; [contradiction|].
    clear. generalize (c0 :: rest). intros l.
    induction l as [|c l IH]; [reflexivity|exact IH].
Qed.

Lemma visibility_depends_on_controllers_witness :
  map Field.id (visible_fields ruled_project [("c", One "x")] 0) = ["a"; "c"]
  /\ visible_fields ruled_project [("c", One "x")] 0
     = visible_fields ruled_project [] 0.
Proof.
  split; [vm_compute; reflexivity|].
  apply (visibility_depends_on_controllers ruled_project [("c", One "x")] []).
  intros k [H| ->]; [|reflexivity].
  cbn [PyDict.get]. destruct (String.eqb "c" k) eqn:E; [|reflexivity].
  apply String.eqb_eq in E. subst k. vm_compute in H. discriminate.
Defined.

(** ** The window of the importer *)

Lemma render_tree_keeps w :
  Importer.current_tasks (Importer.render_tree w) = Importer.current_tasks w
  /\ Importer.original_task_order (Importer.render_tree w)
     = Importer.original_task_order w
  /\ Importer.current_fields_by_task (Importer.render_tree w)
     = Importer.current_fields_by_task w
  /\ Importer.current_diagram_id (Importer.render_tree w)
     = Importer.current_diagram_id w
  /\ Importer.current_diagram_label (Importer.render_tree w)
     = Importer.current_diagram_label w.
Proof.
  unfold Importer.render_tree.
  destruct (Importer.current_tasks w) eqn:E; cbn; rewrite ?E; now repeat split.
Qed.

Lemma remove_at_perm {A} (l : list A) : forall i x,
  l !! i = Some x -> Permutation l (x :: Importer.remove_at i l).
Proof.
  induction l as [|a l IH]; intros [|i] x H; try discriminate; cbn in H |- *.
  - now injection H as ->.
  - etransitivity; [apply perm_skip, (IH i x H)|]. apply perm_swap.
Qed.

Lemma list_insert_at_perm {A} (i : nat) (x : A) (l : list A) :
  Permutation (x :: l) (list_insert_at i x l).
Proof.
  unfold list_insert_at. rewrite <- (firstn_skipn i l) at 1.
  apply Permutation_middle.
Qed.

(** The buttons that reorder the tasks keep the tasks and the order
    recorded when the diagram was loaded. *)
Lemma reorder_keeps (a : Importer.Reordering) w :
  Permutation (Importer.current_tasks w)
    (Importer.current_tasks (Importer.reorder w a))
  /\ Importer.original_task_order (Importer.reorder w a)
     = Importer.original_task_order w
  /\ Importer.current_fields_by_task (Importer.reorder w a)
     = Importer.current_fields_by_task w.
Proof.
  destruct a as [task_id delta|]; cbn [Importer.reorder].
  - unfold Importer.reorder_task.
    destruct (index_where _ _) as [index|]; [|now repeat split].
    destruct (negb _); [now repeat split|].
    destruct (Importer.current_tasks w !! index) as [task|] eqn:E;
      [|now repeat split].
    destruct (render_tree_keeps
                (Importer.set_current_tasks
                   (list_insert_at (Z.to_nat (Z.of_nat index + delta)) task
                      (Importer.remove_at index (Importer.current_tasks w))) w))
      as (-> & -> & -> & _).
    cbn. repeat split.
    etransitivity; [apply (remove_at_perm _ _ _ E)|]. apply list_insert_at_perm.
  - unfold Importer.sort_tasks_alphabetically.
    destruct (render_tree_keeps
                (Importer.set_current_tasks
                   (sort_by (fun task => PyStr.lower (node_name task)) String.ltb
                      (Importer.current_tasks w)) w))
      as (-> & -> & -> & _).
    cbn. repeat split. apply sort_by_perm.
Qed.

Lemma reorderings_keep (actions : list Importer.Reordering) : forall w,
  Permutation (Importer.current_tasks w)
    (Importer.current_tasks (fold_left Importer.reorder actions w))
  /\ Importer.original_task_order (fold_left Importer.reorder actions w)
     = Importer.original_task_order w
  /\ Importer.current_fields_by_task (fold_left Importer.reorder actions w)
     = Importer.current_fields_by_task w.
Proof.
  induction actions as [|a rest IH]; intros w; cbn [fold_left];
    [now repeat split|].
  destruct (reorder_keeps a w) as (Hp & Ho & Hf).
  destruct (IH (Importer.reorder w a)) as (Hp' & Ho' & Hf').
  split; [now etransitivity; eauto|]. split; congruence.
Qed.

Lemma order_map_from (order : list string) : forall a m x,
  List.NoDup order ->
  PyDict.get
    (fold_left (fun m e => PyDict.set m (snd e) (fst e))
       (combine (seq a (length order)) order) m) x
  = match index_where (fun y => String.eqb y x) order with
    | Some j => Some (a + j)
    | None => PyDict.get m x
    end.
Proof.
  induction order as [|y r IH]; intros a m x Hnd; [reflexivity|].
  apply NoDup_cons_iff in Hnd as [Hy Hr].
  cbn [length seq combine fold_left fst snd index_where].
  rewrite (IH (S a) (PyDict.set m y a) x Hr).
  destruct (String.eqb y x) eqn:E.
  - apply String.eqb_eq in E. subst x.
    replace (index_where (fun y0 => String.eqb y0 y) r) with (@None nat).
    + rewrite get_set_same. f_equal. lia.
    + symmetry. destruct (index_where _ r) as [j|] eqn:Ej; [|reflexivity].
      apply index_where_Some in Ej as (z & Hz & Ez).
      apply String.eqb_eq in Ez. subst z. exfalso. apply Hy.
      now apply list_elem_of_lookup_2, list_elem_of_In in Hz.
  - destruct (index_where _ r) as [j|]; cbn; [f_equal; lia|].
    apply get_set_other. now apply String.eqb_neq.
Qed.

Lemma index_where_position (l : list string) : forall i x,
  List.NoDup l -> l !! i = Some x ->
  index_where (fun y => String.eqb y x) l = Some i.
Proof.
  induction l as [|a l IH]; intros i x Hnd Hi; [now destruct i|].
  apply NoDup_cons_iff in Hnd as [Ha Hl].
  destruct i as [|i]; cbn in Hi |- *.
  - injection Hi as ->. now rewrite String.eqb_refl.
  - destruct (String.eqb a x) eqn:E.
    + apply String.eqb_eq in E. subst a. exfalso. apply Ha.
      now apply list_elem_of_lookup_2, list_elem_of_In in Hi.
    + now rewrite (IH i x Hl Hi).
Qed.

(** The key [restore_original_order] sorts with is the place the task had
    when the diagram was loaded. *)
Lemma original_place (l : list Node) i task :
  List.NoDup (map node_id l) -> l !! i = Some task ->
  PyDict.get_default (Importer.order_map (map node_id l)) (node_id task)
    (length (Importer.order_map (map node_id l))) = i.
Proof.
  intros Hnd Hi. unfold PyDict.get_default, Importer.order_map.
  rewrite (order_map_from (map node_id l) 0 [] (node_id task) Hnd).
  rewrite (index_where_position (map node_id l) i (node_id task) Hnd).
  - reflexivity.
  - rewrite lookup_map, Hi. reflexivity.
Qed.

Lemma placed_sorted {A} (k : A -> nat) (l : list A) : forall a,
  (forall i x, l !! i = Some x -> k x = a + i) ->
  StronglySorted (fun x y => k x <= k y) l /\ List.NoDup (map k l).
Proof.
  induction l as [|x l IH]; intros a H; [split; constructor|].
  destruct (IH (S a)) as [Hs Hn].
  { intros i y Hy. rewrite (H (S i) y Hy). lia. }
  pose proof (H 0 x eq_refl) as Hx.
  assert (Hlater : forall y, In y l -> k y > k x).
  { intros y Hy. apply list_elem_of_In, list_elem_of_lookup_1 in Hy as (i & Hi).
    rewrite (H (S i) y Hi). lia. }
  split.
  - constructor; [exact Hs|]. apply List.Forall_forall. intros y Hy.
    specialize (Hlater y Hy). lia.
  - cbn. constructor; [|exact Hn]. intros Hin.
    apply in_map_iff in Hin as (y & E & Hy). specialize (Hlater y Hy). lia.
Qed.

(** A list sorted with keys that are all different is the only sorted
    arrangement of its items. *)
Lemma sorted_perm_unique {A} (k : A -> nat) (l1 : list A) : forall l2,
  Permutation l1 l2 ->
  List.NoDup (map k l1) ->
  StronglySorted (fun x y => k x <= k y) l1 ->
  StronglySorted (fun x y => k x <= k y) l2 ->
  l1 = l2.
Proof.
  induction l1 as [|a l1 IH]; intros l2 Hp Hn H1 H2.
  - now apply Permutation_nil in Hp.
  - destruct l2 as [|b l2]; [now apply Permutation_sym, Permutation_nil in Hp|].
    apply StronglySorted_inv in H1 as [H1 Ha].
    apply StronglySorted_inv in H2 as [H2 Hb].
    rewrite List.Forall_forall in Ha, Hb.
    assert (Hab : a = b).
    { assert (Ia : In a (b :: l2))
        by (eapply Permutation_in; [exact Hp|now left]).
      assert (Ib : In b (a :: l1))
        by (eapply Permutation_in; [symmetry; exact Hp|now left]).
      destruct Ia as [->|Ia]; [reflexivity|].
      destruct Ib as [->|Ib]; [reflexivity|].
      pose proof (Hb a Ia). pose proof (Ha b Ib).
      cbn in Hn. apply NoDup_cons_iff in Hn as [Hnot _].
      exfalso. apply Hnot. replace (k a) with (k b) by lia. now apply in_map. }
    subst b. f_equal. apply IH.
    + now apply Permutation_cons_inv in Hp.
    + cbn in Hn. now apply NoDup_cons_iff in Hn.
    + exact H1.
    + exact H2.
Qed.

(** X14. [restore_original_order] undoes every reordering: whatever
    sequence of moves ([reorder_task]) and alphabetical sorts the user has
    applied since a diagram was loaded, the tasks come back in the order
    of the load, the tasks of a diagram having distinct identifiers. *)
Theorem restore_original_order_undoes_reorderings
  (w : Importer.t) (actions : list Importer.Reordering) :
  Importer.original_task_order w = map node_id (Importer.current_tasks w) ->
  List.NoDup (map node_id (Importer.current_tasks w)) ->
  Importer.current_tasks
    (Importer.restore_original_order (fold_left Importer.reorder actions w))
  = Importer.current_tasks w.
Proof.
  intros Horder Hnd.
  destruct (reorderings_keep actions w) as (Hperm & Ho & _).
  set (w' := fold_left Importer.reorder actions w) in *.
  unfold Importer.restore_original_order. rewrite Ho, Horder.
  destruct (map node_id (Importer.current_tasks w)) as [|i0 ids] eqn:Eids.
  - destruct (Importer.current_tasks w) as [|t l]; [|discriminate].
    now apply Permutation_nil in Hperm.
  - rewrite <- Eids in *. clear Eids.
    match goal with
    | |- context [Importer.render_tree ?x] =>
        destruct (render_tree_keeps x) as (-> & _)
    end.
    cbn [Importer.current_tasks Importer.set_current_tasks].
    set (k := fun task : Node =>
                PyDict.get_default
                  (Importer.order_map (map node_id (Importer.current_tasks w)))
                  (node_id task)
                  (length (Importer.order_map
                             (map node_id (Importer.current_tasks w))))).
    destruct (placed_sorted k (Importer.current_tasks w) 0) as [Hs Hn].
    { intros i x Hx. unfold k. now apply original_place. }
    symmetry. apply (sorted_perm_unique k).
    + etransitivity; [exact Hperm|]. apply sort_by_perm.
    + exact Hn.
    + exact Hs.
    + eapply StronglySorted_weaken; [|apply sort_by_sorted].
      * intros a b H. unfold not_after in H. apply Nat.ltb_ge in H. exact H.
      * intros a b H. apply Nat.ltb_ge. apply Nat.ltb_lt in H. lia.
      * intros a b c H1 H2. apply Nat.ltb_ge in H1, H2. apply Nat.ltb_ge. lia.
Qed.

Lemma restore_original_order_undoes_reorderings_witness :
  map node_id
    (Importer.current_tasks
       (fold_left Importer.reorder
          [Importer.Alphabetical; Importer.Move "Y" (-1)] approval_window))
  = ["A"; "Y"; "X"; "B"]
  /\ Importer.current_tasks
       (Importer.restore_original_order
          (fold_left Importer.reorder
             [Importer.Alphabetical; Importer.Move "Y" (-1)] approval_window))
     = Importer.current_tasks approval_window.
Proof.
  split; [vm_compute; reflexivity|].
  apply (restore_original_order_undoes_reorderings approval_window).
  - vm_compute. reflexivity.
  - vm_compute. repeat constructor; cbn; intuition discriminate.
Defined.

Lemma prune_full_selection w :
  Importer.selected_task_ids w
  = list_to_set (map node_id (Importer.current_tasks w)) ->
  Importer.selected_field_ids w
  = list_to_set
      (Importer.field_ids_of (Importer.current_tasks w)
         (Importer.current_fields_by_task w)) ->
  Importer.render_tree w = w.
Proof.
  destruct w as [dl dd cb ci cl tasks fbt oo st sf res].
  cbn [Importer.selected_task_ids Importer.selected_field_ids
       Importer.current_tasks Importer.current_fields_by_task].
  intros -> ->.
  unfold Importer.render_tree. cbn [Importer.current_tasks].
  destruct tasks as [|t0 rest] eqn:E; [reflexivity|]. rewrite <- E.
  unfold Importer._prune_selection, Importer.set_selected_field_ids,
    Importer.set_selected_task_ids.
  cbn [Importer.selected_task_ids Importer.selected_field_ids
       Importer.current_tasks Importer.current_fields_by_task
       Importer.diagram_list Importer.diagrams_data Importer.diag_combobox
       Importer.current_diagram_id Importer.current_diagram_label
       Importer.original_task_order Importer.result].
  f_equal; apply set_eq; intros x; rewrite elem_of_intersection; tauto.
Qed.

Lemma filter_all {A} (p : A -> bool) (l : list A) :
  (forall x, In x l -> p x = true) -> List.filter p l = l.
Proof.
  induction l as [|x l IH]; intros H; [reflexivity|]. cbn.
  rewrite (H x (or_introl eq_refl)), IH; [reflexivity|].
  intros y Hy. apply H. now right.
Qed.

Lemma get_fold_set {V} (g : Node -> V) (tasks : list Node) : forall acc task,
  In task tasks ->
  (forall a b, node_id a = node_id b -> g a = g b) ->
  PyDict.get
    (fold_left (fun acc t => PyDict.set acc (node_id t) (g t)) tasks acc)
    (node_id task)
  = Some (g task).
Proof.
  induction tasks as [|t rest IH] using rev_ind; intros acc task Hin Hg;
    [inversion Hin|].
  rewrite fold_left_app. cbn.
  destruct (String.eqb (node_id t) (node_id task)) eqn:E.
  - apply String.eqb_eq in E. rewrite <- E, get_set_same. f_equal. now apply Hg.
  - apply String.eqb_neq in E. rewrite get_set_other by exact E.
    apply in_app_iff in Hin as [Hin|[->|[]]]; [now apply IH|congruence].
Qed.

(** X15. Loading a diagram selects all of it: after
    [update_tree_preview] has loaded the diagram of a label, the tasks shown
    are the implemented tasks [build_task_fields_for_diagram] finds, in
    its order, and [confirm_selection] right away returns every one of them
    with every one of its decision fields; with no task to show it
    warns. *)
Theorem loading_selects_everything
  (w : Importer.t) (lbl d lbl' : string) (nodes : PyDict.t Node)
  (transitions : list Transition) :
  find (fun e => String.eqb (snd e) lbl) (Importer.diagram_list w)
  = Some (d, lbl') ->
  d <> "" ->
  PyDict.get (Importer.diagrams_data w) d = Some (nodes, transitions) ->
  let tasks := fst (build_task_fields_for_diagram nodes transitions) in
  let fields_by_task := snd (build_task_fields_for_diagram nodes transitions) in
  let w' := snd (Importer.update_tree_preview (Some lbl) true w) in
  fst (Importer.update_tree_preview (Some lbl) true w) = None
  /\ Importer.current_diagram_id w' = Some d
  /\ Importer.current_tasks w' = tasks
  /\ Importer.original_task_order w' = map node_id tasks
  /\ match tasks with
     | [] =>
         Importer.confirm_selection w'
         = (Some (Warning "Importador de BPMN"
                    "Selecione ao menos uma tarefa antes de importar."), w')
     | _ =>
         exists r,
           Importer.confirm_selection w'
           = (None, Importer.set_result (Some r) w')
           /\ Importer.res_tasks r = tasks
           /\ Importer.res_diagram_id r = Some d
           /\ Importer.res_diagram_label r = lbl
           /\ forall task, In task tasks ->
                PyDict.get (Importer.res_fields_by_task r) (node_id task)
                = Some (PyDict.get_default fields_by_task (node_id task) [])
     end.
Proof.
  intros Hfind Hd Hdata. cbv zeta.
  unfold Importer.update_tree_preview. rewrite Hfind. cbn [option_map fst].
  apply truthy_iff in Hd. rewrite Hd. cbn [negb orb]. rewrite Hdata.
  destruct (build_task_fields_for_diagram nodes transitions) as [tasks fbt].
  cbn [fst snd].
  rewrite prune_full_selection by reflexivity.
  cbn [Importer.current_diagram_id Importer.current_tasks
       Importer.original_task_order].
  repeat (split; [reflexivity|]).
  unfold Importer.confirm_selection.
  cbn [Importer.current_tasks Importer.selected_task_ids
       Importer.selected_field_ids Importer.current_fields_by_task
       Importer.current_diagram_id Importer.current_diagram_label].
  rewrite (filter_all
             (fun task =>
                bool_decide (node_id task ∈ (list_to_set (map node_id tasks)
                                               : gset string)))).
  2:{ intros x Hx. apply bool_decide_eq_true, elem_of_list_to_set.
      apply list_elem_of_In. now apply in_map. }
  destruct tasks as [|t0 rest] eqn:Etasks; [reflexivity|].
  cbv iota. rewrite <- Etasks. eexists. split; [reflexivity|].
  cbn [Importer.res_tasks Importer.res_diagram_id Importer.res_diagram_label
       Importer.res_fields_by_task].
  repeat (split; [reflexivity|]).
  intros task Htask.
  rewrite (get_fold_set
             (fun t =>
                List.filter
                  (fun field =>
                     bool_decide
                       (fd_id field
                        ∈ (list_to_set (Importer.field_ids_of tasks fbt)
                           : gset string)))
                  (PyDict.get_default fbt (node_id t) []))
             tasks [] task Htask).
  - f_equal. apply filter_all. intros x Hx.
    apply bool_decide_eq_true, elem_of_list_to_set, list_elem_of_In.
    unfold Importer.field_ids_of. apply in_flat_map. exists task.
    split; [exact Htask|]. now apply in_map.
  - intros a b E. now rewrite E.
Qed.

Lemma loading_selects_everything_witness :
  fst (Importer.update_tree_preview (Some "Pedidos") true approval_window) = None
  /\ map node_id
       (Importer.current_tasks
          (snd (Importer.update_tree_preview (Some "Pedidos") true
                  approval_window)))
     = ["A"; "B"; "X"; "Y"].
Proof.
  pose proof (loading_selects_everything approval_window "Pedidos"
                "Pedidos.diag" "Pedidos" approval_nodes approval_transitions)
    as H.
  cbv zeta in H. destruct H as (H1 & _ & H3 & _).
  - vm_compute. reflexivity.
  - discriminate.
  - vm_compute. reflexivity.
  - split; [exact H1|]. rewrite H3. vm_compute. reflexivity.
Defined.

Lemma update_tree_preview_id sel force w d :
  Importer.current_diagram_id (snd (Importer.update_tree_preview sel force w))
  = Some d ->
  exists e,
    find (fun e => String.eqb (snd e)
                     match sel with
                     | None => Importer.diag_combobox w
                     | Some l => l
                     end)
      (Importer.diagram_list w) = Some e
    /\ fst e = d.
Proof.
  unfold Importer.update_tree_preview.
  destruct (find _ (Importer.diagram_list w)) as [e|];
    cbn [option_map].
  - destruct (negb (PyStr.truthy (fst e))).
    + cbn [snd]. now destruct (render_tree_keeps
        {| Importer.diagram_list := Importer.diagram_list w;
           Importer.diagrams_data := Importer.diagrams_data w;
           Importer.diag_combobox := Importer.diag_combobox w;
           Importer.current_diagram_id := None;
           Importer.current_diagram_label :=
             match sel with
             | None => Importer.diag_combobox w
             | Some l => l
             end;
           Importer.current_tasks := [];
           Importer.current_fields_by_task := [];
           Importer.original_task_order := [];
           Importer.selected_task_ids := ∅;
           Importer.selected_field_ids := ∅;
           Importer.result := Importer.result w |}) as (_ & _ & _ & -> & _).
    + intros H. exists e. split; [reflexivity|].
      destruct (force || _).
      * destruct (PyDict.get _ _) as [[nodes transitions]|].
        -- destruct (build_task_fields_for_diagram nodes transitions).
           cbn [snd] in H.
           match type of H with
           | context [Importer.render_tree ?x] =>
               destruct (render_tree_keeps x) as (_ & _ & _ & Hid & _)
           end.
           rewrite Hid in H. cbn in H. congruence.
        -- cbn in H. congruence.
      * cbn [snd] in H.
        match type of H with
        | context [Importer.render_tree ?x] =>
            destruct (render_tree_keeps x) as (_ & _ & _ & Hid & _)
        end.
        rewrite Hid in H. cbn in H. congruence.
  - cbn [snd]. intros H.
    match type of H with
    | context [Importer.render_tree ?x] =>
        destruct (render_tree_keeps x) as (_ & _ & _ & Hid & _)
    end.
    rewrite Hid in H. discriminate.
Qed.

(** X16. A label that repeats hides the later diagram: when two diagrams
    of the list have the same label, [update_tree_preview] never makes the
    second one the current diagram, whatever label is chosen (the
    diagrams having distinct entry names). *)
Theorem repeated_label_hides_the_later_diagram
  (w : Importer.t) (l1 l2 l3 : list (string * string)) (d1 d2 lbl : string) :
  Importer.diagram_list w = l1 ++ (d1, lbl) :: l2 ++ (d2, lbl) :: l3 ->
  List.NoDup (map fst (Importer.diagram_list w)) ->
  forall sel force,
    Importer.current_diagram_id
      (snd (Importer.update_tree_preview sel force w)) <> Some d2.
Proof.
  intros Hlist Hnd sel force Hid.
  apply update_tree_preview_id in Hid as (e & Hfind & He).
  rewrite Hlist in Hfind, Hnd.
  assert (Hnot : ~ In d2 (map fst ((l1 ++ (d1, lbl) :: l2) ++ l3))).
  { replace (l1 ++ (d1, lbl) :: l2 ++ (d2, lbl) :: l3)
      with ((l1 ++ (d1, lbl) :: l2) ++ (d2, lbl) :: l3) in Hnd
      by (rewrite <- app_assoc; reflexivity).
    rewrite map_app in Hnd. cbn in Hnd.
    apply NoDup_remove_2 in Hnd. now rewrite map_app. }
  assert (Hout : forall x, In x ((l1 ++ (d1, lbl) :: l2) ++ l3) -> fst x <> d2).
  { intros x Hx E. apply Hnot. rewrite <- E. now apply in_map. }
  rewrite find_app_split in Hfind.
  destruct (find _ l1) as [x|] eqn:Ex.
  - injection Hfind as ->. apply find_some in Ex as [Ex _].
    apply (Hout e); [|exact He]. apply in_app_iff. left. apply in_app_iff.
    now left.
  - cbn [find snd] in Hfind.
    destruct (String.eqb lbl _) eqn:El.
    + injection Hfind as <-. apply (Hout (d1, lbl)); [|exact He].
      apply in_app_iff. left. apply in_elt.
    + rewrite find_app_split in Hfind.
      destruct (find _ l2) as [x|] eqn:Ex2.
      * injection Hfind as ->. apply find_some in Ex2 as [Ex2 _].
        apply (Hout e); [|exact He]. apply in_app_iff. left.
        apply in_app_iff. right. now right.
      * cbn [find snd] in Hfind. rewrite El in Hfind.
        apply find_some in Hfind as [Hin _].
        apply (Hout e); [|exact He]. apply in_app_iff. now right.
Qed.

Lemma repeated_label_hides_the_later_diagram_witness :
  map fst (Importer.diagram_list tie_window) = ["b.diag"; "a.diag"]
  /\ Importer.current_diagram_id
       (snd (Importer.update_tree_preview (Some "Compras") true tie_window))
     = Some "b.diag"
  /\ (Importer.current_diagram_id
        (snd (Importer.update_tree_preview (Some "Compras") true tie_window))
      = Some "a.diag" -> False).
Proof.
  split; [vm_compute; reflexivity|]. split; [vm_compute; reflexivity|].
  apply (repeated_label_hides_the_later_diagram tie_window [] [] []
           "b.diag" "a.diag" "Compras").
  - vm_compute. reflexivity.
  - vm_compute. repeat constructor; cbn; intuition discriminate.
Defined.

(** ** Adding the imported tasks to the project *)




(** ** Copy and paste *)

























(** ** Cut and paste *)









(** ** The warning of a paste as copy *)











(** ** Project files and templates *)

Lemma omap_lookup_seq_app {A} (l k : list A) :
  omap (fun a => (l ++ k) !! a) (seq (length l) (length k)) = k.
Proof.
  revert l. induction k as [|x k IH]; intros l; [reflexivity|].
  cbn [length seq omap list_omap].
  rewrite lookup_app_r by lia. rewrite Nat.sub_diag. cbn.
  f_equal.
  replace (l ++ x :: k) with ((l ++ [x]) ++ k) by now rewrite <- app_assoc.
  replace (S (length l)) with (length (l ++ [x]))
    by (rewrite length_app; cbn; lia).
  apply IH.
Qed.










(** ** The flow as a whole *)




(** ** The rule builder *)

Lemma alter_split {A} (g : A -> A) (l : list A) : forall i x,
  l !! i = Some x ->
  exists l1 l2, l = l1 ++ x :: l2 /\ alter g i l = l1 ++ g x :: l2.
Proof.
  induction l as [|a l IH]; intros [|i] x H; try discriminate.
  - injection H as ->. now exists [], l.
  - destruct (IH i x H) as (l1 & l2 & -> & E).
    exists (a :: l1), l2. split; [reflexivity|].
    cbn [alter list_alter]. change (list_alter g i) with (alter g i).
    now rewrite E.
Qed.

(** The fields of the project after one of them is changed in place. *)
Lemma update_field_fields g ti fi s f :
  field_at s ti fi = Some f ->
  exists l1 l2,
    ProjectModel.all_fields (project s) = l1 ++ f :: l2
    /\ ProjectModel.all_fields (project (update_field g ti fi s))
       = l1 ++ g f :: l2.
Proof.
  unfold field_at, update_field, ProjectModel.all_fields.
  cbn [project set_tasks set_project ProjectModel.tasks ProjectModel.set_tasks].
  destruct (ProjectModel.tasks (project s) !! ti) as [t|] eqn:Et; [|discriminate].
  intros Hf.
  destruct (alter_split
              (fun t => Task.set_fields (alter g fi (Task.fields t)) t)
              _ ti t Et) as (ts1 & ts2 & -> & ->).
  destruct (alter_split g _ fi f Hf) as (fs1 & fs2 & Efs & Ealt).
  rewrite !flat_map_app. cbn [flat_map Task.fields Task.set_fields].
  rewrite Ealt, Efs.
  exists (flat_map Task.fields ts1 ++ fs1), (fs2 ++ flat_map Task.fields ts2).
  now rewrite <- !app_assoc.
Qed.

(** Changing a field in place keeps every reference resolved when the
    identifier and the origin stay and the rules it has afterwards were
    there before or have their source in the project. *)
Lemma update_field_keeps_resolved g ti fi s f :
  field_at s ti fi = Some f ->
  Field.id (g f) = Field.id f ->
  Field.origin_field (g f) = Field.origin_field f ->
  (forall c, In c (Field.cond (g f)) ->
     In c (Field.cond f)
     \/ In (Condition.src_field c)
          (map Field.id (ProjectModel.all_fields (project s)))) ->
  references_resolve (project s) ->
  references_resolve (project (update_field g ti fi s)).
Proof.
  intros Hf Hid Ho Hc Hres.
  destruct (update_field_fields g ti fi s f Hf) as (l1 & l2 & E & E').
  assert (Hids : map Field.id (ProjectModel.all_fields
                                 (project (update_field g ti fi s)))
                 = map Field.id (ProjectModel.all_fields (project s))).
  { rewrite E, E', !map_app. cbn. now rewrite Hid. }
  assert (Hfin : In f (ProjectModel.all_fields (project s))).
  { rewrite E. apply in_elt. }
  intros f' Hf'. rewrite Hids. rewrite E' in Hf'.
  apply in_app_or in Hf' as [Hf'|[<-|Hf']].
  - apply Hres. rewrite E. apply in_or_app. now left.
  - destruct (Hres f Hfin) as [Hro Hrc]. split.
    + intros o Eo. rewrite Ho in Eo. now apply Hro.
    + intros c Hin. destruct (Hc c Hin) as [H|H]; [now apply Hrc|exact H].
  - apply Hres. rewrite E. apply in_or_app. right. now right.
Qed.

Lemma remove_at_in {A} (l : list A) : forall i x,
  In x (Importer.remove_at i l) -> In x l.
Proof.
  induction l as [|a l IH]; intros [|i] x H; cbn in *; try tauto.
  destruct H as [->|H]; [now left|right; now apply (IH i)].
Qed.

Lemma remove_at_NoDup {A} (l : list A) : forall i,
  List.NoDup l -> List.NoDup (Importer.remove_at i l).
Proof.
  induction l as [|a l IH]; intros [|i] H; cbn; try exact H.
  - now apply NoDup_cons_iff in H.
  - apply NoDup_cons_iff in H as [Hnot Hnd]. constructor; [|now apply IH].
    intros Hin. apply Hnot. now apply (remove_at_in l i).
Qed.

(** X25. The rule builder keeps the rules sound. For the field [f] whose
    builder is open, in a project in which the validator finds every
    reference: [add_cond] either refuses (no base field of that name in
    the task, an empty value, or a rule that is already there) and changes
    nothing, or records the state and appends one rule "==" whose source is
    the first field of the task with the name chosen and whose value is
    the text stripped, not empty; removing a rule records the state and
    takes it off the list. After either the validator still finds every
    reference, and a list of rules without repetition stays so. *)
Theorem rule_builder_keeps_rules_sound (ti fi : nat) (f : Field.t) (s : App) :
  field_at s ti fi = Some f ->
  no_dangling (project s) ->
  (forall sel raw_value,
     no_dangling (project (snd (add_cond ti fi sel raw_value s)))
     /\ (fst (add_cond ti fi sel raw_value s) <> None ->
         snd (add_cond ti fi sel raw_value s) = s)
     /\ (fst (add_cond ti fi sel raw_value s) = None ->
         exists cur fld,
           ProjectModel.tasks (project s) !! ti = Some cur
           /\ current_base_field (Task.fields cur) sel = Some fld
           /\ In fld (Task.fields cur) /\ Field.name fld = sel
           /\ PyStr.strip raw_value <> ""
           /\ field_at (snd (add_cond ti fi sel raw_value s)) ti fi
              = Some (Field.set_cond
                        (Field.cond f
                         ++ [Condition.mk (Field.id fld) "=="
                               (PyStr.strip raw_value)]) f)
           /\ (List.NoDup (Field.cond f) ->
               List.NoDup
                 (Field.cond f
                  ++ [Condition.mk (Field.id fld) "==" (PyStr.strip raw_value)]))
           /\ recorded s (snd (add_cond ti fi sel raw_value s))))
  /\ (forall idx,
        no_dangling (project (remove_cond ti fi idx s))
        /\ field_at (remove_cond ti fi idx s) ti fi
           = Some (Field.set_cond (Importer.remove_at idx (Field.cond f)) f)
        /\ (List.NoDup (Field.cond f) ->
            List.NoDup (Importer.remove_at idx (Field.cond f)))
        /\ recorded s (remove_cond ti fi idx s)).
Proof.
  intros Hf Hdang.
  assert (Hres : references_resolve (project s)) by now apply no_dangling_iff.
  assert (Hf1 : field_at (_push_undo s) ti fi = Some f).
  { rewrite <- Hf. apply field_at_project. apply push_undo_project. }
  assert (Hres1 : references_resolve (project (_push_undo s))).
  { now rewrite push_undo_project. }
  assert (Hrec : forall g, recorded s (update_field g ti fi (_push_undo s))).
  { intros g. destruct (push_undo_recorded s) as (snapshot & rest & Hpop & Hsnap).
    now exists snapshot, rest. }
  split.
  - intros sel raw_value. unfold add_cond.
    pose proof Hf as Hf'. unfold field_at in Hf'.
    destruct (ProjectModel.tasks (project s) !! ti) as [cur|] eqn:Ecur;
      [|discriminate].
    rewrite Hf'.
    destruct (current_base_field (Task.fields cur) sel) as [fld|] eqn:Efld;
      [|split; [exact Hdang|split; [reflexivity|discriminate]]].
    destruct (PyStr.truthy (PyStr.strip raw_value)) eqn:Eval; cbn [negb];
      [|split; [exact Hdang|split; [reflexivity|discriminate]]].
    destruct (existsb _ (Field.cond f)) eqn:Edup;
      [split; [exact Hdang|split; [reflexivity|discriminate]]|].
    cbn [fst snd].
    apply find_some in Efld as Hfld. destruct Hfld as [Hin Hname].
    apply String.eqb_eq in Hname.
    assert (Hfldin : In (Field.id fld)
                       (map Field.id (ProjectModel.all_fields (project s)))).
    { apply in_map. apply in_flat_map. exists cur. split; [|exact Hin].
      now apply list_elem_of_lookup_2, list_elem_of_In in Ecur. }
    split; [|split; [intros H; now contradiction H|]].
    + apply no_dangling_iff.
      apply (update_field_keeps_resolved _ ti fi _ f Hf1); try reflexivity;
        [|exact Hres1].
      cbn [Field.cond Field.set_cond]. intros c Hc.
      apply in_app_or in Hc as [Hc|[<-|[]]]; [now left|right].
      cbn. now rewrite push_undo_project.
    + intros _. exists cur, fld.
      split; [reflexivity|]. split; [exact Efld|]. split; [exact Hin|].
      split; [exact Hname|]. split; [now apply truthy_iff|].
      split; [now rewrite field_at_update, Hf1|].
      split; [|apply Hrec].
      intros Hnd. apply NoDup_snoc; [exact Hnd|].
      intros Hc. rewrite <- Bool.not_true_iff_false in Edup. apply Edup.
      apply existsb_exists.
      exists (Condition.mk (Field.id fld) "==" (PyStr.strip raw_value)).
      split; [exact Hc|]. cbn. now rewrite !String.eqb_refl.
  - intros idx. unfold remove_cond.
    split; [|split; [|split]].
    + apply no_dangling_iff.
      apply (update_field_keeps_resolved _ ti fi _ f Hf1); try reflexivity;
        [|exact Hres1].
      cbn [Field.cond Field.set_cond]. intros c Hc. left.
      now apply (remove_at_in _ idx).
    + now rewrite field_at_update, Hf1.
    + apply remove_at_NoDup.
    + apply Hrec.
Qed.

Lemma rule_builder_keeps_rules_sound_witness :
  no_dangling (project (snd (add_cond 0 2 "Novo campo" " Sim " ruled_state)))
  /\ field_at (snd (add_cond 0 2 "Novo campo" " Sim " ruled_state)) 0 2
     = Some (Field.set_cond [Condition.mk "a" "==" "Sim"] (Field.new "c")).
Proof.
  assert (Hdang : no_dangling (project ruled_state)).
  { split; vm_compute; intuition discriminate. }
  destruct (rule_builder_keeps_rules_sound 0 2 (Field.new "c") ruled_state
              eq_refl Hdang) as [Hadd _].
  destruct (Hadd "Novo campo" " Sim ") as (Hnd & _ & Hsome).
  split; [exact Hnd|].
  destruct (Hsome eq_refl) as (cur & fld & Ecur & Efld & _ & _ & _ & Hat & _).
  injection Ecur as <-. vm_compute in Efld. injection Efld as <-.
  rewrite Hat. reflexivity.
Defined.

(** ** Lists of options as text *)

Lemma str_split_nonempty sep s : str_split sep s <> [].
Proof.
  destruct s as [|c s]; cbn; [discriminate|].
  destruct (Ascii.eqb c sep); [discriminate|].
  now destruct (str_split sep s).
Qed.

Lemma str_contains_head (b c : ascii) s :
  str_contains (String b EmptyString) (String c s) = false ->
  Ascii.eqb c b = false /\ str_contains (String b EmptyString) s = false.
Proof.
  cbn [str_contains String.prefix]. intros H.
  apply orb_false_iff in H as [Hc Hs]. split; [|exact Hs].
  destruct (Ascii.eqb_spec c b) as [->|Hne]; [|reflexivity].
  destruct (ascii_dec b b) as [_|Hn]; [|now contradiction Hn].
  now destruct s.
Qed.

Lemma str_contains_byte (b : ascii) s :
  str_contains (String b EmptyString) s = false ->
  forall t, str_split b (s +:+ String b t) = s :: str_split b t.
Proof.
  induction s as [|c s IH]; intros H t.
  - simpl. now rewrite Ascii.eqb_refl.
  - apply str_contains_head in H as [Hcb Hs].
    simpl. now rewrite Hcb, (IH Hs).
Qed.

Lemma str_split_none (b : ascii) s :
  str_contains (String b EmptyString) s = false -> str_split b s = [s].
Proof.
  induction s as [|c s IH]; intros H; [reflexivity|].
  apply str_contains_head in H as [Hcb Hs].
  cbn [str_split]. now rewrite Hcb, (IH Hs).
Qed.

Lemma chars_from_emit cur s :
  PyStr.chars_from 0 cur s = PyStr.emit cur ++ PyStr.chars_from 0 EmptyString s.
Proof.
  destruct s as [|c s]; cbn; [now rewrite app_nil_r|reflexivity].
Qed.

(** A blank in front of a text does not change what [strip] gives. *)
Lemma strip_after_blank s : PyStr.strip (String " " s) = PyStr.strip s.
Proof.
  unfold PyStr.strip, PyStr.chars. cbn [PyStr.chars_from].
  change (PyStr.seq_len " " - 1) with 0. cbn [PyStr.emit app].
  rewrite chars_from_emit. cbn [PyStr.emit app PyStr.lstrip_chars].
  reflexivity.
Qed.

Lemma split_joined_options o rest :
  List.Forall (fun x => str_contains ";" x = false) (o :: rest) ->
  str_split ";" (PyStr.join "; " (o :: rest)) = o :: map (String " ") rest.
Proof.
  revert o. induction rest as [|o' rest IH]; intros o H.
  - cbn. apply str_split_none. now inversion H.
  - inversion H as [|? ? Ho Hrest]; subst.
    unfold PyStr.join in *.
    change (String.concat "; " (o :: o' :: rest))
      with (o +:+ String ";" (String " " (String.concat "; " (o' :: rest)))).
    rewrite (str_contains_byte ";" o Ho).
    cbn [str_split]. change (Ascii.eqb " " ";") with false. cbv iota.
    now rewrite (IH o' Hrest).
Qed.

(** The text made of plain options gives the options back. *)
Lemma stripped_joined_options opcoes :
  List.Forall plain_option opcoes ->
  stripped_options (PyStr.join "; " opcoes) = opcoes.
Proof.
  intros H. unfold stripped_options.
  destruct opcoes as [|o rest]; [reflexivity|].
  rewrite split_joined_options.
  2:{ eapply List.Forall_impl; [|exact H]. now intros x (_ & _ & Hx). }
  assert (Hmap : map PyStr.strip (o :: map (String " ") rest) = o :: rest).
  { cbn [map]. inversion H as [|? ? (Ho & _) Hrest]; subst. rewrite Ho. f_equal.
    rewrite map_map. rewrite <- (map_id rest) at 2.
    apply map_ext_in. intros x Hx. rewrite strip_after_blank.
    now apply (proj1 (List.Forall_forall _ _) Hrest x Hx). }
  rewrite Hmap. clear Hmap.
  induction H as [|x l (_ & Hx & _) Hl IHl]; [reflexivity|].
  cbn. apply truthy_iff in Hx. rewrite Hx. now rewrite IHl.
Qed.

(** X26. Options survive the trip through their text. For a list of plain
    options (none empty, none with blanks around it or with a semicolon):
    the text [EditItemDialog] shows for them, saved as it is, gives the
    same options back; and the options [_list_options_for_field] reads
    from a field made by [open_bpmn_importer] are the options of the
    decision. A name that is blank is refused by [on_save], whatever the
    options. *)
Theorem options_survive_their_text (item : FieldData) :
  List.Forall plain_option (fd_opcoes item) ->
  (forall name_text, PyStr.strip name_text <> "" ->
     on_save FieldItem name_text (options_entry_text item)
     = (None, Some (PyStr.strip name_text, Some (fd_opcoes item))))
  /\ (forall uid, _list_options_for_field (imported_field uid item)
                  = fd_opcoes item)
  /\ (forall item_type name_text options_text,
        PyStr.strip name_text = "" ->
        on_save item_type name_text options_text
        = (Some (Warning "Aviso" "O nome não pode ser vazio."), None)).
Proof.
  intros H. split; [|split].
  - intros name_text Hname. unfold on_save, options_entry_text.
    apply truthy_iff in Hname. rewrite Hname. cbn [negb].
    now rewrite stripped_joined_options.
  - intros uid. unfold _list_options_for_field, imported_field.
    cbn [Field.ftype Field.options Field.set_options Field.set_ftype].
    change (mem "Lista" LIST_FIELD_TYPES) with true. cbv iota.
    unfold PyStr.or_else.
    destruct (PyStr.truthy (PyStr.join "; " (fd_opcoes item))) eqn:E.
    + now apply stripped_joined_options.
    + apply not_truthy in E. rewrite <- (stripped_joined_options _ H).
      now rewrite E.
  - intros item_type name_text options_text E. unfold on_save. now rewrite E.
Qed.

Lemma options_survive_their_text_witness :
  on_save FieldItem " Aprovar? " "Aprovado; Não aprovado"
  = (None, Some ("Aprovar?", Some ["Aprovado"; "Não aprovado"]))
  /\ _list_options_for_field (imported_field "u1" approval_item)
     = ["Aprovado"; "Não aprovado"].
Proof.
  assert (H : List.Forall plain_option (fd_opcoes approval_item)).
  { repeat constructor; vm_compute; congruence. }
  destruct (options_survive_their_text approval_item H) as (Hsave & Hlist & _).
  split.
  - apply (Hsave " Aprovar? "). vm_compute. discriminate.
  - apply Hlist.
Defined.

(** ** The definitions of the object and undo *)

Lemma adjust_project_schema p :
  ProjectModel.object_schema (adjust_project p) = ProjectModel.object_schema p.
Proof.
  unfold adjust_project. now destruct (adjust_tasks _ _).
Qed.

(** A restore builds the definitions anew from the dictionaries the
    snapshot refers to, as they are in the store at that time. *)
Lemma apply_wrapped_schema st x :
  schema_defs (snd (_apply_project_dict (Wrapped st) x))
  = omap (fun a => objects x !! a) (ProjectModel.object_schema (sd_project st)).
Proof.
  unfold schema_defs, _apply_project_dict, from_dict. cbn [snd].
  match goal with
  | |- context [_refresh_task_combo ?y] =>
      destruct (refresh_task_combo_keeps y) as (-> & _ & _ & ->)
  end.
  cbn [project objects]. rewrite adjust_project_schema.
  cbn [ProjectModel.object_schema]. apply omap_lookup_seq_app.
Qed.

Lemma undo_schema_defs s s' :
  undo_stack s' = undo_stack (_push_undo s) ->
  schema_defs (undo_action s')
  = omap (fun a => objects s' !! a) (ProjectModel.object_schema (project s)).
Proof.
  intros Hstack.
  destruct (push_undo_records s) as (_ & _ & _ & rest & Hpop).
  rewrite <- Hstack in Hpop.
  rewrite (undo_action_restores s' _ rest Hpop), apply_wrapped_schema.
  destruct (serialize_project_keeps s) as (-> & _).
  destruct (serialize_project_keeps s') as (_ & _ & _ & _ & Ho).
  cbn [objects set_undo_stack set_redo_stack]. rewrite Ho.
  now rewrite to_dict_id.
Qed.

Lemma renumber_unordered sch : forall i store a,
  option_map unordered (renumber_from i sch store !! a)
  = option_map unordered (store !! a).
Proof.
  induction sch as [|a0 sch IH]; intros i store a; [reflexivity|].
  cbn [renumber_from]. rewrite IH, list_lookup_alter.
  destruct (decide (a0 = a)) as [->|_]; [|reflexivity].
  now destruct (store !! a).
Qed.

Lemma renumber_length sch : forall i store,
  length (renumber_from i sch store) = length store.
Proof.
  induction sch as [|a0 sch IH]; intros i store; [reflexivity|].
  cbn [renumber_from]. rewrite IH. apply length_alter.
Qed.

Lemma renumber_other sch : forall i store a,
  ~ In a sch -> renumber_from i sch store !! a = store !! a.
Proof.
  induction sch as [|a0 sch IH]; intros i store a Hnot; [reflexivity|].
  cbn [renumber_from]. rewrite IH by (intros H; apply Hnot; now right).
  apply list_lookup_alter_ne. intros ->. apply Hnot. now left.
Qed.

(** After the renumbering every definition has its position as order. *)
Lemma renumber_orders sch : forall i store,
  List.NoDup sch -> List.Forall (fun a => a < length store) sch ->
  map ObjectFieldDef.order (omap (fun a => renumber_from i sch store !! a) sch)
  = seq i (length sch).
Proof.
  induction sch as [|a0 sch IH]; intros i store Hnd Hin; [reflexivity|].
  apply NoDup_cons_iff in Hnd as [Hnot Hnd].
  inversion Hin as [|? ? Ha0 Hrest]; subst.
  cbn [renumber_from omap list_omap length seq].
  rewrite (renumber_other sch (S i) _ a0 Hnot), list_lookup_alter_eq.
  destruct (lookup_lt_is_Some_2 store a0 Ha0) as (o & Eo). rewrite Eo.
  cbn [fmap option_fmap option_map map ObjectFieldDef.order set_order].
  f_equal.
  apply IH; [exact Hnd|].
  eapply List.Forall_impl; [|exact Hrest]. intros a Ha.
  now rewrite length_alter.
Qed.

Lemma omap_unordered (g h : nat -> option ObjectFieldDef.t) l :
  (forall a, option_map unordered (g a) = option_map unordered (h a)) ->
  map unordered (omap g l) = map unordered (omap h l).
Proof.
  intros H. induction l as [|a l IH]; [reflexivity|].
  cbn [omap list_omap]. specialize (H a).
  destruct (g a) as [o|], (h a) as [o'|]; cbn [option_map] in H;
    try discriminate; [|exact IH].
  assert (E : unordered o = unordered o') by congruence.
  cbn [map]. now rewrite E, IH.
Qed.

Lemma omap_lookup_ext {A} (g h : list A) (l : list nat) :
  List.Forall (fun a => g !! a = h !! a) l ->
  omap (fun a => g !! a) l = omap (fun a => h !! a) l.
Proof.
  induction 1 as [|a l Ha _ IH]; [reflexivity|].
  cbn [omap list_omap]. rewrite Ha. now rewrite IH.
Qed.

Lemma omap_snoc {A} (g : nat -> option A) l a x :
  g a = Some x -> omap g (l ++ [a]) = omap g l ++ [x].
Proof.
  intros Ha. induction l as [|b l IH]; cbn [app omap list_omap].
  - now rewrite Ha.
  - rewrite IH. now destruct (g b).
Qed.

(** X27. The definitions of the object and undo. The snapshots of the
    history refer to the definitions, they do not copy them. So: removing
    a definition takes it off the schema and numbers the others by their
    position, and undo brings all definitions back, each with its name,
    type, options, flags, group and note; adding a definition appends it,
    numbered by its position, and undo brings back the schema as it was;
    but undo after a definition was edited in place leaves it as edited.
    [schema_in_store] says that the definitions are distinct objects. *)
Theorem object_definitions_and_undo (s : App) :
  schema_in_store s ->
  (forall ref,
     map unordered (schema_defs (remove_object_field ref true s))
     = map unordered
         (omap (fun a => objects s !! a)
            (List.filter (fun x => negb (Nat.eqb x ref))
               (ProjectModel.object_schema (project s))))
     /\ map ObjectFieldDef.order (schema_defs (remove_object_field ref true s))
        = seq 0 (length (List.filter (fun x => negb (Nat.eqb x ref))
                           (ProjectModel.object_schema (project s))))
     /\ map unordered (schema_defs (undo_action (remove_object_field ref true s)))
        = map unordered (schema_defs s))
  /\ (forall name ftype options required readonly note,
        PyStr.strip name <> "" ->
        schema_defs
          (snd (edit_object_field None name ftype options required readonly
                  note s))
        = schema_defs s
          ++ [ObjectFieldDef.mk (PyStr.strip name) (PyStr.strip ftype)
                (PyStr.strip options) required readonly ""
                (length (ProjectModel.object_schema (project s)))
                (PyStr.strip note)]
        /\ schema_defs
             (undo_action
                (snd (edit_object_field None name ftype options required
                        readonly note s)))
           = schema_defs s)
  /\ (forall a name ftype options required readonly note,
        PyStr.strip name <> "" ->
        schema_defs
          (undo_action
             (snd (edit_object_field (Some a) name ftype options required
                     readonly note s)))
        = schema_defs
            (snd (edit_object_field (Some a) name ftype options required
                    readonly note s))).
Proof.
  intros [Hnd Hin].
  destruct (push_undo_records s) as (Hp & Ho & _).
  split; [|split].
  - intros ref. unfold remove_object_field. cbn [negb].
    set (sch := List.filter _ (ProjectModel.object_schema (project (_push_undo s)))).
    assert (Esch : sch = List.filter (fun x => negb (Nat.eqb x ref))
                           (ProjectModel.object_schema (project s))).
    { unfold sch. now rewrite Hp. }
    split; [|split].
    + unfold schema_defs.
      cbn [project objects set_objects set_project
           ProjectModel.object_schema ProjectModel.set_object_schema].
      rewrite <- Esch, Ho. apply omap_unordered. intros a.
      apply renumber_unordered.
    + unfold schema_defs.
      cbn [project objects set_objects set_project
           ProjectModel.object_schema ProjectModel.set_object_schema].
      rewrite <- Esch, Ho. apply renumber_orders.
      * rewrite Esch. now apply List.NoDup_filter.
      * rewrite Esch. apply List.Forall_forall. intros a Ha.
        apply filter_In in Ha as [Ha _].
        exact (proj1 (List.Forall_forall _ _) Hin a Ha).
    + rewrite (undo_schema_defs s) by reflexivity.
      cbn [objects set_objects]. rewrite Ho. unfold schema_defs.
      apply omap_unordered. intros a. apply renumber_unordered.
  - intros name ftype options required readonly note Hname.
    unfold edit_object_field. apply truthy_iff in Hname. rewrite Hname.
    cbn [negb snd]. rewrite Hp, Ho.
    assert (Hold : omap (fun a => (objects s ++ [ObjectFieldDef.mk
                      (PyStr.strip name) (PyStr.strip ftype)
                      (PyStr.strip options) required readonly ""
                      (length (ProjectModel.object_schema (project s)))
                      (PyStr.strip note)]) !! a)
                     (ProjectModel.object_schema (project s))
                   = schema_defs s).
    { apply omap_lookup_ext. eapply List.Forall_impl; [|exact Hin].
      intros a Ha. now apply lookup_app_l. }
    split.
    + unfold schema_defs at 1.
      cbn [project objects set_objects set_project
           ProjectModel.object_schema ProjectModel.set_object_schema].
      rewrite (omap_snoc _ _ _
                 (ObjectFieldDef.mk (PyStr.strip name) (PyStr.strip ftype)
                    (PyStr.strip options) required readonly ""
                    (length (ProjectModel.object_schema (project s)))
                    (PyStr.strip note))).
      * now rewrite Hold.
      * rewrite lookup_app_r by lia. now rewrite Nat.sub_diag.
    + rewrite (undo_schema_defs s) by reflexivity.
      cbn [objects set_objects set_project]. exact Hold.
  - intros a name ftype options required readonly note Hname.
    unfold edit_object_field. apply truthy_iff in Hname. rewrite Hname.
    cbn [negb snd].
    rewrite (undo_schema_defs s) by reflexivity.
    unfold schema_defs. cbn [project objects set_objects]. now rewrite Hp.
Qed.

Lemma object_definitions_and_undo_witness :
  schema_defs (remove_object_field 0 true schema_state) = []
  /\ map unordered
       (schema_defs (undo_action (remove_object_field 0 true schema_state)))
     = [("Valor", "Numérico", "", false, true, "", "")].
Proof.
  assert (H : schema_in_store schema_state).
  { split; vm_compute; repeat constructor. intros []. }
  destruct (object_definitions_and_undo schema_state H) as (Hremove & _ & _).
  destruct (Hremove 0) as (_ & _ & Hundo).
  split; [reflexivity|]. rewrite Hundo. reflexivity.
Defined.

(** ** From the ticks of the importer to the project *)





(** ** Names of linked fields *)

Lemma all_fields_map_fields g ts :
  flat_map Task.fields (map_fields g ts) = map g (flat_map Task.fields ts).
Proof.
  unfold map_fields. induction ts as [|t ts IH]; [reflexivity|].
  cbn. now rewrite map_app, IH.
Qed.

Lemma map_only_one (g : Field.t -> Field.t) (l : list Field.t) fid :
  ~ In fid (map Field.id l) ->
  map (fun x => if String.eqb (Field.id x) fid then g x else x) l = l.
Proof.
  induction l as [|x l IH]; intros Hnot; [reflexivity|]. cbn.
  destruct (String.eqb_spec (Field.id x) fid) as [E|_].
  - exfalso. apply Hnot. now left.
  - rewrite IH; [reflexivity|]. intros H. apply Hnot. now right.
Qed.

(** With distinct identifiers, changing the field at a position changes
    the field of that identifier. *)
Lemma update_field_by_id g ti fi s f :
  List.NoDup (map Field.id (ProjectModel.all_fields (project s))) ->
  field_at s ti fi = Some f ->
  ProjectModel.all_fields (project (update_field g ti fi s))
  = map (fun x => if String.eqb (Field.id x) (Field.id f) then g x else x)
      (ProjectModel.all_fields (project s)).
Proof.
  intros Hnd Hf.
  destruct (update_field_fields g ti fi s f Hf) as (l1 & l2 & E & ->).
  rewrite E in Hnd |- *. rewrite map_app in Hnd. cbn [map] in Hnd.
  apply NoDup_remove_2 in Hnd.
  rewrite map_app. cbn [map]. rewrite String.eqb_refl.
  rewrite !map_only_one; [reflexivity| |];
    intros H; apply Hnd; apply in_or_app; [now right|now left].
Qed.

(** X29. Linked names follow a rename. [_on_field_name_changed] on a
    field whose name is not locked for an origin (identifiers being
    distinct) gives the new name to the field and to every field that
    points to it with a name locked for the origin, changes no other
    field, and records the state before. If before every name locked for
    an origin was the name of the origin, and no field locked so was itself
    the origin of one, the same holds after. *)
Theorem linked_names_follow_a_rename (ti fi : nat) (f : Field.t)
  (new_name : string) (s : App) :
  field_at s ti fi = Some f ->
  Field.name_lock_reason f <> "origem" ->
  List.NoDup (map Field.id (ProjectModel.all_fields (project s))) ->
  ProjectModel.all_fields (project (_on_field_name_changed ti fi new_name s))
  = map (fun x =>
           if String.eqb (Field.id x) (Field.id f)
              || (opt_eqb (Field.origin_field x) (Field.id f)
                  && String.eqb (Field.name_lock_reason x) "origem")
           then Field.set_name new_name x else x)
      (ProjectModel.all_fields (project s))
  /\ recorded s (_on_field_name_changed ti fi new_name s)
  /\ (names_follow_origin (project s) ->
      no_chain_of_origins (project s) ->
      names_follow_origin (project (_on_field_name_changed ti fi new_name s))).
Proof.
  intros Hf Hreason Hnd.
  assert (Hfin : In f (ProjectModel.all_fields (project s))).
  { destruct (update_field_fields (fun x => x) ti fi s f Hf) as (l1 & l2 & E & _).
    rewrite E. apply in_elt. }
  assert (Hall : ProjectModel.all_fields
                   (project (_on_field_name_changed ti fi new_name s))
                 = map (fun x =>
                          if String.eqb (Field.id x) (Field.id f)
                             || (opt_eqb (Field.origin_field x) (Field.id f)
                                 && String.eqb (Field.name_lock_reason x) "origem")
                          then Field.set_name new_name x else x)
                     (ProjectModel.all_fields (project s))).
  { unfold _on_field_name_changed. rewrite Hf.
    unfold ProjectModel.all_fields at 1.
    cbn [project set_tasks set_project ProjectModel.tasks ProjectModel.set_tasks].
    rewrite all_fields_map_fields.
    fold (ProjectModel.all_fields
            (project (update_field (Field.set_name new_name) ti fi (_push_undo s)))).
    rewrite (update_field_by_id _ ti fi (_push_undo s) f).
    - rewrite push_undo_project, map_map. apply map_ext. intros x.
      destruct (String.eqb (Field.id x) (Field.id f)); cbn [orb];
        [|reflexivity].
      cbn [Field.origin_field Field.name_lock_reason Field.set_name].
      now destruct (opt_eqb _ _ && _).
    - now rewrite push_undo_project.
    - rewrite <- Hf. apply field_at_project. apply push_undo_project. }
  split; [exact Hall|]. split.
  { unfold _on_field_name_changed. rewrite Hf.
    destruct (push_undo_recorded s) as (snapshot & rest & Hpop & Hsnap).
    now exists snapshot, rest. }
  intros Hinv Hchain g' f' Hg' Hf'. rewrite Hall in Hg', Hf'.
  apply in_map_iff in Hg' as (g0 & <- & Hg0).
  apply in_map_iff in Hf' as (h0 & <- & Hh0).
  set (c := fun x =>
              String.eqb (Field.id x) (Field.id f)
              || (opt_eqb (Field.origin_field x) (Field.id f)
                  && String.eqb (Field.name_lock_reason x) "origem")).
  change (Field.origin_field (if c g0 then Field.set_name new_name g0 else g0)
          = Some (Field.id (if c h0 then Field.set_name new_name h0 else h0)) ->
          Field.name_lock_reason (if c g0 then Field.set_name new_name g0 else g0)
          = "origem" ->
          Field.name (if c g0 then Field.set_name new_name g0 else g0)
          = Field.name (if c h0 then Field.set_name new_name h0 else h0)).
  assert (Ekeep : forall x,
            Field.origin_field (if c x then Field.set_name new_name x else x)
            = Field.origin_field x
            /\ Field.name_lock_reason (if c x then Field.set_name new_name x else x)
               = Field.name_lock_reason x
            /\ Field.id (if c x then Field.set_name new_name x else x)
               = Field.id x).
  { intros x. now destruct (c x). }
  destruct (Ekeep g0) as (-> & -> & _). destruct (Ekeep h0) as (_ & _ & ->).
  intros Ho Hr.
  assert (Hdep : forall x, opt_eqb (Field.origin_field g0) x
                           = String.eqb (Field.id h0) x).
  { intros x. now rewrite Ho. }
  destruct (c g0) eqn:Eg, (c h0) eqn:Eh; cbn [Field.name Field.set_name].
  - reflexivity.
  - exfalso. unfold c in Eg, Eh.
    apply orb_false_iff in Eh as [Eh _].
    apply orb_true_iff in Eg as [Eg|Eg].
    + apply String.eqb_eq in Eg. apply Hreason.
      assert (g0 = f); [|now subst].
      clear - Hnd Hg0 Hfin Eg.
      induction (ProjectModel.all_fields (project s)) as [|x l IH];
        [destruct Hg0|].
      cbn in Hnd. apply NoDup_cons_iff in Hnd as [Hnot Hnd].
      destruct Hg0 as [->|Hg0], Hfin as [->|Hfin]; try reflexivity.
      * exfalso. apply Hnot. rewrite Eg. now apply in_map.
      * exfalso. apply Hnot. rewrite <- Eg. now apply in_map.
      * now apply IH.
    + apply andb_true_iff in Eg as [Eg _]. rewrite Hdep in Eg. congruence.
  - exfalso. unfold c in Eg, Eh.
    apply orb_false_iff in Eg as [_ Eg].
    apply orb_true_iff in Eh as [Eh|Eh].
    + rewrite Hdep, Eh in Eg. cbn in Eg.
      apply String.eqb_neq in Eg. now apply Eg.
    + apply andb_true_iff in Eh as [_ Eh]. apply String.eqb_eq in Eh.
      now apply (Hchain g0 h0).
  - now apply Hinv.
Qed.

Lemma linked_names_follow_a_rename_witness :
  map Field.name
    (ProjectModel.all_fields
       (project (_on_field_name_changed 0 0 "Celular" (linked_state "Telefone"))))
  = ["Celular"; "Celular"]
  /\ names_follow_origin
       (project (_on_field_name_changed 0 0 "Celular" (linked_state "Telefone"))).
Proof.
  destruct (linked_names_follow_a_rename 0 0 (Field.new "a") "Celular"
              (linked_state "Telefone")) as (Hall & _ & Hinv).
  - reflexivity.
  - discriminate.
  - vm_compute. repeat constructor; cbn; intuition discriminate.
  - split; [rewrite Hall; reflexivity|].
    apply Hinv.
    + intros g f Hg Hf Ho Hr. vm_compute in Hg, Hf.
      destruct Hg as [<-|[<-|[]]]; [discriminate Hr|].
      destruct Hf as [<-|[<-|[]]]; [reflexivity|discriminate Ho].
    + intros g h Hg Hh Ho Hr. vm_compute in Hg, Hh.
      destruct Hg as [<-|[<-|[]]]; [discriminate Hr|].
      destruct Hh as [<-|[<-|[]]]; [discriminate|discriminate Ho].
Defined.

(** ** The simulator when the model changes *)

Lemma key_base_plain k : str_contains "__" k = false -> key_base k = k.
Proof.
  induction k as [|c k IH]; [reflexivity|].
  cbn [str_contains key_base]. intros H.
  apply orb_false_iff in H as [Hp Hk]. rewrite Hp. now rewrite (IH Hk).
Qed.

Lemma get_filter_keys {V} (keep : string -> bool) (d : PyDict.t V) k :
  PyDict.get (List.filter (fun kv => keep (fst kv)) d) k
  = if keep k then PyDict.get d k else None.
Proof.
  induction d as [|[k' v] d IH]; [now destruct (keep k)|].
  cbn [List.filter fst]. destruct (keep k') eqn:Ek'; cbn [PyDict.get].
  - destruct (String.eqb_spec k' k) as [->|_]; [now rewrite Ek'|exact IH].
  - rewrite IH. destruct (String.eqb_spec k' k) as [->|_]; [|reflexivity].
    now rewrite Ek'.
Qed.

(** X30. Pruning the answers does not change what is shown. When the
    model changes the simulator keeps the answers whose key, up to the
    first "__", is the identifier of a field of the project, and drops the
    others. In a project in which the validator finds every reference and
    no identifier contains "__", every field is as visible with the answers
    kept as with all of them, and every task shows the same fields. *)
Theorem pruned_answers_show_the_same (p : ProjectModel.t)
  (answers : PyDict.t Answer) :
  no_dangling p ->
  (forall f, In f (ProjectModel.all_fields p) ->
     str_contains "__" (Field.id f) = false) ->
  (forall k,
     PyDict.get (on_model_changed p answers) k
     = if mem (key_base k) (map Field.id (ProjectModel.all_fields p))
       then PyDict.get answers k else None)
  /\ (forall f, In f (ProjectModel.all_fields p) ->
        _is_visible (on_model_changed p answers) f = _is_visible answers f)
  /\ (forall task_idx,
        visible_fields p (on_model_changed p answers) task_idx
        = visible_fields p answers task_idx).
Proof.
  intros Hdang Hplain.
  assert (Hres : references_resolve p) by now apply no_dangling_iff.
  assert (Hget : forall k,
            PyDict.get (on_model_changed p answers) k
            = if mem (key_base k) (map Field.id (ProjectModel.all_fields p))
              then PyDict.get answers k else None).
  { intros k. unfold on_model_changed.
    apply (get_filter_keys
             (fun k => mem (key_base k)
                         (map Field.id (ProjectModel.all_fields p)))). }
  assert (Hvis : forall f, In f (ProjectModel.all_fields p) ->
            _is_visible (on_model_changed p answers) f = _is_visible answers f).
  { intros f Hf. unfold _is_visible.
    destruct (Field.cond f) as [|c0 rest] eqn:Ec; [reflexivity|].
    rewrite <- Ec. apply some_rule_met_ext. intros c Hc. rewrite Hget.
    destruct (Hres f Hf) as [_ Hrc]. specialize (Hrc c Hc).
    assert (Hbase : key_base (Condition.src_field c) = Condition.src_field c).
    { apply key_base_plain. apply in_map_iff in Hrc as (g & <- & Hg).
      now apply Hplain. }
    rewrite Hbase. apply mem_In in Hrc. now rewrite Hrc. }
  split; [exact Hget|]. split; [exact Hvis|].
  intros task_idx. unfold visible_fields.
  destruct (ProjectModel.tasks p !! task_idx) as [task|] eqn:Et; [|reflexivity].
  apply filter_ext_in. intros f Hf. apply Hvis.
  apply in_flat_map. exists task. split; [|exact Hf].
  now apply list_elem_of_lookup_2, list_elem_of_In in Et.
Qed.

Lemma pruned_answers_show_the_same_witness :
  on_model_changed ruled_project
    [("a", One "Sim"); ("gone", One "x"); ("a__sub", One "y")]
  = [("a", One "Sim"); ("a__sub", One "y")]
  /\ visible_fields ruled_project
       (on_model_changed ruled_project
          [("a", One "Sim"); ("gone", One "x"); ("a__sub", One "y")]) 0
     = visible_fields ruled_project
         [("a", One "Sim"); ("gone", One "x"); ("a__sub", One "y")] 0.
Proof.
  split; [reflexivity|].
  apply (pruned_answers_show_the_same ruled_project).
  - split; vm_compute; intuition discriminate.
  - intros f Hf. vm_compute in Hf.
    destruct Hf as [<-|[<-|[<-|[]]]]; reflexivity.
Defined.
